(** * py4DSTEM.io.classes.tree: Node, Root and Tree

    A shallow embedding of [src/py4DSTEM/io/classes/tree.py].  Python objects
    live in a store and are named by references, because the code shares
    and mutates them: a node is held by its parent's [Tree], by the [_root]
    field of every node of its tree, and by the caller.  Methods are
    computations in a state-and-exception monad in which a raised exception
    keeps the mutations made before it, as in Python. *)

From Stdlib Require Import String Ascii DecimalString.
From stdpp Require Import base list strings.

Local Open Scope string_scope.
Local Open Scope list_scope.
Set Warnings "-register-all".

(** ** Python values, exceptions *)

(** Object identities: positions in the store. *)
Abbreviation ref := nat (only parsing).   (* identity of a Node instance *)
Abbreviation mref := nat (only parsing).  (* identity of a Metadata instance *)
Abbreviation gref := nat (only parsing).  (* identity of an h5py Group *)

Inductive pyval :=
| PNone
| PBool (b : bool)
| PInt (z : Z)
| PStr (s : string)
| PNode (r : ref)
| PTuple (items : list pyval).

Inductive exn :=
| AssertionError (msg : string)
| Exception (msg : string)
| IndexError
| KeyError (key : string)
| ValueError
| AttributeError
| TypeError
| NameError (name : string)
| RuntimeError (msg : string)
| RecursionError
| DanglingReference.  (* a reference outside the store: no Python run has one *)

Inductive Res (A : Type) :=
| Ok (a : A)
| Err (e : exn).
Arguments Ok {A} a.
Arguments Err {A} e.

(** ** Python [str] and [list] primitives used by the module *)

(** [s.split(sep)] for a one-character separator. *)
Fixpoint split (sep : ascii) (s : string) : list string :=
  match s with
  | EmptyString => [EmptyString]
  | String c s' =>
      if Ascii.eqb c sep then EmptyString :: split sep s'
      else match split sep s' with
           | [] => [String c EmptyString]
           | w :: ws => String c w :: ws
           end
  end.

(** [sep.join(l)]. *)
Definition join (sep : string) (l : list string) : string := String.concat sep l.

(** [l.pop()]: the last item and the list without it; [None] is IndexError. *)
Fixpoint list_pop {A} (l : list A) : option (A * list A) :=
  match l with
  | [] => None
  | [x] => Some (x, [])
  | x :: l' => match list_pop l' with
               | Some (y, r) => Some (y, x :: r)
               | None => None
               end
  end.

(** [l.remove(x)]: drops the first occurrence; [None] is ValueError. *)
Fixpoint list_remove (x : string) (l : list string) : option (list string) :=
  match l with
  | [] => None
  | y :: l' => if String.eqb y x then Some l'
               else match list_remove x l' with
                    | Some r => Some (y :: r)
                    | None => None
                    end
  end.

(** ** Python [dict]: insertion-ordered *)

(** What serves as a key: a type with the [==] of its values.  The keys of
    the module are [str]; the Tree of a node is keyed by the names of its
    children, which are [Optional[str]]. *)
Class Key (K : Type) := key_eqb : K → K → bool.

(** [==] decides equality of keys. *)
Class KeyLaws (K : Type) `{Key K} : Prop :=
  key_eqb_eq : ∀ a b : K, key_eqb a b = true ↔ a = b.

#[export] Instance str_key : Key string := String.eqb.

(** [a == b] for two values that are [None] or a [str]. *)
Definition optional_str_eqb (a b : option string) : bool :=
  match a, b with
  | Some x, Some y => String.eqb x y
  | None, None => true
  | _, _ => false
  end.

#[export] Instance optional_str_key : Key (option string) := optional_str_eqb.

(** A dictionary keyed by [str]. *)
Definition dict (V : Type) := list (string * V).

Section Dict.
Context {K V : Type} `{Key K}.

Fixpoint dict_get (k : K) (d : list (K * V)) : option V :=
  match d with
  | [] => None
  | (k', v) :: d' => if key_eqb k k' then Some v else dict_get k d'
  end.

(** [d[k] = v]: an existing key keeps its place, a new one goes last. *)
Fixpoint dict_set (k : K) (v : V) (d : list (K * V)) : list (K * V) :=
  match d with
  | [] => [(k, v)]
  | (k', v') :: d' =>
      if key_eqb k k' then (k, v) :: d' else (k', v') :: dict_set k v d'
  end.

(** [del d[k]]; [None] is KeyError. *)
Fixpoint dict_del (k : K) (d : list (K * V)) : option (list (K * V)) :=
  match d with
  | [] => None
  | (k', v') :: d' =>
      if key_eqb k k' then Some d'
      else match dict_del k d' with
           | Some r => Some ((k', v') :: r)
           | None => None
           end
  end.

Definition dict_keys (d : list (K * V)) : list K := map fst d.

Definition dict_mem (k : K) (d : list (K * V)) : bool :=
  match dict_get k d with Some _ => true | None => false end.
End Dict.

(** ** Objects *)

(** [class Tree]: its only field is [_dict].  A Tree is created in
    [Node.__init__] and never handed out, so it is stored inline in its node.
    [add_to_tree] files a child under its [name], which is [None] or a
    [str]. *)
Record TreeObj := mkTree { _dict : list (option string * ref) }.

Inductive pyclass := Node_class | Root_class.

Definition class_name (c : pyclass) : string :=
  match c with Node_class => "Node" | Root_class => "Root" end.

(** [class Root(Node)]. *)
Definition class_base (c : pyclass) : option pyclass :=
  match c with Node_class => None | Root_class => Some Node_class end.

(** Attributes assigned in the class bodies: [Node] has
    [_emd_group_type = 'node'], the body of [Root] assigns none. *)
Definition class_dict (c : pyclass) : dict string :=
  match c with
  | Node_class => [("_emd_group_type", "node")]
  | Root_class => []
  end.

(** [cls.attr]: the class's own dictionary, then its base's. *)
Definition class_getattr (c : pyclass) (attr : string) : option string :=
  match dict_get attr (class_dict c) with
  | Some v => Some v
  | None => match class_base c with
            | Some b => dict_get attr (class_dict b)
            | None => None
            end
  end.

(** A Node instance.  [_emd_group_type] is the entry of that name in the
    instance's own [__dict__], present only when [__init__] assigned it. *)
Record NodeObj := mkNode {
  __class__ : pyclass;
  name : option string;
  _tree : TreeObj;
  _treepath : option string;
  _root : option ref;
  _metadata : dict mref;
  _emd_group_type : option string
}.

Definition with_tree (t : TreeObj) (n : NodeObj) : NodeObj :=
  mkNode (__class__ n) (name n) t (_treepath n) (_root n) (_metadata n) (_emd_group_type n).
Definition with_treepath (p : option string) (n : NodeObj) : NodeObj :=
  mkNode (__class__ n) (name n) (_tree n) p (_root n) (_metadata n) (_emd_group_type n).
Definition with_root (r : option ref) (n : NodeObj) : NodeObj :=
  mkNode (__class__ n) (name n) (_tree n) (_treepath n) r (_metadata n) (_emd_group_type n).
Definition with_metadata (m : dict mref) (n : NodeObj) : NodeObj :=
  mkNode (__class__ n) (name n) (_tree n) (_treepath n) (_root n) m (_emd_group_type n).
Definition with_emd_group_type (g : option string) (n : NodeObj) : NodeObj :=
  mkNode (__class__ n) (name n) (_tree n) (_treepath n) (_root n) (_metadata n) g.

(** Modelled from the spec: the [Metadata] class is imported from
    [py4DSTEM.io.classes] and is not in src/.  The spec gives it a [name], a
    key-value dictionary, [copy()] returning an independent duplicate and a
    [serialize(containerGroup)]. *)
Record MetadataObj := mkMetadata {
  md_name : string;
  md_params : dict pyval
}.

(** Modelled from the spec: the h5py Group is the spec's hierarchical
    container: named sub-groups and attributes attached to a group. *)
Record GroupObj := mkGroup {
  g_attrs : dict pyval;
  g_subgroups : dict gref
}.

(** ** The store *)

Record State := mkState {
  nodes : list NodeObj;
  metadatas : list MetadataObj;
  groups : list GroupObj;
  stdout : list string;      (* lines written by [print] *)
  linelevels_default : list nat
    (* the list object built once for the default argument [linelevels=[]]
       of [Tree._print_tree_to_screen] and shared by every call *)
}.

Definition empty_state : State := mkState [] [] [] [] [].

Definition set_nodes (f : list NodeObj → list NodeObj) (st : State) : State :=
  mkState (f (nodes st)) (metadatas st) (groups st) (stdout st) (linelevels_default st).
Definition set_metadatas (f : list MetadataObj → list MetadataObj) (st : State) : State :=
  mkState (nodes st) (f (metadatas st)) (groups st) (stdout st) (linelevels_default st).
Definition set_groups (f : list GroupObj → list GroupObj) (st : State) : State :=
  mkState (nodes st) (metadatas st) (f (groups st)) (stdout st) (linelevels_default st).
Definition set_stdout (f : list string → list string) (st : State) : State :=
  mkState (nodes st) (metadatas st) (groups st) (f (stdout st)) (linelevels_default st).
Definition set_linelevels (f : list nat → list nat) (st : State) : State :=
  mkState (nodes st) (metadatas st) (groups st) (stdout st) (f (linelevels_default st)).

(** ** The monad *)

Definition M (A : Type) : Type := State → Res A * State.

Definition ret {A} (a : A) : M A := λ st, (Ok a, st).
Definition raise {A} (e : exn) : M A := λ st, (Err e, st).
Definition bind {A B} (m : M A) (k : A → M B) : M B :=
  λ st, match m st with
        | (Ok a, st') => k a st'
        | (Err e, st') => (Err e, st')
        end.

Notation "'let!' x ':=' m 'in' k" := (bind m (λ x, k))
  (at level 10, x pattern, m at level 100, k at level 200).
Notation "m '>>' k" := (bind m (λ _, k))
  (at level 100, k at level 200, right associativity).

(** [assert cond, msg]. *)
Definition assert (cond : bool) (msg : string) : M unit :=
  if cond then ret tt else raise (AssertionError msg).

(** [try: m  except <exception matched by catches>: handler]. *)
Definition try_except {A} (m : M A) (catches : exn → bool) (handler : M A) : M A :=
  λ st, match m st with
        | (Ok a, st') => (Ok a, st')
        | (Err e, st') => if catches e then handler st' else (Err e, st')
        end.

Definition get_node (r : ref) : M NodeObj :=
  λ st, match nodes st !! r with
        | Some n => (Ok n, st)
        | None => (Err DanglingReference, st)
        end.

(** An attribute assignment [r.attr = v]. *)
Definition modify_node (r : ref) (f : NodeObj → NodeObj) : M unit :=
  λ st, match nodes st !! r with
        | Some n => (Ok tt, set_nodes (λ h : list NodeObj, <[r := f n]> h) st)
        | None => (Err DanglingReference, st)
        end.

Definition alloc_node (n : NodeObj) : M ref :=
  λ st, (Ok (List.length (nodes st)), set_nodes (λ h, h ++ [n]) st).

Definition get_metadata (m : mref) : M MetadataObj :=
  λ st, match metadatas st !! m with
        | Some o => (Ok o, st)
        | None => (Err DanglingReference, st)
        end.

Definition alloc_metadata (o : MetadataObj) : M mref :=
  λ st, (Ok (List.length (metadatas st)), set_metadatas (λ h, h ++ [o]) st).


(** [print(line)]. *)
Definition builtin_print (line : string) : M unit :=
  λ st, (Ok tt, set_stdout (λ out, out ++ [line]) st).

(** [for x in l: body(x)] over a list that the body does not change. *)
Fixpoint for_each {A} (l : list A) (body : A → M unit) : M unit :=
  match l with
  | [] => ret tt
  | x :: l' => body x >> for_each l' body
  end.

(** [enumerate(l)]. *)
Definition enumerate {A} (l : list A) : list (nat * A) := imap (λ i x, (i, x)) l.

Definition is_some {A} (o : option A) : bool :=
  match o with Some _ => true | None => false end.
Definition is_none {A} (o : option A) : bool :=
  match o with Some _ => false | None => true end.

(** [str(n)] for a non-negative [int]. *)
Definition str_of_nat (n : nat) : string :=
  DecimalString.NilZero.string_of_uint (Nat.to_uint n).

Definition tab : string := String (Ascii.ascii_of_nat 9) EmptyString.

(** ** class Tree *)

Module Tree.

Definition __init__ : TreeObj := mkTree [].

(** [__setitem__(self, key, value)] on the Tree of node [owner].  The
    [isinstance(value, Node)] assertion holds of every [ref]. *)
Definition __setitem__ (owner : ref) (key : option string) (value : ref) : M unit :=
  modify_node owner (λ n, with_tree (mkTree (dict_set key value (_dict (_tree n)))) n).

(** The [try: l.remove(''); l.remove('')  except ValueError: pass] of
    [__getitem__]: each [remove] changes [l] in place, the first failure
    leaves the block. *)
Definition remove_two_empty (l : list string) : list string :=
  match list_remove "" l with
  | None => l
  | Some l1 => match list_remove "" l1 with
               | None => l1
               | Some l2 => l2
               end
  end.

Definition not_found_msg (k : string) : string := k +:+ " not found in tree - check keys".
Definition invalid_slice_msg : string := "invalid slice value to tree".

Fixpoint _getitem_from_list (self : TreeObj) (x : list string) : M ref :=
  match x with
  | [] => raise (Exception invalid_slice_msg)
  | k :: x' =>
      assert (dict_mem (Some k) (_dict self)) (not_found_msg k) >>
      match dict_get (Some k) (_dict self) with
      | None => raise (KeyError k)
      | Some r =>
          match x' with
          | [] => ret r
          | _ :: _ => let! n := get_node r in _getitem_from_list (_tree n) x'
          end
      end
  end.

Definition __getitem__ (self : TreeObj) (x : string) : M ref :=
  let l := split "/" x in
  _getitem_from_list self (remove_two_empty l).

(** [__delitem__(self, x)] on the Tree of node [owner], for a [str] [x]. *)
Definition __delitem__ (owner : ref) (x : string) : M unit :=
  let! n := get_node owner in
  match dict_del (Some x) (_dict (_tree n)) with
  | None => raise (KeyError x)
  | Some d => modify_node owner (with_tree (mkTree d))
  end.

Definition keys (self : TreeObj) : list (option string) := dict_keys (_dict self).
Definition items (self : TreeObj) : list (option string * ref) := _dict self.

Definition get_linelevels : M (list nat) := λ st, (Ok (linelevels_default st), st).

Definition nat_mem (n : nat) (l : list nat) : bool := existsb (Nat.eqb n) l.

(** [linelevels.remove(n)]. *)
Fixpoint nat_remove (n : nat) (l : list nat) : option (list nat) :=
  match l with
  | [] => None
  | y :: l' => if Nat.eqb y n then Some l'
               else match nat_remove n l' with
                    | Some r => Some (y :: r)
                    | None => None
                    end
  end.

Definition linelevels_remove (n : nat) : M unit :=
  λ st, match nat_remove n (linelevels_default st) with
        | Some l => (Ok tt, set_linelevels (λ _, l) st)
        | None => (Err ValueError, st)
        end.

(** The prefix of one printed line: ['|'] when level 0 is open, then per
    level a tab and a ['|'] when that level is open. *)
Definition line_prefix (tablevel : nat) (linelevels : list nat) : string :=
  fold_left (λ s idx, s +:+ tab +:+ (if nat_mem (idx + 1) linelevels then "|" else ""))
            (seq 0 tablevel)
            (if nat_mem 0 linelevels then "|" else "").

(** [_print_tree_to_screen(tree, tablevel, linelevels)], [linelevels] being
    the shared default list.  [fuel] is the interpreter's recursion limit. *)
Fixpoint _print_tree_to_screen (fuel : nat) (tree : TreeObj) (tablevel : nat) : M unit :=
  match fuel with
  | 0 => raise RecursionError
  | S fuel' =>
      let! ll := get_linelevels in
      (if nat_mem tablevel ll then ret tt
       else λ st, (Ok tt, set_linelevels (λ l, l ++ [tablevel]) st)) >>
      let ks := keys tree in
      let N := List.length ks in
      for_each (enumerate ks) (λ ik,
        let i := fst ik in
        let! ll := get_linelevels in
        match snd ik with
        | None => raise TypeError         (* string+'--'+k with the key None *)
        | Some k =>
            builtin_print (line_prefix tablevel ll +:+ "--" +:+ k) >>
            (if Nat.eqb i (N - 1) then linelevels_remove tablevel else ret tt) >>
            try_except
              (let! r := __getitem__ tree k in
               let! n := get_node r in
               _print_tree_to_screen fuel' (_tree n) (tablevel + 1))
              (λ e, match e with AttributeError => true | _ => false end)
              (ret tt)
        end)
  end.

Definition print (fuel : nat) (self : TreeObj) : M unit :=
  builtin_print "/" >>
  _print_tree_to_screen fuel self 0.

End Tree.

(** ** Collaborators outside src/ *)

Module Metadata.

(** Modelled from the spec: [Metadata(name)] with its key-value pairs: a
    named dictionary. *)
Definition __init__ (name : string) (params : dict pyval) : M mref :=
  alloc_metadata (mkMetadata name params).

(** Modelled from the spec: [Metadata.copy()], the spec's "independent
    duplicate": a new instance with the same name and contents. *)
Definition copy (self : mref) : M mref :=
  let! o := get_metadata self in
  alloc_metadata (mkMetadata (md_name o) (md_params o)).

(** [md.name = k]. *)
Definition set_name (self : mref) (k : string) : M unit :=
  λ st, match metadatas st !! self with
        | Some o => (Ok tt, set_metadatas
                              (λ h : list MetadataObj, <[self := mkMetadata k (md_params o)]> h) st)
        | None => (Err DanglingReference, st)
        end.

End Metadata.

Module Group.

Definition get_group (g : gref) : M GroupObj :=
  λ st, match groups st !! g with
        | Some o => (Ok o, st)
        | None => (Err DanglingReference, st)
        end.

Definition modify_group (g : gref) (f : GroupObj → GroupObj) : M unit :=
  λ st, match groups st !! g with
        | Some o => (Ok tt, set_groups (λ h : list GroupObj, <[g := f o]> h) st)
        | None => (Err DanglingReference, st)
        end.

(** Modelled from the spec: [group.create_group(name)] of the container
    binding, which is not in src/: a new, empty, named sub-group; a name
    already taken is refused. *)
Definition create_group (self : gref) (name : string) : M gref :=
  let! o := get_group self in
  if dict_mem name (g_subgroups o) then raise ValueError
  else
    let! g := (λ st, (Ok (List.length (groups st)),
                      set_groups (λ h, h ++ [mkGroup [] []]) st)) in
    modify_group self (λ o, mkGroup (g_attrs o) (dict_set name g (g_subgroups o))) >>
    ret g.

(** Modelled from the spec: the sub-group creation of the container
    binding for a node whose name is [None], [group.create_group(None)].
    The spec has named sub-groups only; h5py, the binding the code is
    written for, makes an anonymous group for the name [None]: a new, empty
    group that [self] has no link to. *)
Definition create_anonymous_group (self : gref) : M gref :=
  let! _ := get_group self in
  λ st, (Ok (List.length (groups st)),
         set_groups (λ h, h ++ [mkGroup [] []]) st).

(** Modelled from the spec: [group.attrs.create(key, value)], an attribute
    attached to a group. *)
Definition attrs_create (self : gref) (key : string) (value : pyval) : M unit :=
  modify_group self (λ o, mkGroup (dict_set key value (g_attrs o)) (g_subgroups o)).

End Group.

(** Modelled from the spec: [Metadata.to_h5(group)], which is not in src/:
    the bundle is serialized into the container keyed by its name. *)
Definition Metadata_to_h5 (self : mref) (group : gref) : M gref :=
  let! o := get_metadata self in
  let! grp := Group.create_group group (md_name o) in
  for_each (md_params o) (λ kv, Group.attrs_create grp (fst kv) (snd kv)) >>
  ret grp.

(** ** Comparisons on Python values *)

(** [v == b] for a [bool] [b]: [True == 1] and [False == 0] hold in Python. *)
Definition py_eq_bool (v : pyval) (b : bool) : bool :=
  match v with
  | PBool b' => Bool.eqb b' b
  | PInt z => Z.eqb z (if b then 1 else 0)
  | _ => false
  end.

Definition py_eq_str (v : pyval) (s : string) : bool :=
  match v with
  | PStr s' => String.eqb s' s
  | _ => false
  end.

(** [v is True] and [v is False]. *)
Definition py_is_bool (v : pyval) (b : bool) : bool :=
  match v with
  | PBool b' => Bool.eqb b' b
  | _ => false
  end.

(** [merge_metadata in [True,False,'copy']]. *)
Definition merge_metadata_valid (v : pyval) : bool :=
  py_eq_bool v true || py_eq_bool v false || py_eq_str v "copy".

(** [for key in d.keys(): body(key)] over a live dictionary: [size] reads the
    dictionary's current length, and the iterator raises RuntimeError at its
    next step once that differs from the length it started with. *)
Fixpoint for_keys (ks : list string) (size0 : nat) (size : M nat)
    (body : string → M unit) : M unit :=
  let! n := size in
  if negb (Nat.eqb n size0)
  then raise (RuntimeError "dictionary changed size during iteration")
  else match ks with
       | [] => ret tt
       | k :: ks' => body k >> for_keys ks' size0 size body
       end.

(** ** class Node, class Root *)

(** [Node.__init__(self, name)] for a new instance of class [cls]; [name]
    is declared [Optional[str]]. *)
Definition Node__init__ (cls : pyclass) (name : option string) : M ref :=
  alloc_node (mkNode cls name Tree.__init__ None None [] None).

(** [Root(name)]. *)
Definition Root__init__ (name : option string) : M ref :=
  let! self := Node__init__ Root_class name in
  modify_node self (with_treepath (Some "")) >>
  modify_node self (with_root (Some self)) >>
  modify_node self (with_emd_group_type (Some "root")) >>
  ret self.

(** [Node(name)]. *)
Definition Node (name : option string) : M ref := Node__init__ Node_class name.

(** The [root] property. *)
Definition root (self : ref) : M (option ref) :=
  let! n := get_node self in ret (_root n).

(** [v.root] for any Python value [v]. *)
Definition getattr_root (v : pyval) : M (option ref) :=
  match v with
  | PNode r => root r
  | _ => raise AttributeError
  end.

(** The [metadata] property of an optional node ([None.metadata] raises). *)
Definition metadata (self : option ref) : M (dict mref) :=
  match self with
  | Some r => let! n := get_node r in ret (_metadata n)
  | None => raise AttributeError
  end.

(** The [metadata] setter: [self.metadata = x].  [x] is a Metadata instance
    by its type. *)
Definition metadata_setter (self : ref) (x : mref) : M unit :=
  let! o := get_metadata x in
  modify_node self (λ n, with_metadata (dict_set (md_name o) x (_metadata n)) n).

Definition show_unrooted_msg : string := "Can't display an unrooted node from its root!".
Definition add_unrooted_msg : string :=
  "Can't add objects to an unrooted node. See the Node docstring for more info.".
Definition add_rooted_msg : string :=
  "Can't add a rooted node to a different tree.  Use `.tree(graft=node)` instead.".
Definition graft_unrooted_msg : string :=
  "Can't graft an unrooted node; try using .tree(add=node) instead.".
Definition graft_onto_unrooted_msg : string := "Can't graft onto an unrooted node".

Definition show_tree (fuel : nat) (self : ref) (root : bool) : M unit :=
  if negb root then
    let! n := get_node self in Tree.print fuel (_tree n)
  else
    let! n := get_node self in
    assert (is_some (_root n)) show_unrooted_msg >>
    match _root n with
    | Some r => let! rn := get_node r in Tree.print fuel (_tree rn)
    | None => raise AttributeError
    end.

Definition add_to_tree (self : ref) (node : ref) : M unit :=
  let! s := get_node self in
  assert (is_some (_root s)) add_unrooted_msg >>
  let! n := get_node node in
  assert (is_none (_root n)) add_rooted_msg >>
  (* node._root = self._root *)
  (let! s := get_node self in modify_node node (with_root (_root s))) >>
  (* self._tree[node.name] = node *)
  (let! n := get_node node in Tree.__setitem__ self (name n) node) >>
  (* node._treepath = self._treepath+'/'+node.name *)
  let! s := get_node self in
  let! n := get_node node in
  match _treepath s, name n with
  | Some p, Some nm => modify_node node (with_treepath (Some (p +:+ "/" +:+ nm)))
  | _, _ => raise TypeError            (* None + str, or str + None *)
  end.

Definition get_from_tree (self : ref) (name : string) : M ref :=
  match name with
  | EmptyString => raise IndexError          (* name[0] of the empty string *)
  | String c _ =>
      if negb (Ascii.eqb c "/") then
        let! s := get_node self in Tree.__getitem__ (_tree s) name
      else
        let! s := get_node self in
        match _root s with
        | Some r => let! rn := get_node r in Tree.__getitem__ (_tree rn) name
        | None => raise AttributeError       (* None._tree *)
        end
  end.

(** The body of the two loops that end [graft]:
    [node.root.metadata = old_root.metadata[key]], with [.copy()] in the
    second loop.  The right-hand side is evaluated first. *)
Definition merge_one (copy : bool) (old_root : option ref) (node : pyval)
    (key : string) : M unit :=
  let! d := metadata old_root in
  match dict_get key d with
  | None => raise (KeyError key)
  | Some md =>
      let! x := (if copy then Metadata.copy md else ret md) in
      let! r := getattr_root node in
      match r with
      | Some r => metadata_setter r x
      | None => raise AttributeError
      end
  end.

(** [for key in old_root.metadata.keys(): ...]. *)
Definition merge_root_metadata (copy : bool) (old_root : option ref) (node : pyval) : M unit :=
  let! d0 := metadata old_root in
  for_keys (dict_keys d0) (List.length d0)
    (let! d := metadata old_root in ret (List.length d))
    (merge_one copy old_root node).

Definition graft (self : ref) (node : pyval) (merge_metadata : pyval) : M (option ref) :=
  let! r := root self in
  assert (is_some r) graft_unrooted_msg >>
  let! nr := getattr_root node in
  assert (is_some nr) graft_onto_unrooted_msg >>
  (* find upstream and root nodes *)
  let! old_root := root self in
  let! s := get_node self in
  match _treepath s with
  | None => raise AttributeError
  | Some p =>
      match list_pop (split "/" p) with
      | None => raise IndexError
      | Some (this_node, node_list) =>
          let treepath := join "/" node_list in
          let! upstream_node := get_from_tree self treepath in
          (* remove connection from upstream to this node *)
          Tree.__delitem__ upstream_node this_node >>
          (* add to a new tree *)
          modify_node self (with_root None) >>
          (match node with
           | PNode t => add_to_tree t self
           | _ => raise AttributeError
           end) >>
          (* add old root metadata to this node *)
          assert (merge_metadata_valid merge_metadata) "" >>
          (if py_is_bool merge_metadata false then ret tt
           else if py_is_bool merge_metadata true
                then merge_root_metadata false old_root node
                else merge_root_metadata true old_root node) >>
          getattr_root node
      end
  end.

Definition cut_from_tree (self : ref) (root_metadata : pyval) : M (option ref) :=
  let! s := get_node self in
  let! new_root := Root__init__ (name s) in
  graft self (PNode new_root) root_metadata.

(** [f"{type(v)}"]. *)
Definition type_repr (v : pyval) : M string :=
  match v with
  | PNone => ret "<class 'NoneType'>"
  | PBool _ => ret "<class 'bool'>"
  | PInt _ => ret "<class 'int'>"
  | PStr _ => ret "<class 'str'>"
  | PTuple _ => ret "<class 'tuple'>"
  | PNode r =>
      let! n := get_node r in
      ret ("<class 'py4DSTEM.io.classes.tree." +:+ class_name (__class__ n) +:+ "'>")
  end.

Definition of_option_ref (o : option ref) : pyval :=
  match o with Some r => PNode r | None => PNone end.

Definition tree_keywords : list string := ["show"; "add"; "get"; "cut"; "graft"].

Definition graft_shape_msg : string :=
  ".tree(graft=x) requires `x=Node` or `x=(node,metadata)` for some node and `metadata` in (True,False,'copy')".

(** [len(v)] and the unpacking [n,m = v] of a value of length 2. *)
Definition py_len (v : pyval) : M nat :=
  match v with
  | PTuple items => ret (List.length items)
  | PStr s => ret (String.length s)
  | _ => raise TypeError
  end.

Definition unpack2 (v : pyval) : M (pyval * pyval) :=
  match v with
  | PTuple [a; b] => ret (a, b)
  | PStr (String a (String b EmptyString)) =>
      ret (PStr (String a EmptyString), PStr (String b EmptyString))
  | _ => raise ValueError
  end.

(** [Node.tree(self, arg=None, **kwargs)].  [kwargs] is the dictionary of
    the keywords of the call that are no parameter of the method. *)
Definition tree (fuel : nat) (self : ref) (arg : pyval) (kwargs : dict pyval) : M pyval :=
  let from_kwargs : M pyval :=
    (* if `arg` is not passed, choose behavior from **kwargs *)
    if Nat.eqb (List.length kwargs) 0 then
      show_tree fuel self false >> ret PNone
    else
      assert (Nat.eqb (List.length kwargs) 1)
             ("kwargs accepts at most 1 argument; recieved " +:+ str_of_nat (List.length kwargs)) >>
      match list_pop kwargs with
      | None => raise (KeyError "popitem(): dictionary is empty")
      | Some ((k, v), _) =>
          assert (existsb (String.eqb k) tree_keywords)
                 ("invalid keyword passed to .tree(), " +:+ k) >>
          if String.eqb k "show" then
            match v with
            | PBool b => show_tree fuel self b >> ret PNone
            | _ => let! t := type_repr v in
                   raise (AssertionError
                            (".tree(show=value) requires type(value)==bool, not " +:+ t))
            end
          else if String.eqb k "add" then
            match v with
            | PNode n => add_to_tree self n >> ret PNone
            | _ => raise (NameError "value")   (* the message reads an unbound name *)
            end
          else if String.eqb k "get" then
            match v with
            | PStr s => let! r := get_from_tree self s in ret (PNode r)
            | _ => let! t := type_repr v in
                   raise (AssertionError
                            (".tree(get=value) requires type(value)==str, not " +:+ t))
            end
          else if String.eqb k "cut" then
            let! r := cut_from_tree self v in ret (of_option_ref r)
          else if String.eqb k "graft" then
            let! nm := match v with
                       | PNode _ => ret (v, PBool true)
                       | _ => let! len := py_len v in
                              assert (Nat.eqb len 2) graft_shape_msg >>
                              unpack2 v
                       end in
            let! r := graft self (fst nm) (snd nm) in ret (of_option_ref r)
          else
            raise (Exception ("Invalid arg " +:+ k +:+ "; must be in (show,add,get,cut,graft)"))
      end in
  (* if `arg` is passed, choose behavior from its type *)
  match arg with
  | PBool b => show_tree fuel self b >> ret PNone
  | PNode n => add_to_tree self n >> ret PNone
  | PStr s => let! r := get_from_tree self s in ret (PNode r)
  | PNone => from_kwargs
  | _ => let! t := type_repr arg in
         raise (AssertionError ("invalid `arg` type passed to .tree() " +:+ t))
  end.

(** ** Serialization *)

Section Serialization.

(** [EMD_group_types] is imported from [py4DSTEM.io.classes.class_io_utils],
    which is not in src/. *)
Variable EMD_group_types : list string.

(** [Node.to_h5(self, group)]. *)
Definition to_h5 (self : ref) (group : gref) : M gref :=
  let! n := get_node self in
  (* Validate group type *)
  match class_getattr (__class__ n) "_emd_group_type" with
  | None => raise AttributeError
  | Some ty =>
      assert (existsb (String.eqb ty) EMD_group_types) "" >>
      (* Make group, add tags *)
      let! grp := match name n with
                  | Some nm => Group.create_group group nm
                  | None => Group.create_anonymous_group group
                  end in
      Group.attrs_create grp "emd_group_type" (PStr ty) >>
      Group.attrs_create grp "python_class" (PStr (class_name (__class__ n))) >>
      (* add metadata *)
      let! n := get_node self in
      let items := _metadata n in
      (if Nat.ltb 0 (List.length items) then
         (* create container group for metadata dictionaries *)
         let! grp_metadata := Group.create_group grp "_metadata" in
         Group.attrs_create grp_metadata "emd_group_type" (PStr "metadatabundle") >>
         for_each items (λ kv,
           let k := fst kv in
           (* add each Metadata instance *)
           let! d := metadata (Some self) in
           match dict_get k d with
           | None => raise (KeyError k)
           | Some md =>
               Metadata.set_name md k >>
               let! d := metadata (Some self) in
               match dict_get k d with
               | None => raise (KeyError k)
               | Some md => Metadata_to_h5 md grp_metadata >> ret tt
               end
           end)
       else ret tt) >>
      ret grp
  end.

End Serialization.

(** ** Vocabulary of the properties *)

(** [c] is a value of the Tree of node [p]. *)
Definition child_of (h : list NodeObj) (p c : ref) : Prop :=
  ∃ n k, h !! p = Some n ∧ dict_get k (_dict (_tree n)) = Some c.

(** [c] is reachable through the Tree of [r], at any depth. *)
Inductive reachable (h : list NodeObj) (r : ref) : ref → Prop :=
| reachable_child c : child_of h r c → reachable h r c
| reachable_below m c : reachable h r m → child_of h m c → reachable h r c.

(** The chain of Tree memberships under the [str] keys [segs] leads from
    node [r] to node [c]. *)
Inductive address (h : list NodeObj) : ref → list string → ref → Prop :=
| address_here r : address h r [] r
| address_down r n k m segs c :
    h !! r = Some n → dict_get (Some k) (_dict (_tree n)) = Some m →
    address h m segs c → address h r (k :: segs) c.

(** The '/'-delimited address of a chain of memberships, as [add_to_tree]
    builds it from the root's empty path. *)
Fixpoint path_of (segs : list string) : string :=
  match segs with
  | [] => ""
  | k :: segs' => "/" +:+ k +:+ path_of segs'
  end.

Definition is_Root (h : list NodeObj) (r : ref) : Prop :=
  ∃ n, h !! r = Some n ∧ __class__ n = Root_class.

(** Every node reachable from a Root has that Root as its [root]. *)
Definition roots_consistent (st : State) : Prop :=
  ∀ r c cn, is_Root (nodes st) r → reachable (nodes st) r c →
            nodes st !! c = Some cn → _root cn = Some r.

(** The [path] of every node under a Root is the address of its chain of
    memberships. *)
Definition paths_consistent (st : State) : Prop :=
  ∀ r segs c cn, is_Root (nodes st) r → address (nodes st) r segs c →
                 nodes st !! c = Some cn → _treepath cn = Some (path_of segs).

(** The mapping reached from Tree [t] once the segments [segs] are resolved. *)
Fixpoint descend (h : list NodeObj) (t : TreeObj) (segs : list string) : option TreeObj :=
  match segs with
  | [] => Some t
  | k :: segs' =>
      match dict_get (Some k) (_dict t) with
      | Some r => match h !! r with
                  | Some n => descend h (_tree n) segs'
                  | None => None
                  end
      | None => None
      end
  end.

(** Every bundle of a node is stored under its own name, as the [metadata]
    setter stores it. *)
Definition metadata_named (st : State) (n : NodeObj) : Prop :=
  ∀ k m, dict_get k (_metadata n) = Some m →
         ∃ o, metadatas st !! m = Some o ∧ md_name o = k.

(** The operations one call of [tree] asks for: the positional argument, when
    there is one, and every keyword. *)
Definition requested (arg : pyval) (kwargs : dict pyval) : nat :=
  (match arg with PNone => 0 | _ => 1 end) + List.length kwargs.

(** What the steps of [graft] before the metadata loops leave alone: the
    Metadata instances, the [_metadata] of every node, and the [_root] of
    every node but the grafted one, [s]. *)
Definition graft_frame (s : ref) (st st' : State) : Prop :=
  metadatas st' = metadatas st
  ∧ ∀ q n, nodes st !! q = Some n →
           ∃ n', nodes st' !! q = Some n'
                 ∧ _metadata n' = _metadata n
                 ∧ (q ≠ s → _root n' = _root n).

(** In store [cur], instance [m'] stands for the bundle that was instance [m]
    in store [base]: the same instance when bundles are transferred, an
    instance created after [base] with the same contents when they are copied. *)
Definition merged_as (copy : bool) (base cur : State) (m m' : mref) : Prop :=
  metadatas cur !! m' = metadatas base !! m
  ∧ if copy then (List.length (metadatas base) ≤ m')%nat else m' = m.

(** The state of a metadata loop of [graft] once the keys [processed] are
    done: [d0] is the old root's dictionary and [base] the store when the
    loop starts. *)
Record merge_invariant (copy : bool) (base : State) (oldr t tr : ref)
    (d0 : dict mref) (processed : list string) (cur : State) : Prop := {
  mi_target : ∃ tn, nodes cur !! t = Some tn ∧ _root tn = Some tr;
  mi_store : ∃ extra, metadatas cur = metadatas base ++ extra
                      ∧ (copy = false → extra = []);
  mi_old : ∃ on, nodes cur !! oldr = Some on
                 ∧ ∀ k m, dict_get k d0 = Some m →
                          ∃ m', dict_get k (_metadata on) = Some m'
                                ∧ metadatas cur !! m' = metadatas base !! m
                                ∧ (copy = false → m' = m);
  mi_new : ∃ trn, nodes cur !! tr = Some trn
                  ∧ ∀ k m, k ∈ processed → dict_get k d0 = Some m →
                           ∃ m', dict_get k (_metadata trn) = Some m'
                                 ∧ merged_as copy base cur m m'
}.

(** Group [grp] exists and carries exactly the attributes [A]. *)
Definition attrs_kept (grp : gref) (A : dict pyval) (st : State) : Prop :=
  ∃ o, groups st !! grp = Some o ∧ g_attrs o = A.

(** ** Scenarios *)

(** [R = Root('R'); a = Node('a'); R.tree(a); x = Node('x'); a.tree(x);
    y = Node('y'); x.tree(y); S = Root('S')]. *)
Definition two_trees : M (ref * ref * ref * ref * ref) :=
  let! R := Root__init__ (Some "R") in
  let! a := Node (Some "a") in
  add_to_tree R a >>
  let! x := Node (Some "x") in
  add_to_tree a x >>
  let! y := Node (Some "y") in
  add_to_tree x y >>
  let! S0 := Root__init__ (Some "S") in
  ret (R, a, x, y, S0).

(** [R = Root('R'); x = Node('x'); R.tree(x); y = Node('y'); S = Root('S')]:
    the example of the specification. *)
Definition spec_example : M (ref * ref * ref * ref) :=
  let! R := Root__init__ (Some "R") in
  let! x := Node (Some "x") in
  add_to_tree R x >>
  let! y := Node (Some "y") in
  let! S0 := Root__init__ (Some "S") in
  ret (R, x, y, S0).

(** The first scenario with two bundles on [R]:
    [R.metadata = Metadata('md1'); R.metadata = Metadata('md2')]. *)
Definition two_trees_with_bundles : M (ref * ref * ref * ref * ref) :=
  let! refs := two_trees in
  let R := fst (fst (fst (fst refs))) in
  let! md1 := Metadata.__init__ "md1" [("voltage", PInt 300)] in
  metadata_setter R md1 >>
  let! md2 := Metadata.__init__ "md2" [] in
  metadata_setter R md2 >>
  ret refs.

(** The example of the specification with a bundle on [R]:
    [R.metadata = Metadata('md1')]. *)
Definition spec_example_with_bundle : M (ref * ref * ref * ref) :=
  let! refs := spec_example in
  let R := fst (fst (fst refs)) in
  let! md1 := Metadata.__init__ "md1" [("voltage", PInt 300)] in
  metadata_setter R md1 >>
  ret refs.

(** The stores the two scenarios end in. *)
Definition two_trees_state : State := Eval vm_compute in snd (two_trees empty_state).
Definition spec_example_state : State := Eval vm_compute in snd (spec_example empty_state).

(** The store the example with a bundle ends in. *)
Definition spec_bundle_state : State :=
  Eval vm_compute in snd (spec_example_with_bundle empty_state).

(** [x.graft(S)] in the first scenario: [x] is node 2 and [S] is node 4. *)
Definition grafted_state : State :=
  Eval vm_compute in snd (graft 2 (PNode 4) (PBool true) two_trees_state).

(** The store the scenario with bundles ends in. *)
Definition bundles_state : State :=
  Eval vm_compute in snd (two_trees_with_bundles empty_state).

(** [x.graft(S, True)] in the scenario with bundles. *)
Definition transferred_state : State :=
  Eval vm_compute in snd (graft 2 (PNode 4) (PBool true) bundles_state).

(** [x.graft(S, 'copy')] in the scenario with bundles. *)
Definition copied_state : State :=
  Eval vm_compute in snd (graft 2 (PNode 4) (PStr "copy") bundles_state).

(** The scenario with bundles and a file holding one empty group. *)
Definition bundles_and_file : State :=
  Eval vm_compute in set_groups (λ _, [mkGroup [] []]) bundles_state.

(** A file holding one empty group, and a new [Root('R')]. *)
Definition root_and_file : State :=
  Eval vm_compute in
    set_groups (λ _, [mkGroup [] []]) (snd (Root__init__ (Some "R") empty_state)).

(** The dictionaries that [**kwargs] can be: Python collects in it the
    keywords of the call that are no parameter of the method, each once;
    [arg=x] is the argument [arg], and [self=x] is refused. *)
Definition collected (kwargs : dict pyval) : Prop :=
  NoDup (dict_keys kwargs)
  ∧ ("self" ∉ dict_keys kwargs) ∧ ("arg" ∉ dict_keys kwargs).

(** Some keyword of the call is none of the five. *)
Definition unrecognized (kwargs : dict pyval) : Prop :=
  ∃ k, k ∈ dict_keys kwargs ∧ k ∉ tree_keywords.

(** What the specification asks of one call of [tree]: a call that asks for
    more than one operation, or names a keyword that is none of the five, is
    refused with an assertion and leaves the store as it was. *)
Definition tree_refuses (fuel : nat) (st : State) (self : ref)
    (arg : pyval) (kwargs : dict pyval) : Prop :=
  (2 ≤ requested arg kwargs)%nat ∨ unrecognized kwargs →
  ∃ msg, tree fuel self arg kwargs st = (Err (AssertionError msg), st).

(** A path without its leading '/' separators. *)
Fixpoint strip_leading_slashes (x : string) : string :=
  match x with
  | EmptyString => EmptyString
  | String c x' => if Ascii.eqb c "/" then strip_leading_slashes x' else x
  end.

(** What the specification asks of a path that resolves to zero segments
    after stripping leading '/' separators: the "invalid slice" exception,
    the store being as it was. *)
Definition zero_segments_refused (t : TreeObj) (x : string) (st : State) : Prop :=
  strip_leading_slashes x = "" →
  Tree.__getitem__ t x st = (Err (Exception Tree.invalid_slice_msg), st).

(** A name without a '/' in it. *)
Fixpoint no_slash (s : string) : bool :=
  match s with
  | EmptyString => true
  | String c s' => negb (Ascii.eqb c "/") && no_slash s'
  end.

(** ** Vocabulary of the further properties *)

(** A path segment that [split] returns whole and [__getitem__] keeps: not
    empty and without a '/'. *)
Definition clean_segment (k : string) : Prop := k ≠ "" ∧ no_slash k = true.

(** A store as the constructors and [add_to_tree] build it, whatever the
    names are and whichever calls fail. *)
Record well_formed (st : State) : Prop := {
  wf_root_self :
    ∀ r n, nodes st !! r = Some n → __class__ n = Root_class → _root n = Some r;
  wf_roots : roots_consistent st;
  wf_paths : paths_consistent st;
  wf_unrooted_leaf :
    ∀ q n, nodes st !! q = Some n → _root n = None → _dict (_tree n) = [];
  wf_closed :
    ∀ q n (k : option string) c,
      nodes st !! q = Some n → dict_get k (_dict (_tree n)) = Some c →
      c < List.length (nodes st);
  wf_keys :
    ∀ q n (k : option string) c cn,
      nodes st !! q = Some n → dict_get k (_dict (_tree n)) = Some c →
      nodes st !! c = Some cn → name cn = k
}.

(** The calls that build trees without moving anything: [Root(name)],
    [Node(name)] and [parent.add_to_tree(child)], a name being [None] or a
    [str]. *)
Inductive build_op :=
| Build_Root (name : option string)
| Build_Node (name : option string)
| Build_add (parent child : ref).

Definition run_build (op : build_op) : M unit :=
  match op with
  | Build_Root nm => Root__init__ nm >> ret tt
  | Build_Node nm => Node nm >> ret tt
  | Build_add p c => add_to_tree p c
  end.

(** A program that makes the calls one after the other and goes on after a
    call that raised. *)
Fixpoint run_builds (ops : list build_op) (st : State) : State :=
  match ops with
  | [] => st
  | op :: ops' => run_builds ops' (snd (run_build op st))
  end.

(** The nodes once [p.add_to_tree(n)] has given [n] the root of [p] and
    filed it in the Tree of [p] under its name; [path] is the path [n] ends
    with: the path of [p] extended by the name when the call runs through,
    the path [n] had when the last statement raises. *)
Definition attached (p n : ref) (pn nn : NodeObj) (path : option string)
    (h : list NodeObj) : list NodeObj :=
  <[n := with_treepath path (with_root (_root pn) nn)]>
    (<[p := with_tree (mkTree (dict_set (name nn) n (_dict (_tree pn)))) pn]> h).

(** Stores with the same trees: every node of the first has, in the second,
    the class, name, Tree, path and root it had; only bundles may differ. *)
Definition same_trees (st st' : State) : Prop :=
  List.length (nodes st') = List.length (nodes st)
  ∧ ∀ q n, nodes st !! q = Some n →
      ∃ n', nodes st' !! q = Some n'
            ∧ __class__ n' = __class__ n ∧ name n' = name n
            ∧ _tree n' = _tree n ∧ _treepath n' = _treepath n
            ∧ _root n' = _root n.

(** The store once [graft] has taken [s] out of the Tree of [u] and unrooted
    it: [del(upstream_node._tree[this_node]); self._root = None]. *)
Definition detached (s u : ref) (sn un : NodeObj) (d' : list (option string * ref))
    (st : State) : State :=
  set_nodes (λ h : list NodeObj, <[s := with_root None sn]> h)
    (set_nodes (λ h : list NodeObj, <[u := with_tree (mkTree d') un]> h) st).

(** The first scenario as a sequence of building calls. *)
Definition two_trees_ops : list build_op :=
  [Build_Root (Some "R"); Build_Node (Some "a"); Build_add 0 1;
   Build_Node (Some "x"); Build_add 1 2; Build_Node (Some "y"); Build_add 2 3;
   Build_Root (Some "S")].

(** The second store differs from the first in what has been printed at
    most, and in the marks of the shared [linelevels] list. *)
Definition only_output (st st' : State) : Prop :=
  nodes st' = nodes st ∧ metadatas st' = metadatas st ∧ groups st' = groups st
  ∧ ∃ out, stdout st' = stdout st ++ out.

(** A computation that does nothing but print, whatever its outcome. *)
Definition prints_only {A} (m : M A) : Prop :=
  ∀ st res st', m st = (res, st') → only_output st st'.

(** [R = Root('R'); n = Node('a/b'); R.tree(n)]: a child whose name holds
    a '/'. *)
Definition slash_name_state : State :=
  Eval vm_compute in
    snd ((let! R := Root__init__ (Some "R") in
          let! n := Node (Some "a/b") in
          add_to_tree R n) empty_state).

(** The state of the loop of [to_h5] over the bundles of node [n] once the
    keys [processed] are done, [st0] being the store [to_h5] started in: no
    node has changed, the bundles under the processed keys exist, and
    every Metadata instance has its contents; an instance filed under no
    processed key is as it was, and an instance filed under one processed
    key only has that key for name. *)
Definition bundles_renamed (n : NodeObj) (st0 : State) (processed : list string)
    (cur : State) : Prop :=
  nodes cur = nodes st0
  ∧ List.length (metadatas cur) = List.length (metadatas st0)
  ∧ (∀ k m, k ∈ processed → dict_get k (_metadata n) = Some m →
       m < List.length (metadatas st0))
  ∧ ∀ m o, metadatas st0 !! m = Some o →
      ∃ o', metadatas cur !! m = Some o' ∧ md_params o' = md_params o
            ∧ ((∀ k, k ∈ processed → dict_get k (_metadata n) ≠ Some m) → o' = o)
            ∧ (∀ k, k ∈ processed → dict_get k (_metadata n) = Some m →
                 (∀ k', dict_get k' (_metadata n) = Some m → k' = k) →
                 md_name o' = k).

(** The scenario with bundles and a file, the first bundle renamed after it
    was filed: [md1.name = 'other']. *)
Definition renamed_bundle_file : State :=
  Eval vm_compute in snd (Metadata.set_name 0 "other" bundles_and_file).

(** ** py4DSTEM.process.rdf.amorph: the loops over the scan positions *)

Module amorph.

(** [[f(x) for x in l]] where [f] may raise: the first error ends it. *)
Fixpoint collect {A} (l : list (Res A)) : Res (list A) :=
  match l with
  | [] => Ok []
  | Err e :: _ => Err e
  | Ok a :: l' => match collect l' with
                  | Ok r => Ok (a :: r)
                  | Err e => Err e
                  end
  end.

Section Stack.

(** The numerics are left open: a diffraction pattern
    [datacube[i, j, :, :]], a NumPy float, [corr2d] with the mask of the
    call, and [np.mean] of a list of floats. *)
Context {Pattern Value : Type}.
Variable corr2d : Pattern → Pattern → Value.
Variable mean : list Value → Value.

(** A 4-D array by its first two axes: their lengths, and the pattern at
    each position. *)
Record Datacube := mkDatacube {
  shape0 : nat;
  shape1 : nat;
  data : nat → nat → Pattern
}.

(** [datacube[i, j, :, :]] for indices that are not negative. *)
Definition getitem (dc : Datacube) (i j : nat) : Res Pattern :=
  if (i <? shape0 dc)%nat && (j <? shape1 dc)%nat then Ok (data dc i j)
  else Err IndexError.

(** [corr2d(datacube[c], datacube[p], mask=mask)]. *)
Definition corr_at (dc : Datacube) (c p : nat * nat) : Res Value :=
  match getitem dc (fst c) (snd c) with
  | Err e => Err e
  | Ok a => match getitem dc (fst p) (snd p) with
            | Err e => Err e
            | Ok b => Ok (corr2d a b)
            end
  end.

(** The positions that cell [(i, j)] correlates [datacube[i + 1, j + 1]]
    with, in the order of the eight calls. *)
Definition partners (i j : nat) : list (nat * nat) :=
  [(i, j); (i, j + 1); (i, j + 2); (i + 1, j); (i + 2, j + 2);
   (i + 2, j); (i + 2, j + 1); (i + 2, j + 2)].

(** The value assigned to [corr_result[i, j]]. *)
Definition cell (dc : Datacube) (i j : nat) : Res Value :=
  match collect (map (corr_at dc (i + 1, j + 1)) (partners i j)) with
  | Ok vs => Ok (mean vs)
  | Err e => Err e
  end.

(** [compute_nn_corr(datacube, mask)]: [corr_result] is the view
    [[1:-1, 1:-1]] of an array of the shape of the scan, every cell of
    which the two loops assign. *)
Definition compute_nn_corr (dc : Datacube) : Res (list (list Value)) :=
  collect (map (λ i, collect (map (cell dc i) (seq 0 (shape1 dc - 2))))
               (seq 0 (shape0 dc - 2))).

End Stack.

Section Fit.

(** Left open: the patterns, the coefficients, a 2-D mask, and
    [fit_double_sided_gaussian] of [ellipticalCoords], which is not in
    src/. *)
Context {Pattern Coefs Mask2 : Type}.
Variable fit_double_sided_gaussian : Pattern → Coefs → Mask2 → Coefs.
Variable zeros : Coefs.

(** The [datacube] argument: [data] by its first two axes, and the
    attributes [R_Nx] and [R_Ny]. *)
Record DataCube := mkDataCube {
  R_Nx : nat;
  R_Ny : nat;
  cube : Datacube (Pattern := Pattern)
}.

(** A mask array: [len(mask.shape)], the array taken as a 2-D mask, and
    [mask[i, j, :, :]]. *)
Record MaskArray := mkMaskArray {
  ndim : nat;
  whole : Mask2;
  item : nat → nat → Res Mask2
}.

(** The [if]/[elif] that assigns [mask_current]; the argument [None] stands
    for the default [mask=None], the result [None] for a name that neither
    branch has bound. *)
Definition mask_current (mask : option MaskArray) (i j : nat) : Res (option Mask2) :=
  match mask with
  | None => Err AttributeError          (* None.shape *)
  | Some m =>
      if Nat.eqb (ndim m) 2 then Ok (Some (whole m))
      else if Nat.eqb (ndim m) 4
           then match item m i j with
                | Ok mc => Ok (Some mc)
                | Err e => Err e
                end
           else Ok None
  end.

(** One pass of the inner loop body, up to the coefficients for [(i, j)].
    The call evaluates [datacube.data[i, j, :, :]] before it reads
    [mask_current], whose use while unbound raises UnboundLocalError, a
    NameError. *)
Definition fit_at (datacube : DataCube) (init_coefs : Coefs)
    (mask : option MaskArray) (i j : nat) : Res Coefs :=
  match mask_current mask i j with
  | Err e => Err e
  | Ok mc =>
      match getitem (cube datacube) i j with
      | Err e => Err e
      | Ok p =>
          match mc with
          | None => Err (NameError "mask_current")
          | Some m => Ok (fit_double_sided_gaussian p init_coefs m)
          end
      end
  end.

(** [coefs_array] after the loops, row by row: the positions the loops
    reach hold their fit, the others the zeros the array started with. *)
Definition fit_stack (datacube : DataCube) (init_coefs : Coefs)
    (mask : option MaskArray) : Res (list (list Coefs)) :=
  match collect (map (λ i, collect (map (fit_at datacube init_coefs mask i)
                                        (seq 0 (R_Ny datacube))))
                     (seq 0 (R_Nx datacube))) with
  | Err e => Err e
  | Ok fits =>
      Ok (map (λ i, map (λ j, default zeros (fits !! i ≫= (.!! j)))
                        (seq 0 (shape1 (cube datacube))))
              (seq 0 (shape0 (cube datacube))))
  end.

End Fit.

End amorph.

(** ** Keys *)

#[export] Instance str_key_laws : KeyLaws string.
Proof. exact String.eqb_eq. Qed.

#[export] Instance optional_str_key_laws : KeyLaws (option string).
Proof.
  intros [x|] [y|]; cbn; try (split; [discriminate|congruence]).
  - change (String.eqb x y = true ↔ Some x = Some y).
    rewrite String.eqb_eq. split; congruence.
  - done.
Qed.

Lemma key_eqb_refl {K} `{KeyLaws K} (k : K) : key_eqb k k = true.
Proof. by apply key_eqb_eq. Qed.

Lemma key_eqb_neq {K} `{KeyLaws K} (a b : K) : key_eqb a b = false ↔ a ≠ b.
Proof.
  destruct (key_eqb a b) eqn:E.
  - apply key_eqb_eq in E. split; [discriminate|done].
  - split; [|done]. intros _ Heq. apply key_eqb_eq in Heq. congruence.
Qed.

(** ** Running computations *)

Lemma run_bind {A B} (m : M A) (k : A → M B) st :
  bind m k st = match m st with
                | (Ok a, st') => k a st'
                | (Err e, st') => (Err e, st')
                end.
Proof. reflexivity. Qed.

Lemma bind_Ok_inv {A B} (m : M A) (k : A → M B) st b st' :
  bind m k st = (Ok b, st') →
  ∃ a st1, m st = (Ok a, st1) ∧ k a st1 = (Ok b, st').
Proof.
  rewrite run_bind. destruct (m st) as [[a|e] st1]; [eauto | discriminate].
Qed.

Lemma get_node_Some st r n :
  nodes st !! r = Some n → get_node r st = (Ok n, st).
Proof. intros H. unfold get_node. by rewrite H. Qed.

Lemma get_node_inv st r n st' :
  get_node r st = (Ok n, st') → st' = st ∧ nodes st !! r = Some n.
Proof.
  unfold get_node. destruct (nodes st !! r); intros H; inversion H; auto.
Qed.

Lemma assert_inv cond msg st u st' :
  assert cond msg st = (Ok u, st') → cond = true ∧ st' = st.
Proof. destruct cond; unfold assert, ret, raise; intros H; inversion H; auto. Qed.

Lemma modify_node_inv r f st u st' :
  modify_node r f st = (Ok u, st') →
  ∃ n, nodes st !! r = Some n ∧
       st' = set_nodes (λ h : list NodeObj, <[r := f n]> h) st.
Proof.
  unfold modify_node. destruct (nodes st !! r) as [n|]; intros H; inversion H; eauto.
Qed.

Lemma root_inv r st o st' :
  root r st = (Ok o, st') → st' = st ∧ ∃ n, nodes st !! r = Some n ∧ o = _root n.
Proof.
  unfold root. intros (n & ? & [-> Hn]%get_node_inv & H)%bind_Ok_inv.
  inversion H; subst. eauto.
Qed.

Lemma metadata_inv r st d st' :
  metadata (Some r) st = (Ok d, st') →
  st' = st ∧ ∃ n, nodes st !! r = Some n ∧ d = _metadata n.
Proof.
  unfold metadata. intros (n & ? & [-> Hn]%get_node_inv & H)%bind_Ok_inv.
  inversion H; subst. eauto.
Qed.

Lemma get_metadata_inv m st o st' :
  get_metadata m st = (Ok o, st') → st' = st ∧ metadatas st !! m = Some o.
Proof.
  unfold get_metadata. destruct (metadatas st !! m); intros H; inversion H; auto.
Qed.

(** ** Retrieval *)

(** C10. A node whose [root] is None raises on every non-empty path that
    begins with '/': [get_from_tree] takes the root-relative branch and reads
    [_tree] of None, whatever the node's own Tree holds. *)
Theorem get_from_tree_unrooted_absolute st (n : ref) (nd : NodeObj) (rest : string) :
  nodes st !! n = Some nd →
  _root nd = None →
  get_from_tree n (String "/" rest) st = (Err AttributeError, st).
Proof.
  intros Hn Hroot. unfold get_from_tree. simpl.
  rewrite run_bind, (get_node_Some _ _ _ Hn), Hroot. reflexivity.
Qed.

Lemma get_from_tree_unrooted_absolute_witness :
  ∃ st, get_from_tree 0 "/a" st = (Err AttributeError, st).
Proof.
  exists (snd (Node (Some "n") empty_state)).
  apply (get_from_tree_unrooted_absolute _ 0
           (mkNode Node_class (Some "n") Tree.__init__ None None [] None) "a");
    reflexivity.
Defined.

(** ** Adding a child *)

(** C7. [add_to_tree] on a rooted [p] with an already rooted [n] raises the
    assertion that points to graft, and the store afterwards is the store
    before: no child is inserted and no [_root] or [_treepath] is touched. *)
Theorem add_to_tree_rooted_argument st (p n : ref) (pn nn : NodeObj) :
  nodes st !! p = Some pn → is_some (_root pn) = true →
  nodes st !! n = Some nn → is_some (_root nn) = true →
  add_to_tree p n st = (Err (AssertionError add_rooted_msg), st).
Proof.
  intros Hp Hproot Hn Hnroot. unfold add_to_tree.
  rewrite run_bind, (get_node_Some _ _ _ Hp).
  rewrite run_bind, Hproot. simpl.
  rewrite run_bind, (get_node_Some _ _ _ Hn).
  rewrite run_bind.
  destruct (_root nn); [reflexivity | discriminate].
Qed.

Lemma add_to_tree_rooted_argument_witness :
  ∃ st, add_to_tree 0 1 st = (Err (AssertionError add_rooted_msg), st).
Proof.
  exists (snd ((Root__init__ (Some "R") >> Root__init__ (Some "S")) empty_state)).
  eapply add_to_tree_rooted_argument; reflexivity.
Defined.

(** ** Path lookup in a Tree *)

Lemma getitem_from_list_invalid st (t : TreeObj) :
  Tree._getitem_from_list t [] st = (Err (Exception Tree.invalid_slice_msg), st).
Proof. reflexivity. Qed.

Lemma dict_mem_get {K V} `{Key K} (k : K) (d : list (K * V)) :
  dict_mem k d = is_some (dict_get k d).
Proof. unfold dict_mem. by destruct (dict_get k d). Qed.

Lemma getitem_from_list_missing st (pre : list string) :
  ∀ (t t' : TreeObj) k post,
    descend (nodes st) t pre = Some t' →
    dict_get (Some k) (_dict t') = None →
    Tree._getitem_from_list t (pre ++ k :: post) st
    = (Err (AssertionError (Tree.not_found_msg k)), st).
Proof.
  induction pre as [|s pre IH]; intros t t' k post Hd Hk; simpl in *.
  - inversion Hd; subst t'.
    rewrite run_bind, dict_mem_get, Hk. reflexivity.
  - destruct (dict_get (Some s) (_dict t)) as [r|] eqn:Hs; [|discriminate].
    destruct (nodes st !! r) as [n|] eqn:Hr; [|discriminate].
    rewrite run_bind, dict_mem_get, Hs. simpl.
    destruct (pre ++ k :: post) eqn:Happ.
    + by destruct pre.
    + rewrite <- Happ, run_bind, (get_node_Some _ _ _ Hr). eauto.
Qed.

Lemma split_cons sep s : ∃ w ws, split sep s = w :: ws.
Proof.
  destruct s as [|c s]; simpl; [eauto|].
  destruct (Ascii.eqb c sep); [eauto|].
  destruct (split sep s); eauto.
Qed.

Lemma split_first_empty sep c s ws :
  split sep (String c s) = "" :: ws → c = sep ∧ split sep s = ws.
Proof.
  simpl. destruct (Ascii.eqb c sep) eqn:E.
  - apply Ascii.eqb_eq in E. intros H. by inversion H.
  - destruct (split sep s); discriminate.
Qed.

Lemma split_single_empty sep s : split sep s = [""] → s = "".
Proof.
  destruct s as [|c s]; [done|]. intros H.
  apply split_first_empty in H as [_ H].
  destruct (split_cons sep s) as (w & ws & E). congruence.
Qed.

Lemma no_segment_inv x :
  Tree.remove_two_empty (split "/" x) = [] → x = "" ∨ x = "/".
Proof.
  unfold Tree.remove_two_empty.
  destruct (split_cons "/" x) as (w & ws & E). rewrite E. simpl.
  destruct (String.eqb w "") eqn:Ew.
  - apply String.eqb_eq in Ew. subst w.
    destruct ws as [|w2 ws]; simpl.
    + intros _. left. by apply (split_single_empty "/").
    + destruct (String.eqb w2 "") eqn:Ew2.
      * apply String.eqb_eq in Ew2. subst w2. intros ->.
        destruct x as [|c x]; [discriminate|].
        apply split_first_empty in E as [-> E].
        apply split_single_empty in E. subst x. by right.
      * destruct (list_remove "" ws); discriminate.
  - destruct (list_remove "" ws) as [l1|]; [|discriminate].
    simpl. rewrite Ew. destruct (list_remove "" l1); discriminate.
Qed.

Lemma getitem_from_list_Exception l : ∀ (t : TreeObj) st m st',
  Tree._getitem_from_list t l st = (Err (Exception m), st') → l = [].
Proof.
  induction l as [|k l IH]; intros t st m st'; [done|]. simpl.
  rewrite run_bind. unfold assert.
  destruct (dict_mem (Some k) (_dict t)); [|discriminate]. cbn [ret].
  destruct (dict_get (Some k) (_dict t)) as [r|]; [|discriminate].
  destruct l as [|k' l]; [discriminate|].
  rewrite run_bind. unfold get_node at 1.
  destruct (nodes st !! r) as [n|]; [|discriminate].
  intros H. by apply IH in H.
Qed.

(** C9, as the code has it.  [Tree.__getitem__] raises the "not found"
    assertion naming the segment [k] when [k] is the first segment missing
    from the mapping that the segments before it lead to, and raises a
    different exception, the "invalid slice" one, when no segment is left
    once the first two empty segments of the split path are removed.  That
    happens for the paths [""] and ["/"] and for no other: these two are the
    only paths that raise the "invalid slice" exception. *)
Theorem Tree_getitem_errors st (t : TreeObj) (x : string) :
  (∀ pre k post t',
      Tree.remove_two_empty (split "/" x) = pre ++ k :: post →
      descend (nodes st) t pre = Some t' →
      dict_get (Some k) (_dict t') = None →
      Tree.__getitem__ t x st = (Err (AssertionError (Tree.not_found_msg k)), st))
  ∧ (Tree.remove_two_empty (split "/" x) = [] →
      Tree.__getitem__ t x st = (Err (Exception Tree.invalid_slice_msg), st))
  ∧ (Tree.remove_two_empty (split "/" x) = [] ↔ x = "" ∨ x = "/")
  ∧ (∀ k, Exception Tree.invalid_slice_msg ≠ AssertionError (Tree.not_found_msg k))
  ∧ ((∃ m st', Tree.__getitem__ t x st = (Err (Exception m), st'))
     ↔ x = "" ∨ x = "/").
Proof.
  unfold Tree.__getitem__. repeat split.
  - intros pre k post t' Hsegs Hd Hk. rewrite Hsegs.
    by apply getitem_from_list_missing with t'.
  - intros ->. apply getitem_from_list_invalid.
  - apply no_segment_inv.
  - by intros [-> | ->].
  - discriminate.
  - intros (m & st' & H). by apply getitem_from_list_Exception, no_segment_inv in H.
  - intros [-> | ->]; by eexists _, _.
Qed.

Lemma Tree_getitem_errors_witness :
  Tree.__getitem__ (mkTree [(Some "a", 0)]) "a/missing/c"
    (snd (Node (Some "a") empty_state))
  = (Err (AssertionError "missing not found in tree - check keys"),
     snd (Node (Some "a") empty_state))
  ∧ Tree.__getitem__ (mkTree [(Some "a", 0)]) "/" empty_state
    = (Err (Exception "invalid slice value to tree"), empty_state).
Proof.
  split.
  - destruct (Tree_getitem_errors (snd (Node (Some "a") empty_state))
                (mkTree [(Some "a", 0)]) "a/missing/c") as (H & _).
    apply (H ["a"] "missing" ["c"] (mkTree [])); reflexivity.
  - destruct (Tree_getitem_errors empty_state (mkTree [(Some "a", 0)]) "/") as (_ & H & _).
    apply H. reflexivity.
Defined.

(** C9 as the specification words it fails: the path ['//'] is nothing but
    '/' separators, yet [split] makes three empty segments of it, one is
    left after the two removals, and it is looked up as a key: the "not
    found" assertion naming the empty string, not the "invalid slice"
    exception. *)
Lemma Tree_getitem_slashes_only :
  strip_leading_slashes "//" = ""
  ∧ Tree.__getitem__ (mkTree []) "//" empty_state
    = (Err (AssertionError (Tree.not_found_msg "")), empty_state)
  ∧ ¬ zero_segments_refused (mkTree []) "//" empty_state.
Proof.
  split; [reflexivity|]. split; [reflexivity|].
  intros H. specialize (H eq_refl). discriminate H.
Qed.

(** ** The dispatch entry point *)

Lemma tree_two_keywords fuel st self kv1 kv2 (rest : dict pyval) :
  tree fuel self PNone (kv1 :: kv2 :: rest) st
  = (Err (AssertionError ("kwargs accepts at most 1 argument; recieved "
                          +:+ str_of_nat (List.length (kv1 :: kv2 :: rest)))), st).
Proof. reflexivity. Qed.

Lemma tree_unknown_keyword fuel st self k v :
  existsb (String.eqb k) tree_keywords = false →
  tree fuel self PNone [(k, v)] st
  = (Err (AssertionError ("invalid keyword passed to .tree(), " +:+ k)), st).
Proof.
  intros Hk. unfold tree, bind, assert.
  cbn [length Nat.eqb list_pop ret]. rewrite Hk. reflexivity.
Qed.

Lemma tree_keyword_not_in k :
  k ∉ tree_keywords → existsb (String.eqb k) tree_keywords = false.
Proof.
  intros Hk. apply not_true_is_false. intros H.
  apply existsb_exists in H as (k' & Hin & E).
  apply String.eqb_eq in E. subst k'. apply Hk. by apply list_elem_of_In.
Qed.

(** C6, at an input where the code breaks it.  [R.tree(False, cut=True)]
    asks for two operations, show and cut.  The branch of the positional
    argument returns before the keywords are counted: the call shows the
    tree of [R], returns None and makes no new Root, where the
    specification, like the assertion on the number of keywords further
    down, has it refused. *)
Theorem tree_positional_with_keyword_runs :
  requested (PBool false) [("cut", PBool true)] = 2
  ∧ (∃ st', tree 8 0 (PBool false) [("cut", PBool true)]
              (snd (Root__init__ (Some "R") empty_state)) = (Ok PNone, st')
            ∧ nodes st' = nodes (snd (Root__init__ (Some "R") empty_state))
            ∧ stdout st' = ["/"])
  ∧ ¬ tree_refuses 8 (snd (Root__init__ (Some "R") empty_state)) 0
        (PBool false) [("cut", PBool true)].
Proof.
  split; [reflexivity|]. split.
  - eexists. split; [vm_compute; reflexivity|]. by split.
  - intros H. destruct H as [msg Hmsg].
    + left. unfold requested. simpl. lia.
    + vm_compute in Hmsg. discriminate Hmsg.
Qed.

(** ** Grafting a direct child of the root *)

Lemma split_no_slash s : no_slash s = true → split "/" s = [s].
Proof.
  induction s as [|c s IH]; simpl; [done|].
  intros [Hc Hs]%andb_prop. apply negb_true_iff in Hc. rewrite Hc.
  by rewrite (IH Hs).
Qed.

Lemma split_leading_slash s : split "/" (String "/" s) = "" :: split "/" s.
Proof. reflexivity. Qed.

(** The path of a Root and the path of a node directly under a Root leave
    [graft] with the empty string for the parent's address. *)
Lemma graft_shallow st (s t : ref) (sn tn : NodeObj) (p : string) (m : pyval) :
  nodes st !! s = Some sn → is_some (_root sn) = true →
  _treepath sn = Some p →
  p = "" ∨ (∃ nm, p = String "/" nm ∧ no_slash nm = true) →
  nodes st !! t = Some tn → is_some (_root tn) = true →
  graft s (PNode t) m st = (Err IndexError, st).
Proof.
  intros Hs Hsr Hp Hshape Ht Htr.
  unfold graft, root, getattr_root, root.
  unfold bind, ret. rewrite !(get_node_Some _ _ _ Hs). rewrite Hsr. cbn [assert ret].
  rewrite !(get_node_Some _ _ _ Ht), Htr. cbn [assert ret].
  rewrite !(get_node_Some _ _ _ Hs), Hp.
  destruct Hshape as [->|(nm & -> & Hnm)]; [reflexivity|].
  rewrite split_leading_slash, (split_no_slash _ Hnm).
  reflexivity.
Qed.

(** C4, what the code does instead.  A node attached directly under its Root
    has the path ['/' + name]; [graft] cuts the last segment off, is left
    with the empty string for the parent, and [get_from_tree] reads the first
    character of it: the graft raises IndexError before it detaches
    anything, for every target and every metadata mode. *)
Theorem graft_direct_child_raises st (s t : ref) (sn tn : NodeObj)
    (nm : string) (m : pyval) :
  nodes st !! s = Some sn → is_some (_root sn) = true →
  _treepath sn = Some ("/" +:+ nm) → no_slash nm = true →
  nodes st !! t = Some tn → is_some (_root tn) = true →
  graft s (PNode t) m st = (Err IndexError, st).
Proof.
  intros Hs Hsr Hp Hnm Ht Htr.
  unfold graft, root, getattr_root, root.
  unfold bind, ret. rewrite !(get_node_Some _ _ _ Hs). rewrite Hsr. cbn [assert ret].
  rewrite !(get_node_Some _ _ _ Ht), Htr. cbn [assert ret].
  rewrite !(get_node_Some _ _ _ Hs), Hp.
  change ("/" +:+ nm) with (String "/" nm).
  rewrite split_leading_slash, (split_no_slash _ Hnm).
  reflexivity.
Qed.

Lemma spec_example_runs :
  spec_example empty_state = (Ok (0, 1, 2, 3), spec_example_state).
Proof. vm_compute. reflexivity. Qed.

(** The example of the specification: [x] sits directly under Root "R" and
    is grafted onto the separate Root "S" with mode False.  The call raises
    and [x] stays where it was. *)
Lemma graft_direct_child_raises_witness :
  spec_example empty_state = (Ok (0, 1, 2, 3), spec_example_state)
  ∧ graft 1 (PNode 3) (PBool false) spec_example_state
    = (Err IndexError, spec_example_state)
  ∧ address (nodes spec_example_state) 0 ["x"] 1
  ∧ ¬ reachable (nodes spec_example_state) 3 1.
Proof.
  split; [exact spec_example_runs|]. split; [|split].
  - eapply (graft_direct_child_raises _ 1 3 _ _ "x"); reflexivity.
  - eapply address_down; [reflexivity | reflexivity | apply address_here].
  - assert (Hno : ∀ c, ¬ child_of (nodes spec_example_state) 3 c).
    { intros c (n & k & Hn & Hk). inversion Hn; subst n. discriminate Hk. }
    intros Hr. remember 1 as c0 eqn:Ec. clear Ec.
    induction Hr as [c Hc | m c Hr IH Hc]; [by apply (Hno c) | exact IH].
Defined.

(** ** Stale roots and paths below a grafted node *)

Lemma dict_get_single {K V} `{KeyLaws K} (k k0 : K) (v c : V) :
  dict_get k [(k0, v)] = Some c → k = k0 ∧ c = v.
Proof.
  simpl. destruct (key_eqb k k0) eqn:E; [|discriminate].
  apply key_eqb_eq in E. intros Hc. inversion Hc. auto.
Qed.

Ltac child_cases Hn Hk :=
  vm_compute in Hn; inversion Hn; subst;
  first [ discriminate Hk
        | apply dict_get_single in Hk as [-> ->] ].

Lemma two_trees_children p c :
  child_of (nodes two_trees_state) p c →
  (p = 0 ∧ c = 1) ∨ (p = 1 ∧ c = 2) ∨ (p = 2 ∧ c = 3).
Proof.
  intros (n & k & Hn & Hk).
  do 5 (destruct p as [|p]; [child_cases Hn Hk; auto |]).
  discriminate Hn.
Qed.

Ltac root_cases r Hn Hcls :=
  do 5 (destruct r as [|r];
        [first [ by auto
               | vm_compute in Hn; inversion Hn; subst; discriminate Hcls ]|]);
  discriminate Hn.

Lemma two_trees_roots_consistent : roots_consistent two_trees_state.
Proof.
  intros r c cn (n & Hn & Hcls) Hreach Hc.
  assert (Hr : r ≠ 4 ∧ (c = 1 ∨ c = 2 ∨ c = 3)).
  { clear Hc Hn Hcls. induction Hreach as [c Hch | m c Hreach IH Hch];
      apply two_trees_children in Hch;
      destruct Hch as [[? ?] | [[? ?] | [? ?]]]; subst;
      (split; [first [discriminate | apply IH] | auto]). }
  destruct Hr as [Hr4 Hcs].
  assert (r = 0 ∨ r = 4) as [-> | ->]; [root_cases r Hn Hcls | | done].
  destruct Hcs as [-> | [-> | ->]]; vm_compute in Hc; by inversion Hc.
Qed.

Ltac address_step :=
  match goal with
  | H : address _ _ _ _ |- _ =>
      let Hn := fresh "Hn" in
      let Hk := fresh "Hk" in
      inversion H as [| ? ? ? ? ? ? Hn Hk ?]; clear H; subst;
      [ | vm_compute in Hn; inversion Hn; subst; clear Hn;
          first [ discriminate Hk | apply dict_get_single in Hk as [[= ->] ->] ] ]
  end.

Ltac lookup_done Hc := vm_compute in Hc; by inversion Hc.

Lemma two_trees_paths_consistent : paths_consistent two_trees_state.
Proof.
  intros r segs c cn (n & Hn & Hcls) Haddr Hc.
  assert (r = 0 ∨ r = 4) as [-> | ->] by root_cases r Hn Hcls; clear Hn Hcls.
  - address_step; [lookup_done Hc|].
    address_step; [lookup_done Hc|].
    address_step; [lookup_done Hc|].
    address_step; lookup_done Hc.
  - address_step; lookup_done Hc.
Qed.

(** C1, at an input where the code breaks it.  In a tree R/a/x/y that
    satisfies the invariant, [x.graft(S)] succeeds and assigns the new root
    to [x] alone: [y] is then reachable from Root [S] while its [root] is
    still [R]. *)
Theorem graft_leaves_descendant_root :
  two_trees empty_state = (Ok (0, 1, 2, 3, 4), two_trees_state)
  ∧ roots_consistent two_trees_state
  ∧ graft 2 (PNode 4) (PBool true) two_trees_state = (Ok (Some 4), grafted_state)
  ∧ is_Root (nodes grafted_state) 4
  ∧ reachable (nodes grafted_state) 4 3
  ∧ (∃ yn, nodes grafted_state !! 3 = Some yn ∧ _root yn = Some 0)
  ∧ ¬ roots_consistent grafted_state.
Proof.
  assert (Hroot : is_Root (nodes grafted_state) 4) by (eexists; split; reflexivity).
  assert (Hreach : reachable (nodes grafted_state) 4 3).
  { apply reachable_below with 2; [apply reachable_child|].
    - eexists _, (Some "x"); split; reflexivity.
    - eexists _, (Some "y"); split; reflexivity. }
  split; [vm_compute; reflexivity|]. split; [apply two_trees_roots_consistent|].
  split; [vm_compute; reflexivity|]. do 2 (split; [assumption|]).
  split; [eexists; split; reflexivity|].
  intros H. specialize (H 4 3 _ Hroot Hreach eq_refl). discriminate H.
Qed.

(** C2, at an input where the code breaks it.  After the same graft the
    chain of memberships from [S] to [y] is x, y, that is the address
    "/x/y", while the [path] of [y] is still "/a/x/y": only the moved node's
    own path was rewritten.  [graft] itself finds a node's parent through
    that path, so a later [y.graft(R)] looks for [x] under [a] and raises. *)
Theorem graft_leaves_descendant_path :
  two_trees empty_state = (Ok (0, 1, 2, 3, 4), two_trees_state)
  ∧ paths_consistent two_trees_state
  ∧ graft 2 (PNode 4) (PBool true) two_trees_state = (Ok (Some 4), grafted_state)
  ∧ is_Root (nodes grafted_state) 4
  ∧ address (nodes grafted_state) 4 ["x"; "y"] 3
  ∧ path_of ["x"; "y"] = "/x/y"
  ∧ (∃ yn, nodes grafted_state !! 3 = Some yn ∧ _treepath yn = Some "/a/x/y")
  ∧ ¬ paths_consistent grafted_state
  ∧ graft 3 (PNode 0) (PBool true) grafted_state
    = (Err (AssertionError "x not found in tree - check keys"), grafted_state).
Proof.
  assert (Hroot : is_Root (nodes grafted_state) 4) by (eexists; split; reflexivity).
  assert (Haddr : address (nodes grafted_state) 4 ["x"; "y"] 3).
  { do 2 (eapply address_down; [reflexivity | reflexivity |]). apply address_here. }
  split; [vm_compute; reflexivity|]. split; [apply two_trees_paths_consistent|].
  split; [vm_compute; reflexivity|]. do 2 (split; [assumption|]).
  split; [reflexivity|]. split; [eexists; split; reflexivity|].
  split; [|vm_compute; reflexivity].
  intros H. specialize (H 4 _ 3 _ Hroot Haddr eq_refl). discriminate H.
Qed.

(** ** A metadata mode that is not one of the three *)

Lemma getattr_root_inv v st r st' :
  getattr_root v st = (Ok r, st') → st' = st.
Proof.
  destruct v; try discriminate. unfold getattr_root, root.
  intros (n & st1 & Hn & Hr)%bind_Ok_inv.
  apply get_node_inv in Hn as [-> _]. by inversion Hr.
Qed.

Ltac bind_case :=
  match goal with
  | H : bind ?m _ ?st = (Ok _, _) |- bind ?m _ ?st = _ =>
      rewrite run_bind in H; rewrite run_bind;
      destruct (m st) as [[?|?] ?]; [|discriminate H]
  end.

(** C5, what the code does instead.  [graft] checks [merge_metadata] after
    it has detached the node and attached it to the target: a mode that is
    none of True, False and 'copy' raises the assertion in the very store a
    successful graft with mode False ends in. *)
Theorem graft_invalid_mode_moves st (s : ref) (t m : pyval) r st' :
  graft s t (PBool false) st = (Ok r, st') →
  merge_metadata_valid m = false →
  graft s t m st = (Err (AssertionError ""), st').
Proof.
  intros Hok Hm. unfold graft in *.
  do 6 bind_case.
  destruct (_treepath _); [|discriminate Hok].
  destruct (list_pop _) as [[this_node node_list]|]; [|discriminate Hok].
  do 4 bind_case.
  rewrite Hm.
  rewrite run_bind in Hok. simpl in Hok.
  apply getattr_root_inv in Hok as ->. reflexivity.
Qed.

Lemma graft_invalid_mode_moves_witness :
  graft 2 (PNode 4) (PStr "bogus") two_trees_state
  = (Err (AssertionError ""), grafted_state)
  ∧ grafted_state ≠ two_trees_state
  ∧ child_of (nodes two_trees_state) 1 2
  ∧ ¬ child_of (nodes grafted_state) 1 2
  ∧ child_of (nodes grafted_state) 4 2.
Proof.
  split; [|split; [discriminate|split; [|split]]].
  - apply (graft_invalid_mode_moves _ 2 (PNode 4) (PStr "bogus") (Some 4));
      [vm_compute|]; reflexivity.
  - eexists _, (Some "x"); split; reflexivity.
  - intros (n & k & Hn & Hk). inversion Hn; subst n. discriminate Hk.
  - eexists _, (Some "x"); split; reflexivity.
Defined.

(** ** The group-type tag of a serialized Root *)

Lemma class_emd_group_type_Root :
  class_getattr Root_class "_emd_group_type" = Some "node".
Proof. reflexivity. Qed.

Lemma get_group_inv g st o st' :
  Group.get_group g st = (Ok o, st') → st' = st ∧ groups st !! g = Some o.
Proof.
  unfold Group.get_group. destruct (groups st !! g); intros H; inversion H; auto.
Qed.

Lemma modify_group_kept grp A g f st u st' :
  Group.modify_group g f st = (Ok u, st') →
  (g ≠ grp ∨ ∀ o, g_attrs (f o) = g_attrs o) →
  attrs_kept grp A st → attrs_kept grp A st'.
Proof.
  unfold Group.modify_group. destruct (groups st !! g) as [o0|] eqn:Hg; [|discriminate].
  intros H Hf (o & Ho & HA). inversion H; subst.
  unfold attrs_kept. cbn [groups set_groups].
  destruct (decide (g = grp)) as [->|Hne].
  - rewrite list_lookup_insert_eq by (by eapply lookup_lt_Some).
    exists (f o0). split; [done|]. destruct Hf as [?|Hf]; [done|].
    rewrite Hf. congruence.
  - rewrite list_lookup_insert_ne by done. by exists o.
Qed.

Lemma create_group_inv self nm st g st' :
  Group.create_group self nm st = (Ok g, st') →
  g = length (groups st)
  ∧ groups st' !! g = Some (mkGroup [] [])
  ∧ ∀ grp A, attrs_kept grp A st → attrs_kept grp A st'.
Proof.
  unfold Group.create_group.
  intros (o & ? & [-> Ho]%get_group_inv & H)%bind_Ok_inv.
  destruct (dict_mem nm (g_subgroups o)); [discriminate|].
  apply bind_Ok_inv in H as (g0 & st1 & Halloc & H).
  inversion Halloc; subst g0 st1. clear Halloc.
  apply bind_Ok_inv in H as (? & st2 & Hmod & H). inversion H; subst.
  assert (Hlt : self < length (groups st)) by (by eapply lookup_lt_Some).
  split; [done|]. split.
  - unfold Group.modify_group in Hmod. cbn [groups set_groups] in Hmod.
    rewrite lookup_app_l, Ho in Hmod by done. inversion Hmod; subst.
    cbn [groups set_groups]. rewrite list_lookup_insert_ne by lia.
    rewrite lookup_app_r by lia. by rewrite Nat.sub_diag.
  - intros grp A (o1 & Ho1 & HA).
    eapply modify_group_kept; [exact Hmod | by right |].
    exists o1. split; [|done]. cbn [groups set_groups].
    by apply lookup_app_l_Some.
Qed.

Lemma create_node_group_inv self (nm : option string) st g st' :
  match nm with
  | Some x => Group.create_group self x
  | None => Group.create_anonymous_group self
  end st = (Ok g, st') →
  g = length (groups st)
  ∧ groups st' !! g = Some (mkGroup [] [])
  ∧ ∀ grp A, attrs_kept grp A st → attrs_kept grp A st'.
Proof.
  destruct nm as [x|]; [apply create_group_inv|].
  unfold Group.create_anonymous_group.
  intros (o & ? & [-> Ho]%get_group_inv & Hnew)%bind_Ok_inv.
  inversion Hnew; subst. split; [done|]. cbn [groups set_groups]. split.
  - rewrite lookup_app_r by lia. by rewrite Nat.sub_diag.
  - intros grp A (o1 & Ho1 & HA). exists o1. split; [|done].
    cbn [groups set_groups]. by apply lookup_app_l_Some.
Qed.

Lemma attrs_create_kept grp A g k v st u st' :
  Group.attrs_create g k v st = (Ok u, st') → g ≠ grp →
  attrs_kept grp A st → attrs_kept grp A st'.
Proof. intros H Hne. eapply modify_group_kept; [exact H | by left]. Qed.

Lemma attrs_create_inv g k v st u st' :
  Group.attrs_create g k v st = (Ok u, st') →
  ∃ o, groups st !! g = Some o
       ∧ groups st' !! g = Some (mkGroup (dict_set k v (g_attrs o)) (g_subgroups o)).
Proof.
  unfold Group.attrs_create, Group.modify_group.
  destruct (groups st !! g) as [o|] eqn:Hg; [|discriminate].
  intros H. inversion H; subst. exists o. split; [done|].
  cbn [groups set_groups]. rewrite list_lookup_insert_eq; [done|].
  by eapply lookup_lt_Some.
Qed.

Lemma for_each_kept {A} (P : State → Prop) (body : A → M unit) l :
  (∀ x st st', body x st = (Ok tt, st') → P st → P st') →
  ∀ st st', for_each l body st = (Ok tt, st') → P st → P st'.
Proof.
  intros Hbody. induction l as [|x l IH]; intros st st' Hrun HP; simpl in Hrun.
  - by inversion Hrun; subst.
  - apply bind_Ok_inv in Hrun as ([] & st1 & Hx & Hrun). eauto.
Qed.

Lemma attrs_kept_lt grp A st : attrs_kept grp A st → grp < length (groups st).
Proof. intros (o & Ho & _). by eapply lookup_lt_Some. Qed.

Lemma Metadata_to_h5_kept grp A md g st r st' :
  Metadata_to_h5 md g st = (Ok r, st') →
  attrs_kept grp A st → attrs_kept grp A st'.
Proof.
  unfold Metadata_to_h5.
  intros (o & ? & [-> _]%get_metadata_inv & H)%bind_Ok_inv HA.
  apply bind_Ok_inv in H as (g1 & st1 & (-> & _ & Hkept)%create_group_inv & H).
  apply bind_Ok_inv in H as ([] & st2 & Hloop & H). inversion H; subst.
  pose proof (attrs_kept_lt _ _ _ HA) as Hlt.
  eapply (for_each_kept (attrs_kept grp A)); [|exact Hloop|by apply Hkept].
  intros kv s1 s2 Hattr. eapply attrs_create_kept; [exact Hattr|lia].
Qed.

Lemma set_name_kept grp A md k st u st' :
  Metadata.set_name md k st = (Ok u, st') →
  attrs_kept grp A st → attrs_kept grp A st'.
Proof.
  unfold Metadata.set_name. destruct (metadatas st !! md); [|discriminate].
  intros H. by inversion H; subst.
Qed.

(** C3, at the inputs where the code breaks it.  [to_h5] reads the tag from
    the class, [self.__class__._emd_group_type], and class [Root] inherits
    ['node'] from [Node]; the ['root'] that [Root.__init__] assigns lands on
    the instance and is never read.  Whenever [to_h5] of a Root returns,
    with or without bundles, "node" was among the recognized types and the
    sub-group it made is tagged "node". *)
Theorem to_h5_Root_tag (types : list string) st (r : ref) (n : NodeObj)
    (g grp : gref) st' :
  nodes st !! r = Some n →
  __class__ n = Root_class →
  _emd_group_type n = Some "root" →
  to_h5 types r g st = (Ok grp, st') →
  existsb (String.eqb "node") types = true
  ∧ ∃ o, groups st' !! grp = Some o
         ∧ g_attrs o = [("emd_group_type", PStr "node"); ("python_class", PStr "Root")].
Proof.
  intros Hr Hcls Hinst. unfold to_h5.
  intros (n' & ? & [-> Hr']%get_node_inv & H)%bind_Ok_inv.
  assert (n' = n) as -> by congruence.
  rewrite Hcls, class_emd_group_type_Root in H.
  apply bind_Ok_inv in H as (? & ? & [Hnode ->]%assert_inv & H).
  split; [exact Hnode|].
  apply bind_Ok_inv in H as (grp0 & st1 & (-> & Hnew & _)%create_node_group_inv & H).
  apply bind_Ok_inv in H as (? & st2 & (o1 & Ho1 & Htag)%attrs_create_inv & H).
  apply bind_Ok_inv in H as (? & st3 & (o2 & Ho2 & Hpy)%attrs_create_inv & H).
  assert (o1 = mkGroup [] []) as -> by congruence.
  cbn [g_attrs g_subgroups] in Htag.
  assert (o2 = mkGroup (dict_set "emd_group_type" (PStr "node") []) []) as ->
    by congruence.
  cbn [g_attrs g_subgroups] in Hpy.
  assert (Hkept : attrs_kept (length (groups st))
                    [("emd_group_type", PStr "node"); ("python_class", PStr "Root")] st3)
    by (eexists; split; [exact Hpy | reflexivity]).
  clear Hnew Ho1 Htag Ho2 Hpy.
  apply bind_Ok_inv in H as (n3 & ? & [-> _]%get_node_inv & H).
  apply bind_Ok_inv in H as ([] & st4 & Hmd & H). inversion H; subst. clear H.
  destruct (0 <? length (_metadata n3))%nat; [|by inversion Hmd; subst].
  apply bind_Ok_inv in Hmd as (gm & st5 & (-> & _ & Hk5)%create_group_inv & Hmd).
  pose proof (attrs_kept_lt _ _ _ Hkept) as Hlt.
  apply Hk5 in Hkept.
  apply bind_Ok_inv in Hmd as (? & st6 & Hattr & Hloop).
  eapply attrs_create_kept in Hkept; [|exact Hattr|lia].
  eapply (for_each_kept (attrs_kept (length (groups st)) _)); [|exact Hloop|exact Hkept].
  clear. intros kv s1 s2 Hbody HA.
  apply bind_Ok_inv in Hbody as (d & ? & [-> _]%metadata_inv & Hbody).
  destruct (dict_get kv.1 d); [|discriminate].
  apply bind_Ok_inv in Hbody as (? & s3 & Hset & Hbody).
  eapply set_name_kept in HA; [|exact Hset].
  apply bind_Ok_inv in Hbody as (d' & ? & [-> _]%metadata_inv & Hbody).
  destruct (dict_get kv.1 d'); [|discriminate].
  apply bind_Ok_inv in Hbody as (? & s4 & Hto & Hbody). inversion Hbody; subst.
  by eapply Metadata_to_h5_kept.
Qed.

Lemma to_h5_Root_tag_witness :
  ∃ st' o,
    to_h5 ["node"; "root"; "metadatabundle"] 0 0 bundles_and_file = (Ok 1, st')
    ∧ groups st' !! 1 = Some o
    ∧ g_attrs o = [("emd_group_type", PStr "node"); ("python_class", PStr "Root")].
Proof.
  destruct (to_h5 ["node"; "root"; "metadatabundle"] 0 0 bundles_and_file)
    as [res st'] eqn:Hrun.
  assert (Hres : res = Ok 1) by (vm_compute in Hrun; congruence). subst res.
  destruct (to_h5_Root_tag _ bundles_and_file 0 _ 0 1 st' eq_refl eq_refl eq_refl Hrun)
    as (_ & o & Ho & Hattrs).
  by exists st', o.
Defined.

Lemma create_group_fresh st (g : gref) (go : GroupObj) nm :
  groups st !! g = Some go →
  dict_mem nm (g_subgroups go) = false →
  ∃ st', Group.create_group g nm st = (Ok (length (groups st)), st')
         ∧ nodes st' = nodes st
         ∧ groups st' !! length (groups st) = Some (mkGroup [] []).
Proof.
  intros Hg Hfree.
  assert (Hlt : g < length (groups st)) by (by eapply lookup_lt_Some).
  unfold Group.create_group, Group.get_group. rewrite !run_bind, Hg, Hfree.
  rewrite !run_bind. unfold Group.modify_group. cbn [groups set_groups].
  rewrite lookup_app_l, Hg by done.
  eexists. split; [reflexivity|]. split; [reflexivity|].
  cbn [groups set_groups].
  rewrite list_lookup_insert_ne by lia.
  rewrite lookup_app_r by lia. by rewrite Nat.sub_diag.
Qed.

Lemma attrs_create_spec st (g : gref) (o : GroupObj) k v :
  groups st !! g = Some o →
  ∃ st', Group.attrs_create g k v st = (Ok tt, st')
         ∧ nodes st' = nodes st
         ∧ groups st' !! g = Some (mkGroup (dict_set k v (g_attrs o)) (g_subgroups o)).
Proof.
  intros Hg.
  assert (Hlt : g < length (groups st)) by (by eapply lookup_lt_Some).
  unfold Group.attrs_create, Group.modify_group. rewrite Hg.
  eexists. split; [reflexivity|]. split; [reflexivity|].
  cbn [groups set_groups]. by rewrite list_lookup_insert_eq.
Qed.

(** A Root without bundles is written as soon as "node" is a recognized
    type and its name is free in the group. *)
Lemma to_h5_Root_runs (types : list string) st (r : ref) (n : NodeObj)
    (g : gref) (go : GroupObj) :
  nodes st !! r = Some n →
  __class__ n = Root_class →
  _metadata n = [] →
  groups st !! g = Some go →
  (∀ nm, name n = Some nm → dict_mem nm (g_subgroups go) = false) →
  existsb (String.eqb "node") types = true →
  ∃ st', to_h5 types r g st = (Ok (length (groups st)), st').
Proof.
  intros Hr Hcls Hmd Hg Hfree Hnode.
  assert (Hmake : ∃ st1,
    match name n with
    | Some nm => Group.create_group g nm
    | None => Group.create_anonymous_group g
    end st = (Ok (length (groups st)), st1)
    ∧ nodes st1 = nodes st
    ∧ groups st1 !! length (groups st) = Some (mkGroup [] [])).
  { destruct (name n) as [nm|].
    - by apply create_group_fresh with go; [|apply Hfree].
    - unfold Group.create_anonymous_group, Group.get_group.
      rewrite run_bind, Hg. eexists. split; [reflexivity|]. split; [reflexivity|].
      cbn [groups set_groups]. rewrite lookup_app_r by lia.
      by rewrite Nat.sub_diag. }
  destruct Hmake as (st1 & Hcreate & Hn1 & Hg1).
  destruct (attrs_create_spec _ _ _ "emd_group_type" (PStr "node") Hg1)
    as (st2 & Htag & Hn2 & Hg2).
  destruct (attrs_create_spec _ _ _ "python_class" (PStr "Root") Hg2)
    as (st3 & Hcls3 & Hn3 & Hg3).
  exists st3. unfold to_h5.
  rewrite run_bind, (get_node_Some _ _ _ Hr), Hcls, class_emd_group_type_Root.
  rewrite run_bind, Hnode. cbn [assert ret].
  rewrite run_bind, Hcreate, run_bind, Htag, run_bind.
  change (class_name Root_class) with "Root". rewrite Hcls3.
  rewrite run_bind, get_node_Some with (n := n) by congruence.
  rewrite Hmd. reflexivity.
Qed.

(** When only "root" is a recognized type, serializing a Root is refused. *)
Example to_h5_Root_needs_node_type :
  to_h5 ["root"; "metadatabundle"] 0 0 root_and_file
  = (Err (AssertionError ""), root_and_file).
Proof. reflexivity. Qed.

(** ** Metadata carried over by a graft *)

Lemma dict_get_set_eq {K V} `{KeyLaws K} (k : K) (v : V) d :
  dict_get k (dict_set k v d) = Some v.
Proof.
  induction d as [|[k' v'] d IH]; simpl.
  - by rewrite key_eqb_refl.
  - destruct (key_eqb k k') eqn:E; simpl; rewrite ?key_eqb_refl, ?E; done.
Qed.

Lemma dict_get_set_ne {K V} `{KeyLaws K} (k k' : K) (v : V) d :
  k ≠ k' → dict_get k' (dict_set k v d) = dict_get k' d.
Proof.
  intros Hne. induction d as [|[k0 v0] d IH]; simpl.
  - destruct (key_eqb k' k) eqn:E; [|done].
    apply key_eqb_eq in E. congruence.
  - destruct (key_eqb k k0) eqn:E; simpl.
    + apply key_eqb_eq in E. subst k0.
      destruct (key_eqb k' k) eqn:E'; [|done].
      apply key_eqb_eq in E'. congruence.
    + by rewrite IH.
Qed.

Lemma dict_get_of_key {K V} `{KeyLaws K} (k : K) (d : list (K * V)) :
  k ∈ dict_keys d → ∃ v, dict_get k d = Some v.
Proof.
  induction d as [|[k' v'] d IH]; simpl.
  - by intros ?%elem_of_nil.
  - intros [->|Hin]%elem_of_cons.
    + rewrite key_eqb_refl. eauto.
    + destruct (key_eqb k k'); eauto.
Qed.

Lemma dict_key_of_get {K V} `{KeyLaws K} (k : K) (d : list (K * V)) v :
  dict_get k d = Some v → k ∈ dict_keys d.
Proof.
  induction d as [|[k' v'] d IH]; simpl; [done|].
  destruct (key_eqb k k') eqn:E.
  - apply key_eqb_eq in E. subst. intros _. apply elem_of_cons. by left.
  - intros Hget. apply elem_of_cons. right. by apply IH.
Qed.

Lemma graft_frame_refl s st : graft_frame s st st.
Proof. split; [done|]. intros q n Hq. eauto. Qed.

Lemma graft_frame_trans s st1 st2 st3 :
  graft_frame s st1 st2 → graft_frame s st2 st3 → graft_frame s st1 st3.
Proof.
  intros [Hm1 H1] [Hm2 H2]. split; [congruence|].
  intros q n Hq.
  destruct (H1 q n Hq) as (n1 & Hq1 & Hmd1 & Hr1).
  destruct (H2 q n1 Hq1) as (n2 & Hq2 & Hmd2 & Hr2).
  exists n2. split; [done|]. split; [congruence|].
  intros Hne. rewrite Hr2, Hr1; done.
Qed.

Lemma modify_node_frame s r f st u st' :
  modify_node r f st = (Ok u, st') →
  (∀ n, _metadata (f n) = _metadata n) →
  (r = s ∨ ∀ n, _root (f n) = _root n) →
  graft_frame s st st'.
Proof.
  intros (n0 & Hr & ->)%modify_node_inv Hmd Hroot. split; [done|].
  intros q n Hq. cbn [nodes set_nodes].
  destruct (decide (q = r)) as [->|Hne].
  - exists (f n0). assert (n = n0) as -> by congruence.
    rewrite list_lookup_insert_eq by (by eapply lookup_lt_Some).
    split; [done|]. split; [done|].
    intros Hs. destruct Hroot as [->|Hroot]; [done | apply Hroot].
  - exists n. by rewrite list_lookup_insert_ne.
Qed.

Lemma delitem_frame s owner x st u st' :
  Tree.__delitem__ owner x st = (Ok u, st') → graft_frame s st st'.
Proof.
  unfold Tree.__delitem__.
  intros (n & st1 & [-> Hn]%get_node_inv & H)%bind_Ok_inv.
  destruct (dict_del (Some x) (_dict (_tree n))); [|discriminate].
  eapply modify_node_frame; eauto.
Qed.

Lemma add_to_tree_frame t s st u st' :
  add_to_tree t s st = (Ok u, st') → graft_frame s st st' ∧ t ≠ s.
Proof.
  unfold add_to_tree.
  intros (tn & ? & [-> Ht]%get_node_inv & H)%bind_Ok_inv.
  apply bind_Ok_inv in H as (? & ? & [Htr ->]%assert_inv & H).
  apply bind_Ok_inv in H as (sn & ? & [-> Hs]%get_node_inv & H).
  apply bind_Ok_inv in H as (? & ? & [Hsr ->]%assert_inv & H).
  assert (Hne : t ≠ s).
  { intros ->. assert (tn = sn) as -> by congruence.
    destruct (_root sn); discriminate. }
  split; [|done].
  apply bind_Ok_inv in H as (? & st1 & H1 & H).
  apply bind_Ok_inv in H1 as (? & ? & [-> _]%get_node_inv & H1).
  apply bind_Ok_inv in H as (? & st2 & H2 & H).
  apply bind_Ok_inv in H2 as (? & ? & [-> _]%get_node_inv & H2).
  apply bind_Ok_inv in H as (tn2 & ? & [-> _]%get_node_inv & H).
  apply bind_Ok_inv in H as (sn2 & ? & [-> _]%get_node_inv & H).
  destruct (_treepath tn2); [|discriminate].
  destruct (name sn2); [|discriminate].
  eapply graft_frame_trans; [|eapply graft_frame_trans].
  - eapply modify_node_frame; [exact H1 | done | by left].
  - eapply modify_node_frame; [exact H2 | done | by right].
  - eapply modify_node_frame; [exact H | done | by left].
Qed.

Lemma Tree_getitem_from_list_inv x : ∀ t st r st',
  Tree._getitem_from_list t x st = (Ok r, st') → st' = st.
Proof.
  induction x as [|k x IH]; intros t st r st'; simpl; [discriminate|].
  intros (? & ? & [_ ->]%assert_inv & H)%bind_Ok_inv.
  destruct (dict_get (Some k) (_dict t)); [|discriminate].
  destruct x; [by inversion H|].
  apply bind_Ok_inv in H as (? & ? & [-> _]%get_node_inv & H). eauto.
Qed.

Lemma get_from_tree_inv s nm st r st' :
  get_from_tree s nm st = (Ok r, st') → st' = st.
Proof.
  unfold get_from_tree. destruct nm as [|c nm]; [discriminate|].
  destruct (negb _).
  - intros (n & ? & [-> _]%get_node_inv & H)%bind_Ok_inv.
    by apply Tree_getitem_from_list_inv in H.
  - intros (n & ? & [-> _]%get_node_inv & H)%bind_Ok_inv.
    destruct (_root n); [|discriminate].
    apply bind_Ok_inv in H as (rn & ? & [-> _]%get_node_inv & H).
    by apply Tree_getitem_from_list_inv in H.
Qed.

(** A successful [graft], cut at the assertion on the metadata mode. *)
Lemma graft_inv s t mode st r st' :
  graft s (PNode t) mode st = (Ok r, st') →
  ∃ sn st1 st2,
    nodes st !! s = Some sn
    ∧ graft_frame s st st1
    ∧ t ≠ s
    ∧ merge_metadata_valid mode = true
    ∧ (if py_is_bool mode false then ret tt
       else if py_is_bool mode true
            then merge_root_metadata false (_root sn) (PNode t)
            else merge_root_metadata true (_root sn) (PNode t)) st1 = (Ok tt, st2)
    ∧ getattr_root (PNode t) st2 = (Ok r, st').
Proof.
  unfold graft.
  intros (? & ? & [-> _]%root_inv & H)%bind_Ok_inv.
  apply bind_Ok_inv in H as (? & ? & [_ ->]%assert_inv & H).
  apply bind_Ok_inv in H as (? & ? & [-> _]%root_inv & H).
  apply bind_Ok_inv in H as (? & ? & [_ ->]%assert_inv & H).
  apply bind_Ok_inv in H as (old_root & ? & [-> (sn & Hs & ->)]%root_inv & H).
  apply bind_Ok_inv in H as (sn' & ? & [-> Hs']%get_node_inv & H).
  assert (sn' = sn) as -> by congruence.
  destruct (_treepath sn); [|discriminate].
  destruct (list_pop _) as [[this_node node_list]|]; [|discriminate].
  apply bind_Ok_inv in H as (up & ? & ->%get_from_tree_inv & H).
  apply bind_Ok_inv in H as (? & sta & Hdel%(delitem_frame s) & H).
  apply bind_Ok_inv in H as (? & stb & Hmod & H).
  apply bind_Ok_inv in H as (? & stc & [Hadd Hne]%add_to_tree_frame & H).
  apply bind_Ok_inv in H as (? & ? & [Hvalid ->]%assert_inv & H).
  apply bind_Ok_inv in H as ([] & std & Hmerge & H).
  exists sn, stc, std.
  assert (Hframe : graft_frame s st stc).
  { eapply graft_frame_trans; [exact Hdel|].
    eapply graft_frame_trans; [|exact Hadd].
    eapply modify_node_frame; [exact Hmod | done | by left]. }
  done.
Qed.

Lemma for_keys_invariant (I : list string → State → Prop) (Q : string → Prop)
    size0 size body :
  (∀ k P st st', Q k → I P st → body k st = (Ok tt, st') → I (k :: P) st') →
  (∀ st n st', size st = (Ok n, st') → st' = st) →
  ∀ ks P st st',
    Forall Q ks → I P st →
    for_keys ks size0 size body st = (Ok tt, st') →
    I (reverse ks ++ P) st'.
Proof.
  intros Hbody Hsize ks.
  induction ks as [|k ks IH]; intros P st st' HQ HI Hrun; simpl in Hrun;
    apply bind_Ok_inv in Hrun as (n & ? & ->%Hsize & Hrun);
    (destruct (negb _); [discriminate|]).
  - by inversion Hrun; subst.
  - apply bind_Ok_inv in Hrun as ([] & st1 & Hk & Hrun).
    apply Forall_cons in HQ as [HQk HQ].
    rewrite reverse_cons, <- app_assoc. simpl. eauto.
Qed.

(** The instance that one step of the loop assigns: the bundle itself, or a
    new instance with the same contents. *)
Lemma merge_source (copy : bool) (md : mref) cur x cur1 o :
  metadatas cur !! md = Some o →
  (if copy then Metadata.copy md else ret md) cur = (Ok x, cur1) →
  nodes cur1 = nodes cur
  ∧ (∃ ext, metadatas cur1 = metadatas cur ++ ext ∧ (copy = false → ext = []))
  ∧ metadatas cur1 !! x = Some o
  ∧ if copy then x = length (metadatas cur) else x = md.
Proof.
  intros Hmd. destruct copy.
  - unfold Metadata.copy.
    intros (o' & ? & [-> Ho']%get_metadata_inv & H)%bind_Ok_inv.
    assert (o' = o) as -> by congruence.
    inversion H; subst. cbn [nodes metadatas set_metadatas].
    split; [done|]. split; [by eexists; split|]. split; [|done].
    rewrite lookup_app_r by lia. rewrite Nat.sub_diag. by destruct o.
  - intros H. inversion H; subst. split; [done|].
    split; [exists []; by rewrite app_nil_r|]. done.
Qed.

Lemma merge_one_step copy base oldr t tr d0 P cur cur' k :
  (∀ k m, dict_get k d0 = Some m →
          ∃ o, metadatas base !! m = Some o ∧ md_name o = k) →
  k ∈ dict_keys d0 →
  merge_invariant copy base oldr t tr d0 P cur →
  merge_one copy (Some oldr) (PNode t) k cur = (Ok tt, cur') →
  merge_invariant copy base oldr t tr d0 (k :: P) cur'.
Proof.
  intros Hnamed Hk [(tn & Ht & Htr) (extra & Hstore & Hextra)
                    (on & Hon & Hold) (trn & Htrn & Hnew)].
  destruct (dict_get_of_key _ _ Hk) as (m & Hm).
  destruct (Hold _ _ Hm) as (md & Hmd & Hobj & Hsame).
  destruct (Hnamed _ _ Hm) as (o & Ho & Hname).
  unfold merge_one.
  intros (d & ? & [-> (on' & Hon' & ->)]%metadata_inv & H)%bind_Ok_inv.
  assert (on' = on) as -> by congruence. rewrite Hmd in H.
  apply bind_Ok_inv in H as (x & cur1 & Hx & H).
  apply merge_source with (o := o) in Hx
      as (Hnodes & (ext & Hext & Hext0) & Hxo & Hxfresh); [|congruence].
  apply bind_Ok_inv in H as (r & ? & [-> (tn' & Ht' & ->)]%root_inv & H).
  rewrite Hnodes in Ht'. assert (tn' = tn) as -> by congruence.
  rewrite Htr in H. unfold metadata_setter in H.
  apply bind_Ok_inv in H as (ox & ? & [-> Hox]%get_metadata_inv & H).
  assert (ox = o) as -> by congruence. rewrite Hname in H.
  apply modify_node_inv in H as (trn' & Htrn' & ->).
  rewrite Hnodes in Htrn'. assert (trn' = trn) as -> by congruence.
  assert (Hlt : tr < length (nodes cur)) by (by eapply lookup_lt_Some).
  assert (Hkeep : ∀ i m1 o1, metadatas cur !! i = metadatas base !! m1 →
                             metadatas base !! m1 = Some o1 →
                             metadatas cur1 !! i = metadatas base !! m1).
  { intros i m1 o1 Hi Hm1. rewrite Hext, Hm1. apply lookup_app_l_Some. congruence. }
  assert (Hx_as : merged_as copy base cur1 m x).
  { split; [congruence|]. destruct copy; [|by rewrite Hxfresh, Hsame].
    rewrite Hxfresh, Hstore, length_app. lia. }
  split; cbn [nodes metadatas set_nodes]; rewrite ?Hnodes.
  - destruct (decide (t = tr)) as [->|Hne].
    + rewrite list_lookup_insert_eq by done. eexists. split; [done|].
      assert (tn = trn) as -> by congruence. done.
    + rewrite list_lookup_insert_ne by done. eauto.
  - exists (extra ++ ext). rewrite Hext, Hstore, app_assoc. split; [done|].
    intros Hc. by rewrite (Hextra Hc), (Hext0 Hc).
  - destruct (decide (oldr = tr)) as [->|Hne].
    + rewrite list_lookup_insert_eq by done. eexists. split; [done|].
      assert (on = trn) as -> by congruence. cbn [_metadata with_metadata].
      intros k1 m1 Hm1. destruct (decide (k = k1)) as [<-|Hk1].
      * exists x. rewrite dict_get_set_eq. assert (m1 = m) as -> by congruence.
        split; [done|]. destruct Hx_as as [Hx1 Hx2]. split; [done|].
        intros ->. exact Hx2.
      * rewrite dict_get_set_ne by done.
        destruct (Hold _ _ Hm1) as (m1' & Hm1' & Hobj1 & Hsame1).
        destruct (Hnamed _ _ Hm1) as (o1 & Ho1 & _).
        exists m1'. split; [done|]. split; [by eapply Hkeep | done].
    + rewrite list_lookup_insert_ne by done. exists on. split; [done|].
      intros k1 m1 Hm1.
      destruct (Hold _ _ Hm1) as (m1' & Hm1' & Hobj1 & Hsame1).
      destruct (Hnamed _ _ Hm1) as (o1 & Ho1 & _).
      exists m1'. split; [done|]. split; [by eapply Hkeep | done].
  - rewrite list_lookup_insert_eq by done. eexists. split; [done|].
    cbn [_metadata with_metadata].
    intros k1 m1 Hin Hm1. destruct (decide (k = k1)) as [<-|Hk1].
    + exists x. rewrite dict_get_set_eq. assert (m1 = m) as -> by congruence. done.
    + rewrite dict_get_set_ne by done.
      apply elem_of_cons in Hin as [->|Hin]; [done|].
      destruct (Hnew _ _ Hin Hm1) as (m1' & Hm1' & Hobj1 & Hrel).
      destruct (Hnamed _ _ Hm1) as (o1 & Ho1 & _).
      exists m1'. split; [done|]. split; [by eapply Hkeep | done].
Qed.

Lemma merge_root_metadata_spec (copy : bool) base (oldr t tr : ref) on tn trn st2 :
  nodes base !! oldr = Some on →
  nodes base !! t = Some tn → _root tn = Some tr →
  nodes base !! tr = Some trn →
  metadata_named base on →
  merge_root_metadata copy (Some oldr) (PNode t) base = (Ok tt, st2) →
  merge_invariant copy base oldr t tr (_metadata on)
    (reverse (dict_keys (_metadata on)) ++ []) st2.
Proof.
  intros Hon Ht Htr Htrn Hnamed. unfold merge_root_metadata.
  intros (d0 & ? & [-> (on' & Hon' & ->)]%metadata_inv & H)%bind_Ok_inv.
  assert (on' = on) as -> by congruence.
  eapply (for_keys_invariant
            (merge_invariant copy base oldr t tr (_metadata on))
            (λ k, k ∈ dict_keys (_metadata on))); [| | | |exact H].
  - intros k P st st' Hk HI Hrun. eapply merge_one_step; eauto.
  - intros st n st' (d & ? & [-> _]%metadata_inv & Hret)%bind_Ok_inv.
    by inversion Hret.
  - by apply Forall_forall.
  - split.
    + eauto.
    + exists []. by rewrite app_nil_r.
    + exists on. split; [done|]. intros k m Hm. eauto.
    + exists trn. split; [done|]. by intros k m ?%elem_of_nil.
Qed.

(** C8, at the inputs where the code breaks it.  A node that sits directly
    under its Root is rooted, and so is the target, yet the graft raises
    IndexError in every mode, True and 'copy' included, before it reaches
    the metadata loops: a bundle [k] of the old root that the root of the
    target does not hold is not held by it after the call either, and no
    Metadata instance has been made.  Nothing is transferred and nothing is
    copied.  The defect is that of C4. *)
Theorem graft_direct_child_merges_nothing st (s t oldr tr : ref)
    (sn tn on trn : NodeObj) (nm k : string) (m : mref) (mode : pyval) :
  nodes st !! s = Some sn → _root sn = Some oldr →
  _treepath sn = Some ("/" +:+ nm) → no_slash nm = true →
  nodes st !! t = Some tn → _root tn = Some tr →
  nodes st !! oldr = Some on → nodes st !! tr = Some trn →
  dict_get k (_metadata on) = Some m → dict_get k (_metadata trn) = None →
  ∃ st' trn',
    graft s (PNode t) mode st = (Err IndexError, st')
    ∧ nodes st' !! tr = Some trn'
    ∧ dict_get k (_metadata trn') = None
    ∧ metadatas st' = metadatas st.
Proof.
  intros Hs Hsr Hp Hnm Ht Htr Hon Htrn Hk Hnone.
  exists st, trn. split; [|done].
  eapply graft_shallow; [exact Hs | by rewrite Hsr | exact Hp | | exact Ht | by rewrite Htr].
  right. by exists nm.
Qed.

(** The example of the specification with a bundle on [R]: [x.graft(S)] and
    [x.graft(S, 'copy')] both raise, and [S] is left without the bundle. *)
Lemma graft_direct_child_merges_nothing_witness :
  spec_example_with_bundle empty_state = (Ok (0, 1, 2, 3), spec_bundle_state)
  ∧ (∃ n, nodes spec_bundle_state !! 0 = Some n
          ∧ dict_get "md1" (_metadata n) = Some 0)
  ∧ (∃ st' trn',
        graft 1 (PNode 3) (PBool true) spec_bundle_state = (Err IndexError, st')
        ∧ nodes st' !! 3 = Some trn'
        ∧ dict_get "md1" (_metadata trn') = None
        ∧ metadatas st' = metadatas spec_bundle_state)
  ∧ ∃ st' trn',
      graft 1 (PNode 3) (PStr "copy") spec_bundle_state = (Err IndexError, st')
      ∧ nodes st' !! 3 = Some trn'
      ∧ dict_get "md1" (_metadata trn') = None
      ∧ metadatas st' = metadatas spec_bundle_state.
Proof.
  split; [vm_compute; reflexivity|]. split; [by eexists|]. split.
  - exact (graft_direct_child_merges_nothing spec_bundle_state 1 3 0 3 _ _ _ _
             "x" "md1" 0 (PBool true) eq_refl eq_refl eq_refl eq_refl eq_refl eq_refl
             eq_refl eq_refl eq_refl eq_refl).
  - exact (graft_direct_child_merges_nothing spec_bundle_state 1 3 0 3 _ _ _ _
             "x" "md1" 0 (PStr "copy") eq_refl eq_refl eq_refl eq_refl eq_refl eq_refl
             eq_refl eq_refl eq_refl eq_refl).
Defined.

(** * Further properties of the module *)

(** ** Lookups in a Tree *)

Lemma getitem_from_list_pure x : ∀ (t : TreeObj) st res st',
  Tree._getitem_from_list t x st = (res, st') → st' = st.
Proof.
  induction x as [|k x IH]; intros t st res st'; simpl.
  - intros H. by inversion H.
  - rewrite run_bind. unfold assert.
    destruct (dict_mem (Some k) (_dict t)); [|intros H; by inversion H].
    cbn [ret]. destruct (dict_get (Some k) (_dict t)) as [r|]; [|intros H; by inversion H].
    destruct x as [|k' x]; [intros H; by inversion H|].
    rewrite run_bind. unfold get_node at 1.
    destruct (nodes st !! r) as [n|]; [|intros H; by inversion H].
    apply IH.
Qed.

Lemma getitem_from_list_address segs : ∀ (t : TreeObj) k st (c : ref),
  Tree._getitem_from_list t (k :: segs) st = (Ok c, st)
  ↔ ∃ m, dict_get (Some k) (_dict t) = Some m ∧ address (nodes st) m segs c.
Proof.
  induction segs as [|k' segs IH]; intros t k st c; simpl.
  - rewrite run_bind, dict_mem_get.
    destruct (dict_get (Some k) (_dict t)) as [m|]; simpl; split.
    + intros H. inversion H; subst. exists c. split; [done|]. apply address_here.
    + intros (m' & Hm & Ha). inversion Hm; subst. by inversion Ha.
    + discriminate.
    + by intros (m' & Hm & _).
  - rewrite run_bind, dict_mem_get.
    destruct (dict_get (Some k) (_dict t)) as [m|]; simpl; split.
    + rewrite run_bind. unfold get_node at 1.
      destruct (nodes st !! m) as [n|] eqn:Hn; [|discriminate].
      intros H. apply (IH (_tree n) k' st c) in H as (m' & Hm' & Ha).
      exists m. split; [done|]. by eapply address_down.
    + intros (m0 & Hm0 & Ha). inversion Hm0; subst m0.
      inversion Ha as [|? n ? m' ? ? Hn Hk' Ha']; subst.
      rewrite run_bind, (get_node_Some _ _ _ Hn).
      apply (IH (_tree n) k' st c). eauto.
    + discriminate.
    + by intros (m' & Hm & _).
Qed.

(** X1. Looking a list of segments up in a Tree never changes the store, and
    it returns node [c] exactly when the first segment is a key of the Tree
    and the remaining segments are a chain of Tree memberships from that
    child down to [c]. *)
Theorem getitem_from_list_resolves (t : TreeObj) (k : string) (segs : list string)
    st (c : ref) :
  (∀ res st', Tree._getitem_from_list t (k :: segs) st = (res, st') → st' = st)
  ∧ (Tree._getitem_from_list t (k :: segs) st = (Ok c, st)
     ↔ ∃ m, dict_get (Some k) (_dict t) = Some m ∧ address (nodes st) m segs c).
Proof.
  split.
  - intros res st'. apply getitem_from_list_pure.
  - apply getitem_from_list_address.
Qed.

Lemma append_empty_r s : s +:+ "" = s.
Proof.
  induction s as [|c s IH]; [done|].
  change (String c s +:+ "") with (String c (s +:+ "")). by rewrite IH.
Qed.

Lemma split_segment_slash k rest :
  no_slash k = true →
  split "/" (k +:+ String "/" rest) = k :: split "/" rest.
Proof.
  induction k as [|c k IH]; [done|].
  change (String c k +:+ String "/" rest) with (String c (k +:+ String "/" rest)).
  simpl. intros [Hc Hk]%andb_prop. apply negb_true_iff in Hc. rewrite Hc.
  by rewrite (IH Hk).
Qed.

Lemma split_concat_clean segs :
  Forall clean_segment segs → segs ≠ [] →
  split "/" (join "/" segs) = segs.
Proof.
  induction segs as [|k segs IH]; [done|]. intros Hclean _.
  apply Forall_cons in Hclean as [[_ Hk] Hclean].
  destruct segs as [|k' segs].
  - simpl. by apply split_no_slash.
  - change (join "/" (k :: k' :: segs))
      with (k +:+ String "/" (join "/" (k' :: segs))).
    rewrite (split_segment_slash _ _ Hk). by rewrite IH.
Qed.

Lemma path_of_join segs :
  segs ≠ [] → path_of segs = String "/" (join "/" segs).
Proof.
  induction segs as [|k segs IH]; [done|]. intros _.
  destruct segs as [|k' segs].
  - simpl. by rewrite append_empty_r.
  - change (path_of (k :: k' :: segs)) with (String "/" (k +:+ path_of (k' :: segs))).
    rewrite IH by done. reflexivity.
Qed.

Lemma list_remove_clean segs :
  Forall clean_segment segs → list_remove "" segs = None.
Proof.
  induction 1 as [|k segs [Hk _] _ IH]; simpl; [done|].
  destruct (String.eqb k "") eqn:E; [by apply String.eqb_eq in E|].
  by rewrite IH.
Qed.

Lemma segments_of_path segs :
  Forall clean_segment segs → segs ≠ [] →
  Tree.remove_two_empty (split "/" (path_of segs)) = segs
  ∧ Tree.remove_two_empty (split "/" (join "/" segs)) = segs.
Proof.
  intros Hclean Hne. rewrite path_of_join by done.
  rewrite split_leading_slash, split_concat_clean by done.
  unfold Tree.remove_two_empty. simpl.
  by rewrite (list_remove_clean _ Hclean).
Qed.

(** X2. For segments that are not empty and hold no '/', the absolute
    spelling ['/a/b/c'] and the relative spelling ['a/b/c'] of a path are
    looked up alike by [Tree.__getitem__]: both resolve the segments a, b, c
    in turn, the leading '/' being dropped. *)
Theorem getitem_path_spellings (t : TreeObj) (segs : list string) st :
  Forall clean_segment segs → segs ≠ [] →
  Tree.__getitem__ t (path_of segs) st = Tree._getitem_from_list t segs st
  ∧ Tree.__getitem__ t (join "/" segs) st = Tree._getitem_from_list t segs st.
Proof.
  intros Hclean Hne. unfold Tree.__getitem__.
  destruct (segments_of_path segs Hclean Hne) as [-> ->]. done.
Qed.

Lemma getitem_path_spellings_witness :
  Tree.__getitem__ (mkTree [(Some "a", 1)]) "/a/x" two_trees_state = (Ok 2, two_trees_state)
  ∧ Tree.__getitem__ (mkTree [(Some "a", 1)]) "a/x" two_trees_state = (Ok 2, two_trees_state).
Proof.
  assert (Hclean : Forall clean_segment ["a"; "x"]).
  { repeat constructor; discriminate. }
  destruct (getitem_path_spellings (mkTree [(Some "a", 1)]) ["a"; "x"] two_trees_state
              Hclean ltac:(discriminate)) as [H1 H2].
  split; [exact (eq_trans H1 eq_refl) | exact (eq_trans H2 eq_refl)].
Defined.

(** ** Deleting from a Tree *)

Lemma dict_del_None {K V} `{KeyLaws K} (k : K) (d : list (K * V)) :
  dict_get k d = None → dict_del k d = None.
Proof.
  induction d as [|[k' v'] d IH]; simpl; [done|].
  destruct (key_eqb k k'); [discriminate|]. intros Hget. by rewrite IH.
Qed.

Lemma dict_del_Some {K V} `{KeyLaws K} (k : K) (d : list (K * V)) v :
  dict_get k d = Some v →
  ∃ d', dict_del k d = Some d'
        ∧ (∀ k', k' ≠ k → dict_get k' d' = dict_get k' d)
        ∧ (NoDup (dict_keys d) → dict_get k d' = None)
        ∧ S (length d') = length d.
Proof.
  induction d as [|[k0 v0] d IH]; simpl; [done|].
  destruct (key_eqb k k0) eqn:E.
  - apply key_eqb_eq in E. subst k0. intros _. exists d.
    split; [done|]. split; [|split; [|done]].
    + intros k' Hne. destruct (key_eqb k' k) eqn:E'; [|done].
      apply key_eqb_eq in E'. congruence.
    + intros [Hnotin _]%NoDup_cons.
      destruct (dict_get k d) as [v1|] eqn:Hg; [|done].
      exfalso. apply Hnotin. by eapply dict_key_of_get.
  - intros Hv. destruct (IH Hv) as (d' & -> & Hother & Hgone & Hlen).
    exists ((k0, v0) :: d'). split; [done|]. simpl. split; [|split].
    + intros k' Hne. destruct (key_eqb k' k0); [done|]. by apply Hother.
    + intros [_ Hnd]%NoDup_cons. rewrite E. by apply Hgone.
    + by rewrite Hlen.
Qed.

(** X3. [Tree.__delitem__] of a key the Tree does not hold raises KeyError
    naming the key and leaves the store as it was; of a key it holds, it
    removes that one entry from the owner's Tree: the other keys keep their
    nodes, the Tree is one entry shorter, no other node is touched, and the
    removed node itself is not modified. *)
Theorem delitem_spec st (owner : ref) (n : NodeObj) (x : string) :
  nodes st !! owner = Some n →
  (dict_get (Some x) (_dict (_tree n)) = None →
     Tree.__delitem__ owner x st = (Err (KeyError x), st))
  ∧ (∀ c, dict_get (Some x) (_dict (_tree n)) = Some c →
       ∃ d' st',
         Tree.__delitem__ owner x st = (Ok tt, st')
         ∧ nodes st' !! owner = Some (with_tree (mkTree d') n)
         ∧ (∀ k', k' ≠ Some x → dict_get k' d' = dict_get k' (_dict (_tree n)))
         ∧ (NoDup (dict_keys (_dict (_tree n))) → dict_get (Some x) d' = None)
         ∧ S (length d') = length (_dict (_tree n))
         ∧ (∀ q, q ≠ owner → nodes st' !! q = nodes st !! q)
         ∧ metadatas st' = metadatas st).
Proof.
  intros Hn. unfold Tree.__delitem__.
  rewrite run_bind, (get_node_Some _ _ _ Hn). split.
  - intros Hx. by rewrite (dict_del_None _ _ Hx).
  - intros c Hc. destruct (dict_del_Some _ _ _ Hc) as (d' & -> & Hother & Hgone & Hlen).
    unfold modify_node. rewrite Hn. eexists d', _. split; [reflexivity|].
    cbn [nodes metadatas set_nodes].
    split; [by rewrite list_lookup_insert_eq by (by eapply lookup_lt_Some)|].
    do 3 (split; [done|]). split; [|done].
    intros q Hq. by rewrite list_lookup_insert_ne.
Qed.

Lemma delitem_spec_witness :
  Tree.__delitem__ 1 "missing" two_trees_state = (Err (KeyError "missing"), two_trees_state)
  ∧ ∃ st', Tree.__delitem__ 1 "x" two_trees_state = (Ok tt, st')
           ∧ nodes st' !! 2 = nodes two_trees_state !! 2.
Proof.
  destruct (delitem_spec two_trees_state 1 _ "missing" eq_refl) as [Hmiss _].
  destruct (delitem_spec two_trees_state 1 _ "x" eq_refl) as [_ Hdel].
  split; [exact (Hmiss eq_refl)|].
  destruct (Hdel 2 eq_refl) as (d' & st' & Hrun & _ & _ & _ & _ & Hframe & _).
  exists st'. split; [exact Hrun|]. apply Hframe. discriminate.
Defined.

(** ** Attaching a child *)

Lemma add_to_tree_run st (p n : ref) (pn nn : NodeObj) :
  nodes st !! p = Some pn → nodes st !! n = Some nn →
  is_some (_root pn) = true → _root nn = None →
  p ≠ n
  ∧ add_to_tree p n st
    = match _treepath pn, name nn with
      | Some pp, Some nm =>
          (Ok tt,
           set_nodes (attached p n pn nn (Some (pp +:+ "/" +:+ nm))) st)
      | _, _ =>
          (Err TypeError,
           set_nodes (attached p n pn nn (_treepath nn)) st)
      end.
Proof.
  intros Hp Hn Hproot Hnroot.
  assert (Hne : p ≠ n).
  { intros ->. assert (pn = nn) as -> by congruence. by rewrite Hnroot in Hproot. }
  split; [done|].
  assert (Hpl : p < length (nodes st)) by (by eapply lookup_lt_Some).
  assert (Hnl : n < length (nodes st)) by (by eapply lookup_lt_Some).
  assert (Hfail :
    set_nodes (λ h : list NodeObj,
      <[p := with_tree (mkTree (dict_set (name nn) n (_dict (_tree pn)))) pn]>
        (<[n := with_root (_root pn) nn]> h)) st
    = set_nodes (attached p n pn nn (_treepath nn)) st).
  { unfold set_nodes, attached. f_equal.
    by rewrite (list_insert_insert_ne _ p n) by done. }
  unfold add_to_tree.
  rewrite run_bind, (get_node_Some _ _ _ Hp), run_bind, Hproot. cbn [assert ret].
  rewrite run_bind, (get_node_Some _ _ _ Hn), run_bind, Hnroot. cbn [assert ret is_none].
  rewrite run_bind, run_bind, (get_node_Some _ _ _ Hp).
  unfold modify_node at 1. rewrite Hn.
  rewrite run_bind, run_bind. unfold get_node at 1. cbn [nodes set_nodes].
  rewrite list_lookup_insert_eq by done.
  unfold Tree.__setitem__, modify_node at 1. cbn [nodes set_nodes].
  rewrite list_lookup_insert_ne, Hp by done.
  rewrite run_bind. unfold get_node at 1. cbn [nodes set_nodes].
  rewrite list_lookup_insert_eq by (by rewrite length_insert).
  rewrite run_bind. unfold get_node at 1. cbn [nodes set_nodes].
  rewrite list_lookup_insert_ne by done.
  rewrite list_lookup_insert_eq by done.
  cbn [_treepath name with_tree with_root].
  destruct (_treepath pn) as [pp|]; [|by rewrite <- Hfail].
  destruct (name nn) as [nm|] eqn:Hname; [|by rewrite <- Hfail].
  unfold modify_node. cbn [nodes set_nodes].
  rewrite list_lookup_insert_ne by done.
  rewrite list_lookup_insert_eq by done.
  f_equal. unfold set_nodes, attached. cbn. f_equal. rewrite Hname.
  rewrite (list_insert_insert_ne _ p n) by done.
  by rewrite list_insert_insert_eq.
Qed.

Lemma add_to_tree_inv (p n : ref) st u st' :
  add_to_tree p n st = (Ok u, st') →
  ∃ pn nn pp nm,
    nodes st !! p = Some pn ∧ nodes st !! n = Some nn
    ∧ is_some (_root pn) = true ∧ _root nn = None
    ∧ _treepath pn = Some pp ∧ name nn = Some nm
    ∧ p ≠ n
    ∧ st' = set_nodes (attached p n pn nn (Some (pp +:+ "/" +:+ nm))) st.
Proof.
  intros Hrun. pose proof Hrun as Hrun0. unfold add_to_tree in Hrun.
  apply bind_Ok_inv in Hrun as (pn & ? & [-> Hp]%get_node_inv & Hrun).
  apply bind_Ok_inv in Hrun as (? & ? & [Hproot ->]%assert_inv & Hrun).
  apply bind_Ok_inv in Hrun as (nn & ? & [-> Hn]%get_node_inv & Hrun).
  apply bind_Ok_inv in Hrun as (? & ? & [Hnroot ->]%assert_inv & _).
  assert (Hnr : _root nn = None) by (by destruct (_root nn)).
  destruct (add_to_tree_run st p n pn nn Hp Hn Hproot Hnr) as [Hne Heq].
  rewrite Heq in Hrun0. destruct (_treepath pn) as [pp|] eqn:Hpath; [|discriminate].
  destruct (name nn) as [nm|] eqn:Hname; [|discriminate].
  inversion Hrun0; subst. exists pn, nn, pp, nm. by do 7 (split; [done|]).
Qed.

(** X4. [add_to_tree] of an unrooted node [n] that has a [str] name under a
    rooted node [p] that has a path succeeds; afterwards [n] has the root of
    [p] and the path of [p] followed by '/' and its own name, the Tree of
    [p] holds [n] under that name, and nothing else has changed: every
    other node, the other fields of [p] and of [n], and the Metadata
    instances. *)
Theorem add_to_tree_attaches st (p n : ref) (pn nn : NodeObj) (pp nm : string) :
  nodes st !! p = Some pn → nodes st !! n = Some nn →
  is_some (_root pn) = true → _root nn = None → _treepath pn = Some pp →
  name nn = Some nm →
  ∃ st',
    add_to_tree p n st = (Ok tt, st')
    ∧ nodes st' !! n
      = Some (with_treepath (Some (pp +:+ "/" +:+ nm)) (with_root (_root pn) nn))
    ∧ nodes st' !! p
      = Some (with_tree (mkTree (dict_set (Some nm) n (_dict (_tree pn)))) pn)
    ∧ dict_get (Some nm) (dict_set (Some nm) n (_dict (_tree pn))) = Some n
    ∧ (∀ q, q ≠ p → q ≠ n → nodes st' !! q = nodes st !! q)
    ∧ length (nodes st') = length (nodes st)
    ∧ metadatas st' = metadatas st.
Proof.
  intros Hp Hn Hproot Hnroot Hpath Hname.
  destruct (add_to_tree_run st p n pn nn Hp Hn Hproot Hnroot) as [Hne Heq].
  rewrite Hpath, Hname in Heq. eexists. split; [exact Heq|].
  assert (Hpl : p < length (nodes st)) by (by eapply lookup_lt_Some).
  assert (Hnl : n < length (nodes st)) by (by eapply lookup_lt_Some).
  unfold attached. cbn [nodes metadatas set_nodes]. rewrite Hname.
  split; [|split; [|split; [|split; [|split]]]].
  - by rewrite list_lookup_insert_eq by (by rewrite length_insert).
  - rewrite list_lookup_insert_ne by done. by rewrite list_lookup_insert_eq.
  - apply dict_get_set_eq.
  - intros q Hqp Hqn. by rewrite !list_lookup_insert_ne.
  - by rewrite !length_insert.
  - done.
Qed.

Lemma add_to_tree_attaches_witness :
  ∃ st' zn, add_to_tree 4 5 (snd (Node (Some "z") two_trees_state)) = (Ok tt, st')
            ∧ nodes st' !! 5 = Some zn
            ∧ _root zn = Some 4 ∧ _treepath zn = Some "/z".
Proof.
  destruct (add_to_tree_attaches (snd (Node (Some "z") two_trees_state)) 4 5 _ _ "" "z"
              eq_refl eq_refl eq_refl eq_refl eq_refl eq_refl) as (st' & Hrun & Hn & _).
  exists st'. eexists. split; [exact Hrun|]. split; [exact Hn|]. by split.
Defined.

(** X5. With both nodes in the store, [add_to_tree] succeeds exactly when the
    parent is rooted, the child unrooted, the parent has a path and the
    child a name that is a [str].  An unrooted parent is refused with the
    store unchanged.  A rooted parent whose path is None, or a child whose
    name is None, raises TypeError only at the last statement, the
    concatenation: the child has by then received the parent's root and
    entered its Tree under its name, and keeps the path it had. *)
Theorem add_to_tree_guard st (p n : ref) (pn nn : NodeObj) :
  nodes st !! p = Some pn → nodes st !! n = Some nn →
  ((∃ st', add_to_tree p n st = (Ok tt, st'))
   ↔ is_some (_root pn) = true ∧ _root nn = None
     ∧ is_some (_treepath pn) = true ∧ is_some (name nn) = true)
  ∧ (_root pn = None →
       add_to_tree p n st = (Err (AssertionError add_unrooted_msg), st))
  ∧ (is_some (_root pn) = true → _root nn = None →
     _treepath pn = None ∨ name nn = None →
       ∃ st' n' p',
         add_to_tree p n st = (Err TypeError, st')
         ∧ nodes st' !! n = Some n'
         ∧ _root n' = _root pn ∧ _treepath n' = _treepath nn
         ∧ nodes st' !! p = Some p'
         ∧ dict_get (name nn) (_dict (_tree p')) = Some n).
Proof.
  intros Hp Hn. split; [split|split].
  - intros (st' & (pn' & nn' & pp & nm & Hp' & Hn' & Hr & Hnr & Hpath & Hname & _)
              %add_to_tree_inv).
    assert (pn' = pn) as -> by congruence. assert (nn' = nn) as -> by congruence.
    by rewrite Hpath, Hname.
  - intros (Hr & Hnr & Hpath & Hname).
    destruct (add_to_tree_run st p n pn nn Hp Hn Hr Hnr) as [_ Heq].
    destruct (_treepath pn); [|discriminate].
    destruct (name nn); [|discriminate]. eauto.
  - intros Hr. unfold add_to_tree.
    by rewrite run_bind, (get_node_Some _ _ _ Hp), run_bind, Hr.
  - intros Hr Hnr Hnone.
    destruct (add_to_tree_run st p n pn nn Hp Hn Hr Hnr) as [Hne Heq].
    assert (Hrun : add_to_tree p n st
                   = (Err TypeError, set_nodes (attached p n pn nn (_treepath nn)) st)).
    { rewrite Heq. destruct Hnone as [-> | ->]; [done|]. by destruct (_treepath pn). }
    assert (Hpl : p < length (nodes st)) by (by eapply lookup_lt_Some).
    assert (Hnl : n < length (nodes st)) by (by eapply lookup_lt_Some).
    eexists _, _, _. split; [exact Hrun|]. unfold attached. cbn [nodes set_nodes].
    split; [|split; [|split; [|split]]].
    + by rewrite list_lookup_insert_eq by (by rewrite length_insert).
    + done.
    + done.
    + rewrite list_lookup_insert_ne by done. by rewrite list_lookup_insert_eq.
    + apply dict_get_set_eq.
Qed.

Lemma add_to_tree_guard_witness :
  add_to_tree 5 1 (snd (Node (Some "z") two_trees_state))
  = (Err (AssertionError add_unrooted_msg), snd (Node (Some "z") two_trees_state))
  ∧ ∃ st' n', add_to_tree 0 5 (snd (Node None two_trees_state)) = (Err TypeError, st')
              ∧ nodes st' !! 5 = Some n'
              ∧ _root n' = Some 0 ∧ _treepath n' = None.
Proof.
  split.
  - destruct (add_to_tree_guard (snd (Node (Some "z") two_trees_state)) 5 1 _ _
                eq_refl eq_refl) as (_ & Hrefused & _).
    exact (Hrefused eq_refl).
  - destruct (add_to_tree_guard (snd (Node None two_trees_state)) 0 5 _ _
                eq_refl eq_refl) as (_ & _ & Hlate).
    destruct (Hlate eq_refl eq_refl (or_intror eq_refl))
      as (st' & n' & p' & Hrun & Hn' & Hroot & Hpath & _).
    by exists st', n'.
Defined.

Lemma dict_keys_set_existing {K V} `{KeyLaws K} (k : K) (v v' : V) d :
  dict_get k d = Some v → dict_keys (dict_set k v' d) = dict_keys d.
Proof.
  induction d as [|[k0 v0] d IH]; simpl; [done|].
  destruct (key_eqb k k0) eqn:E.
  - apply key_eqb_eq in E. by subst.
  - intros Hget. simpl. by rewrite IH.
Qed.



(** ** Retrieval through a node *)


Lemma get_from_tree_absolute st (q r c : ref) (qn rn : NodeObj) (segs : list string) :
  nodes st !! q = Some qn → _root qn = Some r → nodes st !! r = Some rn →
  Forall clean_segment segs → segs ≠ [] →
  address (nodes st) r segs c →
  get_from_tree q (path_of segs) st = (Ok c, st).
Proof.
  intros Hq Hroot Hr Hclean Hne Ha.
  destruct (segments_of_path segs Hclean Hne) as [Habs _].
  destruct segs as [|k segs]; [done|].
  rewrite path_of_join by done. unfold get_from_tree.
  change (negb (Ascii.eqb "/" "/")) with false. cbv iota.
  rewrite run_bind, (get_node_Some _ _ _ Hq), Hroot.
  rewrite run_bind, (get_node_Some _ _ _ Hr).
  unfold Tree.__getitem__. rewrite <- path_of_join, Habs by done.
  apply getitem_from_list_address.
  inversion Ha as [|? n ? m ? ? Hn Hk Ha']; subst.
  assert (n = rn) as -> by congruence. eauto.
Qed.



(** ** Trees built without grafting *)

Lemma append_assoc (a b c : string) : (a +:+ b) +:+ c = a +:+ (b +:+ c).
Proof.
  induction a as [|ch a IH]; [done|].
  change ((String ch a +:+ b) +:+ c) with (String ch ((a +:+ b) +:+ c)).
  by rewrite IH.
Qed.

Lemma path_of_snoc sp k : path_of (sp ++ [k]) = path_of sp +:+ "/" +:+ k.
Proof.
  induction sp as [|k0 sp IH].
  - cbn. by rewrite append_empty_r.
  - change (path_of ((k0 :: sp) ++ [k])) with ("/" +:+ k0 +:+ path_of (sp ++ [k])).
    change (path_of (k0 :: sp)) with ("/" +:+ k0 +:+ path_of sp).
    by rewrite IH, !append_assoc.
Qed.

Lemma reachable_prepend h r m c :
  child_of h r m → reachable h m c → reachable h r c.
Proof.
  intros Hrm Hmc. induction Hmc as [c Hc | m' c _ IH Hc].
  - eapply reachable_below; [by apply reachable_child | done].
  - by eapply reachable_below.
Qed.

Lemma address_reachable h segs : ∀ r k c,
  address h r (k :: segs) c → reachable h r c.
Proof.
  induction segs as [|k' segs IH]; intros r k c Ha;
    inversion Ha as [|? n ? m ? ? Hn Hk Ha']; subst.
  - inversion Ha'; subst. apply reachable_child. by exists n, (Some k).
  - eapply reachable_prepend; [by exists n, (Some k) | by eapply IH].
Qed.

Lemma address_leaf h q n segs c :
  h !! q = Some n → _dict (_tree n) = [] → address h q segs c → segs = [] ∧ c = q.
Proof.
  intros Hq Hleaf Ha. inversion Ha as [|? n' ? m ? ? Hn Hk Ha']; subst; [done|].
  assert (n' = n) as -> by congruence. by rewrite Hleaf in Hk.
Qed.

Lemma lookup_attached h (p n : ref) pn nn path q :
  h !! p = Some pn → h !! n = Some nn →
  attached p n pn nn path h !! q
  = if decide (q = n)
    then Some (with_treepath path (with_root (_root pn) nn))
    else if decide (q = p)
         then Some (with_tree (mkTree (dict_set (name nn) n (_dict (_tree pn)))) pn)
         else h !! q.
Proof.
  intros Hp Hn.
  assert (Hpl : p < length h) by (by eapply lookup_lt_Some).
  assert (Hnl : n < length h) by (by eapply lookup_lt_Some).
  unfold attached. destruct (decide (q = n)) as [->|Hqn].
  - by rewrite list_lookup_insert_eq by (by rewrite length_insert).
  - rewrite list_lookup_insert_ne by done.
    destruct (decide (q = p)) as [->|Hqp].
    + by rewrite list_lookup_insert_eq.
    + by rewrite list_lookup_insert_ne.
Qed.

Lemma edge_attached h (p n : ref) pn nn path q nq k c :
  h !! p = Some pn → h !! n = Some nn → _dict (_tree nn) = [] →
  attached p n pn nn path h !! q = Some nq →
  dict_get k (_dict (_tree nq)) = Some c →
  (q = p ∧ k = name nn ∧ c = n)
  ∨ (q ≠ n ∧ ∃ nq0, h !! q = Some nq0 ∧ dict_get k (_dict (_tree nq0)) = Some c).
Proof.
  intros Hp Hn Hleaf. rewrite (lookup_attached _ _ _ _ _ _ _ Hp Hn).
  destruct (decide (q = n)) as [->|Hqn].
  - intros Hq. inversion Hq; subst nq. cbn [_tree with_treepath with_root].
    by rewrite Hleaf.
  - destruct (decide (q = p)) as [->|Hqp].
    + intros Hq. inversion Hq; subst nq. cbn [_tree _dict with_tree].
      destruct (decide (name nn = k)) as [<-|Hk].
      * rewrite dict_get_set_eq. intros Hc. inversion Hc. by left.
      * rewrite dict_get_set_ne by done. intros Hc. right. eauto.
    + intros Hq Hc. right. eauto.
Qed.

Lemma child_attached h (p n : ref) pn nn path q c :
  h !! p = Some pn → h !! n = Some nn → _dict (_tree nn) = [] →
  child_of (attached p n pn nn path h) q c →
  (q = p ∧ c = n) ∨ (q ≠ n ∧ child_of h q c).
Proof.
  intros Hp Hn Hleaf (nq & k & Hq & Hk).
  destruct (edge_attached _ _ _ _ _ _ _ _ _ _ Hp Hn Hleaf Hq Hk)
    as [(-> & _ & ->)|(Hqn & nq0 & Hq0 & Hk0)].
  - by left.
  - right. split; [done|]. by exists nq0, k.
Qed.

Lemma reachable_attached h (p n : ref) pn nn path r c :
  h !! p = Some pn → h !! n = Some nn → _dict (_tree nn) = [] →
  reachable (attached p n pn nn path h) r c →
  reachable h r c ∨ (c = n ∧ (r = p ∨ reachable h r p)).
Proof.
  intros Hp Hn Hleaf. induction 1 as [c Hc | m c _ IH Hc].
  - apply (child_attached _ _ _ _ _ _ _ _ Hp Hn Hleaf) in Hc as [[-> ->]|[_ Hc]].
    + right. split; [done|]. by left.
    + left. by apply reachable_child.
  - apply (child_attached _ _ _ _ _ _ _ _ Hp Hn Hleaf) in Hc as [[-> ->]|[Hmn Hc]].
    + destruct IH as [IH|[_ IH]]; right; (split; [done|]).
      * by right.
      * exact IH.
    + destruct IH as [IH|[-> _]]; [|done]. left. by eapply reachable_below.
Qed.

(** An address of the new store is one of the old store, or ends in the edge
    from [p] to [n], which only a [str] name makes. *)
Lemma address_attached h (p n : ref) pn nn path r segs c :
  h !! p = Some pn → h !! n = Some nn → p ≠ n → _dict (_tree nn) = [] →
  address (attached p n pn nn path h) r segs c →
  address h r segs c
  ∨ (c = n ∧ ∃ sp nm, name nn = Some nm ∧ segs = sp ++ [nm] ∧ address h r sp p).
Proof.
  intros Hp Hn Hne Hleaf. induction 1 as [r | r nr k m segs c Hr Hk _ IH].
  - left. apply address_here.
  - destruct (edge_attached _ _ _ _ _ _ _ _ _ _ Hp Hn Hleaf Hr Hk)
      as [(-> & Hname & ->)|(Hrn & nr0 & Hr0 & Hk0)].
    + right.
      assert (segs = [] ∧ c = n) as [-> ->].
      { destruct IH as [IH|(-> & sp & nm & _ & -> & IH)].
        - by eapply address_leaf.
        - destruct (address_leaf _ _ _ _ _ Hn Hleaf IH) as [_ Hpn]. congruence. }
      split; [done|]. exists [], k. split; [done|]. split; [done|]. apply address_here.
    + destruct IH as [IH|(-> & sp & nm & Hname & -> & IH)].
      * left. by eapply address_down.
      * right. split; [done|]. exists (k :: sp), nm. do 2 (split; [done|]).
        by eapply address_down.
Qed.

(** The store stays well formed when [n], unrooted, is filed in the Tree of
    [p] and takes [p]'s root, whether or not its path could be computed. *)
Lemma well_formed_attached st (p n : ref) pn nn path :
  well_formed st →
  nodes st !! p = Some pn → nodes st !! n = Some nn →
  is_some (_root pn) = true → _root nn = None → p ≠ n →
  (∀ pp nm, _treepath pn = Some pp → name nn = Some nm →
            path = Some (pp +:+ "/" +:+ nm)) →
  well_formed (set_nodes (attached p n pn nn path) st).
Proof.
  intros [Hself Hroots Hpaths Hleafs Hclosed Hkeys] Hp Hn Hproot Hnroot Hne Hpath.
  assert (Hleaf : _dict (_tree nn) = []) by eauto.
  assert (Hpsome : ∃ pr, _root pn = Some pr) by (destruct (_root pn); [eauto|done]).
  destruct Hpsome as [pr Hpr].
  pose proof (λ q, lookup_attached (nodes st) p n pn nn path q Hp Hn) as Hlook.
  assert (Hroot_back : ∀ r, is_Root (attached p n pn nn path (nodes st)) r →
                            is_Root (nodes st) r).
  { intros r (nr & Hr & Hcls). rewrite Hlook in Hr.
    destruct (decide (r = n)) as [->|?]; [|destruct (decide (r = p)) as [->|?]].
    - inversion Hr; subst nr. by exists nn.
    - inversion Hr; subst nr. by exists pn.
    - by exists nr. }
  assert (Hn_unreach : ∀ r, is_Root (nodes st) r → ¬ reachable (nodes st) r n).
  { intros r Hr Hreach. specialize (Hroots r n nn Hr Hreach Hn). congruence. }
  assert (Hn_not_root : __class__ nn ≠ Root_class).
  { intros Hcls. specialize (Hself n nn Hn Hcls). congruence. }
  split; cbn [nodes set_nodes].
  - intros r nr Hr Hcls. rewrite Hlook in Hr.
    destruct (decide (r = n)) as [->|?]; [|destruct (decide (r = p)) as [->|?]].
    + inversion Hr; subst nr. done.
    + inversion Hr; subst nr. by apply (Hself p pn).
    + by apply (Hself r nr).
  - intros r c cn Hr Hreach Hc. cbn [nodes set_nodes] in *.
    apply Hroot_back in Hr.
    apply (reachable_attached _ _ _ _ _ _ _ _ Hp Hn Hleaf) in Hreach.
    rewrite Hlook in Hc. destruct Hreach as [Hreach|[-> Hreach]].
    + destruct (decide (c = n)) as [->|?]; [by destruct (Hn_unreach r)|].
      destruct (decide (c = p)) as [->|?].
      * inversion Hc; subst cn. by apply (Hroots r p pn).
      * by apply (Hroots r c cn).
    + rewrite decide_True in Hc by done. inversion Hc; subst cn.
      cbn [_root with_treepath with_root]. destruct Hreach as [->|Hreach].
      * destruct Hr as (pn' & Hp' & Hcls). assert (pn' = pn) as -> by congruence.
        by apply (Hself p pn).
      * by apply (Hroots r p pn).
  - intros r segs c cn Hr Haddr Hc. cbn [nodes set_nodes] in *.
    apply Hroot_back in Hr.
    apply (address_attached _ _ _ _ _ _ _ _ _ Hp Hn Hne Hleaf) in Haddr.
    rewrite Hlook in Hc. destruct Haddr as [Haddr|(-> & sp & nm & Hname & -> & Haddr)].
    + destruct (decide (c = n)) as [->|?].
      { exfalso. destruct segs as [|k segs].
        - inversion Haddr; subst. destruct Hr as (nn' & Hn' & Hcls).
          assert (nn' = nn) as -> by congruence. done.
        - apply address_reachable in Haddr. by destruct (Hn_unreach r). }
      destruct (decide (c = p)) as [->|?].
      * inversion Hc; subst cn. by apply (Hpaths r segs p pn).
      * by apply (Hpaths r segs c cn).
    + rewrite decide_True in Hc by done. inversion Hc; subst cn.
      cbn [_treepath with_treepath]. rewrite path_of_snoc.
      specialize (Hpaths r sp p pn Hr Haddr Hp). by apply Hpath.
  - intros q nq Hq Hunrooted. rewrite Hlook in Hq.
    destruct (decide (q = n)) as [->|?]; [|destruct (decide (q = p)) as [->|?]].
    + inversion Hq; subst nq. cbn in Hunrooted. congruence.
    + inversion Hq; subst nq. cbn in Hunrooted. congruence.
    + by apply (Hleafs q nq).
  - intros q nq k c Hq Hk. unfold attached at 1. rewrite !length_insert.
    destruct (edge_attached _ _ _ _ _ _ _ _ _ _ Hp Hn Hleaf Hq Hk)
      as [(-> & _ & ->)|(_ & nq0 & Hq0 & Hk0)].
    + by eapply lookup_lt_Some.
    + by eapply Hclosed.
  - intros q nq k c cn Hq Hk Hc.
    assert (Hold : ∀ c0 cn0, nodes st !! c0 = Some cn0 →
                             attached p n pn nn path (nodes st) !! c0 = Some cn →
                             name cn = name cn0).
    { intros c0 cn0 Hc0 Hc'. rewrite Hlook in Hc'.
      destruct (decide (c0 = n)) as [->|?]; [|destruct (decide (c0 = p)) as [->|?]];
        inversion Hc'; subst; try congruence.
      - assert (cn0 = nn) as -> by congruence. done.
      - assert (cn0 = pn) as -> by congruence. done. }
    destruct (edge_attached _ _ _ _ _ _ _ _ _ _ Hp Hn Hleaf Hq Hk)
      as [(-> & -> & ->)|(_ & nq0 & Hq0 & Hk0)].
    + by rewrite (Hold n nn Hn Hc).
    + assert (Hcl : c < length (nodes st)) by (by eapply Hclosed).
      destruct (lookup_lt_is_Some_2 _ _ Hcl) as [cn0 Hc0].
      rewrite (Hold c cn0 Hc0 Hc). exact (Hkeys _ _ _ _ _ Hq0 Hk0 Hc0).
Qed.

Lemma well_formed_add st (p n : ref) u st' :
  well_formed st → add_to_tree p n st = (Ok u, st') → well_formed st'.
Proof.
  intros Hwf (pn & nn & pp & nm & Hp & Hn & Hproot & Hnroot & Hpath & Hname & Hne & ->)
         %add_to_tree_inv.
  apply well_formed_attached; try done. intros pp' nm' ? ?. congruence.
Qed.

(** A call of [add_to_tree] that fails has changed nothing, unless it fails
    on the concatenation of the path: then the node is already filed in the
    Tree and has the root, and keeps the path it had. *)
Lemma add_to_tree_failure st (p n : ref) e st' :
  add_to_tree p n st = (Err e, st') →
  st' = st
  ∨ ∃ pn nn, nodes st !! p = Some pn ∧ nodes st !! n = Some nn
      ∧ is_some (_root pn) = true ∧ _root nn = None ∧ p ≠ n
      ∧ (_treepath pn = None ∨ name nn = None)
      ∧ e = TypeError
      ∧ st' = set_nodes (attached p n pn nn (_treepath nn)) st.
Proof.
  destruct (nodes st !! p) as [pn|] eqn:Hp.
  - destruct (is_some (_root pn)) eqn:Hr.
    + destruct (nodes st !! n) as [nn|] eqn:Hn.
      * destruct (_root nn) as [nr|] eqn:Hnr.
        -- unfold add_to_tree.
           rewrite run_bind, (get_node_Some _ _ _ Hp), run_bind, Hr. cbn [assert ret].
           rewrite run_bind, (get_node_Some _ _ _ Hn), run_bind, Hnr.
           intros H. left. by inversion H.
        -- destruct (add_to_tree_run st p n pn nn Hp Hn Hr Hnr) as [Hne ->].
           intros H. right. exists pn, nn. do 5 (split; [done|]).
           destruct (_treepath pn) as [pp|]; [destruct (name nn) as [nm|]|];
             inversion H; subst; eauto.
      * unfold add_to_tree.
        rewrite run_bind, (get_node_Some _ _ _ Hp), run_bind, Hr. cbn [assert ret].
        rewrite run_bind. unfold get_node. rewrite Hn. intros H. left. by inversion H.
    + unfold add_to_tree.
      rewrite run_bind, (get_node_Some _ _ _ Hp), run_bind, Hr.
      intros H. left. by inversion H.
  - unfold add_to_tree. rewrite run_bind. unfold get_node. rewrite Hp.
    intros H. left. by inversion H.
Qed.

Lemma well_formed_add_failed st (p n : ref) e st' :
  well_formed st → add_to_tree p n st = (Err e, st') → well_formed st'.
Proof.
  intros Hwf [->|(pn & nn & Hp & Hn & Hr & Hnr & Hne & Hnone & _ & ->)]%add_to_tree_failure;
    [done|].
  apply well_formed_attached; try done.
  intros pp nm ? ?. destruct Hnone; congruence.
Qed.

Lemma reachable_ends h r c :
  reachable h r c → (∃ m, child_of h r m) ∧ (∃ m, child_of h m c).
Proof. induction 1 as [c Hc | m c _ [IH _] Hc]; eauto. Qed.

Lemma well_formed_alloc st (new : NodeObj) :
  well_formed st →
  _dict (_tree new) = [] →
  (__class__ new = Root_class ∧ _root new = Some (length (nodes st))
   ∧ _treepath new = Some "")
  ∨ (__class__ new = Node_class ∧ _root new = None) →
  well_formed (set_nodes (λ h, h ++ [new]) st).
Proof.
  intros [Hself Hroots Hpaths Hleafs Hclosed Hkeys] Hleaf Hnew.
  set (L := length (nodes st)) in *.
  assert (Hold : ∀ q nq, nodes st !! q = Some nq → q < L)
    by (intros; by eapply lookup_lt_Some).
  assert (Hedge : ∀ q c, child_of (nodes st ++ [new]) q c → child_of (nodes st) q c).
  { intros q c (nq & k & Hq & Hk). apply lookup_snoc_Some in Hq as [[_ Hq]|[_ <-]].
    - by exists nq, k.
    - by rewrite Hleaf in Hk. }
  assert (Hreach : ∀ r c, reachable (nodes st ++ [new]) r c → reachable (nodes st) r c).
  { induction 1 as [c Hc | m c _ IH Hc].
    - apply reachable_child. by apply Hedge.
    - eapply reachable_below; [exact IH | by apply Hedge]. }
  assert (Haddr : ∀ r segs c, address (nodes st ++ [new]) r segs c →
                              address (nodes st) r segs c).
  { induction 1 as [r | r nr k m segs c Hr Hk _ IH]; [apply address_here|].
    apply lookup_snoc_Some in Hr as [[_ Hr]|[_ <-]].
    - by eapply address_down.
    - by rewrite Hleaf in Hk. }
  assert (Htarget : ∀ m c, child_of (nodes st) m c → c < L).
  { intros m c (nm & k & Hm & Hk). by eapply Hclosed. }
  assert (Hsource : ∀ m c, child_of (nodes st) m c → m < L).
  { intros m c (nm & k & Hm & Hk). by eapply Hold. }
  assert (HRoot : ∀ r, r < L → is_Root (nodes st ++ [new]) r → is_Root (nodes st) r).
  { intros r Hr (nr & Hlook & Hcls).
    apply lookup_snoc_Some in Hlook as [[_ Hlook]|[-> _]]; [by exists nr | lia]. }
  split; cbn [nodes set_nodes].
  - intros r nr Hr Hcls. apply lookup_snoc_Some in Hr as [[_ Hr]|[-> <-]].
    + by apply (Hself r nr).
    + destruct Hnew as [(_ & Hroot & _)|(Hnode & _)]; [done|congruence].
  - intros r c cn Hr Hrc Hc. cbn [nodes set_nodes] in *.
    apply Hreach in Hrc. destruct (reachable_ends _ _ _ Hrc) as [[m1 H1] [m2 H2]].
    apply Hsource in H1. apply Htarget in H2.
    apply lookup_snoc_Some in Hc as [[_ Hc]|[-> _]]; [|lia].
    apply (Hroots r c cn); [by apply HRoot | done | done].
  - intros r segs c cn Hr Hrc Hc. cbn [nodes set_nodes] in *.
    apply Haddr in Hrc. destruct segs as [|k segs].
    + inversion Hrc; subst c.
      apply lookup_snoc_Some in Hc as [[Hlt Hc]|[-> <-]].
      * apply (Hpaths r [] r cn); [by apply HRoot | apply address_here | done].
      * destruct Hr as (nr & Hlook & Hcls).
        apply lookup_snoc_Some in Hlook as [[Hlt _]|[_ <-]]; [lia|].
        destruct Hnew as [(_ & _ & Hpath)|(Hnode & _)]; [done|congruence].
    + pose proof (address_reachable _ _ _ _ _ Hrc) as Hreach'.
      destruct (reachable_ends _ _ _ Hreach') as [[m1 H1] [m2 H2]].
      apply Hsource in H1. apply Htarget in H2.
      apply lookup_snoc_Some in Hc as [[_ Hc]|[-> _]]; [|lia].
      apply (Hpaths r (k :: segs) c cn); [by apply HRoot | done | done].
  - intros q nq Hq Hunrooted. apply lookup_snoc_Some in Hq as [[_ Hq]|[_ <-]].
    + by apply (Hleafs q nq).
    + done.
  - intros q nq k c Hq Hk. rewrite length_app. simpl.
    apply lookup_snoc_Some in Hq as [[_ Hq]|[_ <-]].
    + specialize (Hclosed q nq k c Hq Hk). lia.
    + by rewrite Hleaf in Hk.
  - intros q nq k c cn Hq Hk Hc.
    apply lookup_snoc_Some in Hq as [[_ Hq]|[_ <-]]; [|by rewrite Hleaf in Hk].
    pose proof (Hclosed q nq k c Hq Hk) as Hlt.
    apply lookup_snoc_Some in Hc as [[_ Hc]|[-> _]]; [|lia].
    exact (Hkeys _ _ _ _ _ Hq Hk Hc).
Qed.

Lemma Root__init__run nm st :
  Root__init__ nm st
  = (Ok (length (nodes st)),
     set_nodes (λ h, h ++ [mkNode Root_class nm Tree.__init__ (Some "")
                             (Some (length (nodes st))) [] (Some "root")]) st).
Proof.
  assert (Hlast : ∀ (l : list NodeObj) x, (l ++ [x]) !! length l = Some x).
  { intros l x. rewrite lookup_app_r by lia. by rewrite Nat.sub_diag. }
  assert (Hset : ∀ (l : list NodeObj) x y, <[length l := y]> (l ++ [x]) = l ++ [y]).
  { intros l x y. rewrite insert_app_r_alt by lia. by rewrite Nat.sub_diag. }
  unfold Root__init__, Node__init__, alloc_node.
  rewrite run_bind. cbv beta iota.
  unfold modify_node, bind, ret. cbn [nodes set_nodes].
  rewrite Hlast. cbn [nodes set_nodes].
  rewrite !Hset, Hlast. cbn [nodes set_nodes].
  rewrite !Hset, Hlast.
  unfold set_nodes. cbn. by rewrite !Hset.
Qed.

Lemma well_formed_empty : well_formed empty_state.
Proof.
  split; try (intros ? ? H; by inversion H).
Qed.

Lemma well_formed_build op st : well_formed st → well_formed (snd (run_build op st)).
Proof.
  intros Hwf. destruct op as [nm|nm|p c]; cbn [run_build].
  - rewrite run_bind, Root__init__run. cbn [snd ret].
    apply well_formed_alloc; [done | done | left; done].
  - unfold Node, Node__init__, alloc_node. rewrite run_bind. cbn [snd ret].
    apply well_formed_alloc; [done | done | right; done].
  - destruct (add_to_tree p c st) as [[[]|e] st'] eqn:Hrun; cbn [snd].
    + by eapply well_formed_add.
    + by eapply well_formed_add_failed.
Qed.

Lemma well_formed_builds ops : ∀ st, well_formed st → well_formed (run_builds ops st).
Proof.
  induction ops as [|op ops IH]; intros st Hwf; [done|].
  cbn [run_builds]. apply IH. by apply well_formed_build.
Qed.

(** X8. Whatever sequence of [Root(name)], [Node(name)] and
    [parent.add_to_tree(child)] calls a program makes from an empty store,
    a name being [None] or a [str] and failed calls included, every node
    reachable from a Root through the Trees, under whatever keys, has that
    Root as its [root], and the path of every node that a chain of [str]
    keys leads to from a Root is the '/'-led address of that chain.  A call
    that fails on the concatenation of the path leaves its node in the Tree
    with the root and without a path; no chain of [str] keys leads from a
    Root to a node without a path. *)
Theorem built_trees_consistent (ops : list build_op) :
  roots_consistent (run_builds ops empty_state)
  ∧ paths_consistent (run_builds ops empty_state)
  ∧ (∀ r segs c cn,
       is_Root (nodes (run_builds ops empty_state)) r →
       nodes (run_builds ops empty_state) !! c = Some cn →
       _treepath cn = None →
       ¬ address (nodes (run_builds ops empty_state)) r segs c).
Proof.
  pose proof (well_formed_builds ops empty_state well_formed_empty) as Hwf.
  split; [apply (wf_roots _ Hwf) | split; [apply (wf_paths _ Hwf)|]].
  intros r segs c cn Hr Hc Hnone Ha.
  pose proof (wf_paths _ Hwf r segs c cn Hr Ha Hc) as Hp. congruence.
Qed.

(** [R = Root('R'); n = Node(None); R.add_to_tree(n)]: the call raises, and
    [n] is left in the Tree of [R] under the key None, with root [R] and
    no path. *)
Lemma built_trees_consistent_witness :
  add_to_tree 0 1 (run_builds [Build_Root (Some "R"); Build_Node None] empty_state)
  = (Err TypeError,
     run_builds [Build_Root (Some "R"); Build_Node None; Build_add 0 1] empty_state)
  ∧ child_of (nodes (run_builds [Build_Root (Some "R"); Build_Node None; Build_add 0 1]
                       empty_state)) 0 1
  ∧ (∃ cn, nodes (run_builds [Build_Root (Some "R"); Build_Node None; Build_add 0 1]
                    empty_state) !! 1 = Some cn
           ∧ _root cn = Some 0 ∧ _treepath cn = None)
  ∧ ∀ segs, ¬ address (nodes (run_builds [Build_Root (Some "R"); Build_Node None;
                                           Build_add 0 1] empty_state)) 0 segs 1.
Proof.
  destruct (built_trees_consistent [Build_Root (Some "R"); Build_Node None; Build_add 0 1])
    as (Hroots & _ & Hnone).
  assert (Hchild : child_of (nodes (run_builds [Build_Root (Some "R"); Build_Node None;
                                                Build_add 0 1] empty_state)) 0 1).
  { eexists _, None. split; reflexivity. }
  split; [reflexivity|]. split; [exact Hchild|]. split.
  - eexists. split; [reflexivity|]. split; [|reflexivity].
    eapply Hroots; [|by apply reachable_child|reflexivity]. by eexists.
  - intros segs. eapply Hnone; [by eexists|reflexivity|reflexivity].
Defined.

(** ** Grafting *)

Lemma same_trees_refl st : same_trees st st.
Proof. split; [done|]. intros q n Hq. by exists n. Qed.

Lemma same_trees_trans st1 st2 st3 :
  same_trees st1 st2 → same_trees st2 st3 → same_trees st1 st3.
Proof.
  intros [Hl1 H1] [Hl2 H2]. split; [congruence|].
  intros q n Hq.
  destruct (H1 _ _ Hq) as (n2 & Hq2 & ? & ? & ? & ? & ?).
  destruct (H2 _ _ Hq2) as (n3 & Hq3 & ? & ? & ? & ? & ?).
  exists n3. split; [done|]. repeat split; congruence.
Qed.

Lemma metadata_setter_same_trees r x st u st' :
  metadata_setter r x st = (Ok u, st') → same_trees st st'.
Proof.
  unfold metadata_setter.
  intros (o & ? & [-> _]%get_metadata_inv & H)%bind_Ok_inv.
  apply modify_node_inv in H as (n0 & Hr & ->).
  split; [cbn [nodes set_nodes]; by rewrite length_insert|].
  intros q n Hq. cbn [nodes set_nodes].
  destruct (decide (q = r)) as [->|Hne].
  - rewrite list_lookup_insert_eq by (by eapply lookup_lt_Some).
    assert (n = n0) as -> by congruence. by eexists.
  - rewrite list_lookup_insert_ne by done. by exists n.
Qed.

Lemma merge_one_same_trees copy oldr node k st u st' :
  merge_one copy oldr node k st = (Ok u, st') → same_trees st st'.
Proof.
  unfold merge_one.
  intros (d & st1 & Hd & H)%bind_Ok_inv.
  assert (st1 = st) as ->.
  { destruct oldr; [by apply metadata_inv in Hd as [-> _] | discriminate]. }
  destruct (dict_get k d) as [md|]; [|discriminate].
  apply bind_Ok_inv in H as (x & st2 & Hx & H).
  assert (Hnodes : nodes st2 = nodes st).
  { destruct copy.
    - unfold Metadata.copy in Hx.
      apply bind_Ok_inv in Hx as (o & ? & [-> _]%get_metadata_inv & Hx).
      by inversion Hx.
    - by inversion Hx. }
  apply bind_Ok_inv in H as (r & ? & Hr & H).
  pose proof (getattr_root_inv _ _ _ _ Hr) as ->.
  destruct r as [r|]; [|discriminate].
  apply metadata_setter_same_trees in H as [Hl H].
  split; [by rewrite Hl, Hnodes|].
  intros q n Hq. apply H. by rewrite Hnodes.
Qed.

Lemma merge_root_metadata_same_trees copy oldr node st u st' :
  merge_root_metadata copy oldr node st = (Ok u, st') → same_trees st st'.
Proof.
  unfold merge_root_metadata.
  intros (d0 & st1 & Hd & H)%bind_Ok_inv.
  assert (st1 = st) as ->.
  { destruct oldr; [by apply metadata_inv in Hd as [-> _] | discriminate]. }
  destruct u.
  refine (for_keys_invariant (λ _ cur, same_trees st cur) (λ _, True)
            _ _ _ _ _ _ [] _ _ _ (same_trees_refl st) H).
  - intros k P cur cur' _ Hcur Hstep.
    eapply same_trees_trans; [exact Hcur|]. by eapply merge_one_same_trees.
  - intros cur n cur' (d & ? & Hd' & Hn)%bind_Ok_inv.
    inversion Hn; subst.
    destruct oldr; [by apply metadata_inv in Hd' as [-> _] | discriminate].
  - by apply Forall_forall.
Qed.

(** The steps a successful [graft] has gone through. *)
Lemma graft_steps s t mode st r st' :
  graft s (PNode t) mode st = (Ok r, st') →
  ∃ sn tn p k nl u sta stb stc,
    nodes st !! s = Some sn ∧ is_some (_root sn) = true
    ∧ nodes st !! t = Some tn ∧ is_some (_root tn) = true
    ∧ _treepath sn = Some p ∧ list_pop (split "/" p) = Some (k, nl)
    ∧ get_from_tree s (join "/" nl) st = (Ok u, st)
    ∧ Tree.__delitem__ u k st = (Ok tt, sta)
    ∧ modify_node s (with_root None) sta = (Ok tt, stb)
    ∧ add_to_tree t s stb = (Ok tt, stc)
    ∧ same_trees stc st'
    ∧ getattr_root (PNode t) st' = (Ok r, st').
Proof.
  unfold graft.
  intros (? & ? & [-> (sn & Hs & ->)]%root_inv & H)%bind_Ok_inv.
  apply bind_Ok_inv in H as (? & ? & [Hsr ->]%assert_inv & H).
  apply bind_Ok_inv in H as (? & ? & [-> (tn & Ht & ->)]%root_inv & H).
  apply bind_Ok_inv in H as (? & ? & [Htr ->]%assert_inv & H).
  apply bind_Ok_inv in H as (old_root & ? & [-> (sn1 & Hs1 & ->)]%root_inv & H).
  apply bind_Ok_inv in H as (sn2 & ? & [-> Hs2]%get_node_inv & H).
  assert (sn1 = sn) as -> by congruence.
  assert (sn2 = sn) as -> by congruence.
  destruct (_treepath sn) as [p|] eqn:Hp; [|discriminate].
  destruct (list_pop _) as [[k nl]|] eqn:Hpop; [|discriminate].
  apply bind_Ok_inv in H as (u & st0 & Hget & H).
  pose proof (get_from_tree_inv _ _ _ _ _ Hget) as ->.
  apply bind_Ok_inv in H as ([] & sta & Hdel & H).
  apply bind_Ok_inv in H as ([] & stb & Hmod & H).
  apply bind_Ok_inv in H as ([] & stc & Hadd & H).
  apply bind_Ok_inv in H as (? & ? & [Hvalid ->]%assert_inv & H).
  apply bind_Ok_inv in H as ([] & std & Hmerge & H).
  pose proof (getattr_root_inv _ _ _ _ H) as ->.
  exists sn, tn, p, k, nl, u, sta, stb, stc.
  do 10 (split; [done|]). split; [|done].
  destruct (py_is_bool mode false).
  - inversion Hmerge; subst. apply same_trees_refl.
  - destruct (py_is_bool mode true); by eapply merge_root_metadata_same_trees.
Qed.

Lemma delitem_inv owner x st u st' :
  Tree.__delitem__ owner x st = (Ok u, st') →
  ∃ n d', nodes st !! owner = Some n
          ∧ dict_del (Some x) (_dict (_tree n)) = Some d'
          ∧ st' = set_nodes (λ h : list NodeObj, <[owner := with_tree (mkTree d') n]> h) st.
Proof.
  unfold Tree.__delitem__.
  intros (n & ? & [-> Hn]%get_node_inv & H)%bind_Ok_inv.
  destruct (dict_del (Some x) (_dict (_tree n))) as [d'|] eqn:Hd; [|discriminate].
  apply modify_node_inv in H as (n0 & Hn0 & ->).
  assert (n0 = n) as -> by congruence. by exists n, d'.
Qed.

(** What a successful [graft] of [s] onto [t] has done to the two nodes and
    to the Tree that held [s]. *)
Lemma graft_moves s t mode st r st' :
  graft s (PNode t) mode st = (Ok r, st') →
  ∃ sn tn pp nm k u un d' sn' tn',
    nodes st !! s = Some sn ∧ nodes st !! t = Some tn ∧ t ≠ s
    ∧ _treepath tn = Some pp ∧ r = _root tn ∧ is_some (_root tn) = true
    ∧ nodes st !! u = Some un ∧ dict_del (Some k) (_dict (_tree un)) = Some d'
    ∧ (∃ p nl, _treepath sn = Some p ∧ list_pop (split "/" p) = Some (k, nl)
               ∧ get_from_tree s (join "/" nl) st = (Ok u, st))
    ∧ nodes st' !! s = Some sn'
    ∧ __class__ sn' = __class__ sn ∧ name sn' = name sn
    ∧ _root sn' = _root tn
    ∧ (name sn = Some nm ∧ _treepath sn' = Some (pp +:+ "/" +:+ nm))
    ∧ _dict (_tree sn') = (if decide (u = s) then d' else _dict (_tree sn))
    ∧ nodes st' !! t = Some tn'
    ∧ __class__ tn' = __class__ tn ∧ name tn' = name tn
    ∧ _root tn' = _root tn ∧ _treepath tn' = _treepath tn
    ∧ _dict (_tree tn')
      = dict_set (name sn) s (if decide (u = t) then d' else _dict (_tree tn))
    ∧ (∀ q n, q ≠ s → q ≠ t → nodes st !! q = Some n →
         ∃ n', nodes st' !! q = Some n'
               ∧ _root n' = _root n ∧ _treepath n' = _treepath n
               ∧ _dict (_tree n') = (if decide (q = u) then d' else _dict (_tree n)))
    ∧ List.length (nodes st') = List.length (nodes st).
Proof.
  intros (sn & tn & p & k & nl & u & sta & stb & stc & Hs & Hsr & Ht & Htr & Hp
          & Hpop & Hget & Hdel & Hmod & Hadd & [Hlen Hsame] & Hres)%graft_steps.
  apply delitem_inv in Hdel as (un & d' & Hu & Hd' & ->).
  apply modify_node_inv in Hmod as (sna & Hsa & ->).
  apply add_to_tree_inv in Hadd
    as (tnb & snb & pp & nm & Htb & Hsb & Htbr & _ & Htbp & Hnm & Hne & ->).
  cbn [nodes set_nodes] in *.
  assert (Hlu : u < length (nodes st)) by (by eapply lookup_lt_Some).
  assert (Hls : s < length (nodes st)) by (by eapply lookup_lt_Some).
  assert (Hlt : t < length (nodes st)) by (by eapply lookup_lt_Some).
  (* the grafted node and the target as [add_to_tree] found them *)
  assert (Hsna : sna = if decide (u = s) then with_tree (mkTree d') sn else sn).
  { destruct (decide (u = s)) as [->|Hus].
    - rewrite list_lookup_insert_eq in Hsa by done.
      assert (un = sn) by congruence. congruence.
    - rewrite list_lookup_insert_ne in Hsa by done. congruence. }
  assert (Hsnb : snb = with_root None sna).
  { rewrite list_lookup_insert_eq in Hsb by (by rewrite length_insert). congruence. }
  assert (Htnb : tnb = if decide (u = t) then with_tree (mkTree d') tn else tn).
  { rewrite list_lookup_insert_ne in Htb by done.
    destruct (decide (u = t)) as [->|Hut].
    - rewrite list_lookup_insert_eq in Htb by done.
      assert (un = tn) by congruence. congruence.
    - rewrite list_lookup_insert_ne in Htb by done. congruence. }
  assert (Hlook : ∀ q,
    attached t s tnb snb (Some (pp +:+ "/" +:+ nm))
      (<[s := with_root None sna]> (<[u := with_tree (mkTree d') un]> (nodes st))) !! q
    = if decide (q = s)
      then Some (with_treepath (Some (pp +:+ "/" +:+ nm)) (with_root (_root tnb) snb))
      else if decide (q = t)
           then Some (with_tree (mkTree (dict_set (name snb) s (_dict (_tree tnb)))) tnb)
           else if decide (q = u) then Some (with_tree (mkTree d') un)
                else nodes st !! q).
  { intros q. rewrite (lookup_attached _ _ _ _ _ _ _ Htb Hsb).
    destruct (decide (q = s)) as [->|Hqs]; [done|].
    destruct (decide (q = t)) as [->|Hqt]; [done|].
    rewrite list_lookup_insert_ne by done.
    destruct (decide (q = u)) as [->|Hqu].
    - by rewrite list_lookup_insert_eq.
    - by rewrite list_lookup_insert_ne. }
  assert (Hname : name snb = name sn).
  { rewrite Hsnb, Hsna. by destruct (decide (u = s)). }
  assert (Htroot : _root tnb = _root tn ∧ _treepath tnb = _treepath tn).
  { rewrite Htnb. by destruct (decide (u = t)). }
  destruct Htroot as [Htroot Htpath].
  (* the result is the target's root, read after the loops *)
  destruct (Hsame t _ ltac:(rewrite Hlook, decide_False, decide_True by done; done))
    as (tn' & Ht' & Htc' & Htn' & Htt' & Htp' & Htr').
  destruct (Hsame s _ ltac:(rewrite Hlook, decide_True by done; done))
    as (sn' & Hs' & Hsc' & Hsn' & Hst' & Hsp' & Hsr').
  cbn in Htc', Htn', Htt', Htp', Htr', Hsc', Hsn', Hst', Hsp', Hsr'.
  unfold getattr_root in Hres.
  apply root_inv in Hres as [_ (tn2 & Ht2 & ->)].
  assert (tn2 = tn') as -> by congruence.
  exists sn, tn, pp, nm, k, u, un, d', sn', tn'.
  split; [done|]. split; [done|]. split; [done|].
  split; [congruence|]. split; [congruence|]. split; [done|].
  split; [done|]. split; [done|]. split; [by exists p, nl|].
  split; [done|].
  split; [rewrite Hsc', Hsnb, Hsna; by destruct (decide (u = s))|].
  split; [congruence|]. split; [congruence|].
  split; [split; congruence|].
  split; [rewrite Hst', Hsnb, Hsna; by destruct (decide (u = s))|].
  split; [done|].
  split; [rewrite Htc', Htnb; by destruct (decide (u = t))|].
  split; [rewrite Htn', Htnb; by destruct (decide (u = t))|].
  split; [congruence|]. split; [congruence|].
  split.
  { rewrite Htt'. cbn. rewrite Hname, Htnb. by destruct (decide (u = t)). }
  split; [|rewrite Hlen; unfold attached; by rewrite !length_insert].
  intros q n Hqs Hqt Hq.
  destruct (decide (q = u)) as [->|Hqu].
  - destruct (Hsame u (with_tree (mkTree d') un)
                ltac:(rewrite Hlook, !decide_False, decide_True by done; done))
      as (n' & Hn' & _ & _ & Ht'' & Hp'' & Hr'').
    assert (n = un) as -> by congruence.
    exists n'. rewrite Ht''. by repeat split.
  - destruct (Hsame q n
                ltac:(rewrite Hlook, !decide_False by done; done))
      as (n' & Hn' & _ & _ & Ht'' & Hp'' & Hr'').
    exists n'. rewrite Ht''. by repeat split.
Qed.

(** X9. [graft] checks that the grafted node and then the target are rooted
    before it changes anything: an unrooted node is refused whatever the
    target is, and for a rooted node an unrooted target is refused, each with
    its own assertion message; a target that is no node has no [root] and
    raises AttributeError.  The store is as it was in each case. *)
Theorem graft_refusals st (s : ref) (sn : NodeObj) (v m : pyval) :
  nodes st !! s = Some sn →
  (_root sn = None →
     graft s v m st = (Err (AssertionError graft_unrooted_msg), st))
  ∧ (is_some (_root sn) = true →
     match v with
     | PNode t =>
         ∀ tn, nodes st !! t = Some tn → _root tn = None →
               graft s v m st = (Err (AssertionError graft_onto_unrooted_msg), st)
     | _ => graft s v m st = (Err AttributeError, st)
     end).
Proof.
  intros Hs. split.
  - intros Hroot. unfold graft, root.
    rewrite !run_bind, (get_node_Some _ _ _ Hs). cbn [ret]. by rewrite Hroot.
  - intros Hroot. destruct (_root sn) as [r|] eqn:Hr; [clear Hroot|done].
    unfold graft, root.
    rewrite run_bind, run_bind, (get_node_Some _ _ _ Hs). cbn [ret].
    rewrite Hr. cbn [is_some]. rewrite run_bind. cbn [assert ret].
    destruct v as [| | | |t|]; try reflexivity.
    intros tn Ht Htr. unfold getattr_root, root.
    rewrite run_bind, run_bind, (get_node_Some _ _ _ Ht). cbn [ret].
    by rewrite Htr.
Qed.

Lemma graft_refusals_witness :
  graft 5 (PNode 4) (PBool true) (snd (Node (Some "z") two_trees_state))
  = (Err (AssertionError graft_unrooted_msg), snd (Node (Some "z") two_trees_state))
  ∧ graft 2 (PStr "S") (PBool true) two_trees_state
    = (Err AttributeError, two_trees_state).
Proof.
  split.
  - by apply (graft_refusals (snd (Node (Some "z") two_trees_state)) 5 _ (PNode 4) (PBool true)
                eq_refl).
  - by apply (graft_refusals two_trees_state 2 _ (PStr "S") (PBool true) eq_refl).
Defined.

(** X10. Once [graft] of [s] onto [t] has returned, [t] is another node than
    [s], the name of [s] is a [str], the value returned is the root [t] had,
    [s] has that root and the path of [t] followed by '/' and its name, and
    the Tree of [t] holds [s] under its name.  No other node has a new root
    or path: [graft] rewrites these two fields on the grafted node alone,
    whatever hangs below it. *)
Theorem graft_result st (s t : ref) (mode : pyval) r st' :
  graft s (PNode t) mode st = (Ok r, st') →
  t ≠ s
  ∧ ∃ sn tn pp nm sn',
      nodes st !! s = Some sn ∧ nodes st !! t = Some tn
      ∧ _treepath tn = Some pp ∧ name sn = Some nm
      ∧ r = _root tn ∧ is_some r = true
      ∧ nodes st' !! s = Some sn'
      ∧ _root sn' = r
      ∧ _treepath sn' = Some (pp +:+ "/" +:+ nm)
      ∧ address (nodes st') t [nm] s
      ∧ (∀ q n, q ≠ s → nodes st !! q = Some n →
           ∃ n', nodes st' !! q = Some n'
                 ∧ _root n' = _root n ∧ _treepath n' = _treepath n).
Proof.
  intros (sn & tn & pp & nm & k & u & un & d' & sn' & tn' & Hs & Ht & Hne & Htp & -> & Htr
          & Hu & Hd' & _ & Hs' & _ & _ & Hsr' & [Hnm Hsp'] & _ & Ht' & _ & _ & Htr' & Htp'
          & Htt' & Hrest & _)%graft_moves.
  split; [done|]. exists sn, tn, pp, nm, sn'.
  do 9 (split; [done|]). split.
  - eapply address_down; [exact Ht'| |apply address_here].
    rewrite Htt', Hnm. apply dict_get_set_eq.
  - intros q n Hqs Hq. destruct (decide (q = t)) as [->|Hqt].
    + assert (n = tn) as -> by congruence. by exists tn'.
    + destruct (Hrest q n Hqs Hqt Hq) as (n' & Hn' & ? & ? & _). by exists n'.
Qed.

Lemma graft_result_witness :
  4 ≠ 2
  ∧ ∃ sn', nodes grafted_state !! 2 = Some sn'
           ∧ _root sn' = Some 4 ∧ _treepath sn' = Some "/x"
           ∧ address (nodes grafted_state) 4 ["x"] 2.
Proof.
  assert (Hrun : graft 2 (PNode 4) (PBool true) two_trees_state
                 = (Ok (Some 4), grafted_state)) by (vm_compute; reflexivity).
  destruct (graft_result _ _ _ _ _ _ Hrun)
    as (Hne & sn & tn & pp & nm & sn' & Hs & Ht & Hpp & Hnm & _ & _ & Hs' & Hr & Hp & Ha & _).
  split; [done|]. exists sn'.
  inversion Hs; subst sn. inversion Ht; subst tn. inversion Hpp; subst pp.
  inversion Hnm; subst nm. by repeat split.
Defined.

(** ** Cutting a branch off *)

Lemma lookup_snoc_last {A} (l : list A) x : (l ++ [x]) !! length l = Some x.
Proof. rewrite lookup_app_r by lia. by rewrite Nat.sub_diag. Qed.

(** X11. [cut_from_tree] makes a new Root named after the node and grafts
    the node onto it.  Once it has returned, the value returned is that new
    Root, the last node of the store; the name is a [str]; the Tree of the
    new Root holds the node under its name and nothing else, and the node
    has the new Root as its root and ['/' + name] as its path. *)
Theorem cut_from_tree_result st (s : ref) (m : pyval) r st' :
  cut_from_tree s m st = (Ok r, st') →
  ∃ sn nm sn' rn',
    nodes st !! s = Some sn ∧ name sn = Some nm
    ∧ r = Some (length (nodes st))
    ∧ length (nodes st') = S (length (nodes st))
    ∧ nodes st' !! length (nodes st) = Some rn'
    ∧ __class__ rn' = Root_class ∧ name rn' = name sn
    ∧ _root rn' = Some (length (nodes st)) ∧ _treepath rn' = Some ""
    ∧ _dict (_tree rn') = [(name sn, s)]
    ∧ nodes st' !! s = Some sn'
    ∧ _root sn' = Some (length (nodes st))
    ∧ _treepath sn' = Some ("/" +:+ nm).
Proof.
  unfold cut_from_tree.
  intros (sn & ? & [-> Hs]%get_node_inv & H)%bind_Ok_inv.
  rewrite run_bind, Root__init__run in H.
  apply graft_moves in H
    as (sn0 & tn & pp & nm & k & u & un & d' & sn' & tn' & Hs0 & Ht & Hne & Htp & -> & _
        & Hu & Hd' & _ & Hs' & _ & Hsn' & Hsr' & [Hnm Hsp'] & _ & Ht' & Htc' & Htn' & Htr'
        & Htp' & Htt' & _ & Hlen).
  cbn [nodes set_nodes] in *.
  rewrite lookup_snoc_last in Ht. inversion Ht; subst tn. clear Ht.
  rewrite lookup_app_l in Hs0 by (by eapply lookup_lt_Some).
  assert (sn0 = sn) as -> by congruence.
  cbn in Htp. inversion Htp; subst pp. cbn in *.
  rewrite decide_False in Htt'.
  2:{ intros ->. rewrite lookup_snoc_last in Hu. inversion Hu; subst un.
      discriminate Hd'. }
  exists sn, nm, sn', tn'. rewrite length_app in Hlen. cbn in Hlen.
  split; [done|]. split; [done|]. split; [done|]. split; [lia|].
  do 8 (split; [done|]). exact Hsp'.
Qed.

Lemma cut_from_tree_result_witness :
  ∃ st' sn', cut_from_tree 3 (PBool false) two_trees_state = (Ok (Some 5), st')
             ∧ nodes st' !! 3 = Some sn'
             ∧ _root sn' = Some 5 ∧ _treepath sn' = Some "/y".
Proof.
  destruct (cut_from_tree 3 (PBool false) two_trees_state) as [r st'] eqn:Hrun.
  assert (Hr : r = Ok (Some 5)) by (vm_compute in Hrun; congruence).
  subst r.
  destruct (cut_from_tree_result _ _ _ _ _ Hrun)
    as (sn & nm & sn' & rn' & Hs & Hnm & _ & _ & _ & _ & _ & _ & _ & _ & Hs' & Hr' & Hp').
  inversion Hs; subst sn. inversion Hnm; subst nm. by exists st', sn'.
Defined.



(** ** Grafting a node that lies deeper *)

Lemma address_snoc_inv h segs : ∀ r k c,
  address h r (segs ++ [k]) c →
  ∃ u un, address h r segs u ∧ h !! u = Some un
          ∧ dict_get (Some k) (_dict (_tree un)) = Some c.
Proof.
  induction segs as [|k0 segs IH]; intros r k c Ha; simpl in Ha.
  - inversion Ha as [|? n ? m ? ? Hn Hk Ha']; subst.
    inversion Ha'; subst. exists r, n. split; [apply address_here|done].
  - inversion Ha as [|? n ? m ? ? Hn Hk Ha']; subst.
    destruct (IH _ _ _ Ha') as (u & un & Hu & Hun & Hc).
    exists u, un. split; [by eapply address_down|done].
Qed.

Lemma list_pop_snoc {A} (l : list A) x : list_pop (l ++ [x]) = Some (x, l).
Proof.
  induction l as [|a l IH]; [done|].
  change ((a :: l) ++ [x]) with (a :: (l ++ [x])).
  destruct l as [|b l]; [done|].
  change (list_pop (a :: (b :: l) ++ [x]))
    with (match list_pop ((b :: l) ++ [x]) with
          | Some (y, r) => Some (y, a :: r)
          | None => None
          end).
  by rewrite IH.
Qed.

Lemma split_segment_path segs : ∀ k,
  Forall clean_segment (k :: segs) →
  split "/" (k +:+ path_of segs) = k :: segs.
Proof.
  induction segs as [|k' segs IH]; intros k Hclean.
  - simpl. rewrite append_empty_r. apply split_no_slash.
    by apply Forall_cons in Hclean as [[_ ?] _].
  - apply Forall_cons in Hclean as [[_ Hk] Hclean].
    change (path_of (k' :: segs)) with (String "/" (k' +:+ path_of segs)).
    rewrite (split_segment_slash _ _ Hk). by rewrite IH.
Qed.

Lemma split_path_of segs :
  Forall clean_segment segs → split "/" (path_of segs) = "" :: segs.
Proof.
  destruct segs as [|k segs]; [done|]. intros Hclean.
  change (path_of (k :: segs)) with (String "/" (k +:+ path_of segs)).
  rewrite split_leading_slash. by rewrite split_segment_path.
Qed.

Lemma join_leading_empty segs : segs ≠ [] → join "/" ("" :: segs) = path_of segs.
Proof.
  intros Hne. rewrite path_of_join by done. by destruct segs.
Qed.

Lemma length_append_string a b :
  String.length (a +:+ b) = String.length a + String.length b.
Proof.
  induction a as [|c a IH]; [done|].
  change (String c a +:+ b) with (String c (a +:+ b)). simpl. by rewrite IH.
Qed.

Lemma path_of_snoc_longer segs k : path_of segs ≠ path_of (segs ++ [k]).
Proof.
  intros H. apply (f_equal String.length) in H.
  rewrite path_of_snoc, !length_append_string in H. simpl in H. lia.
Qed.

(** In a store built without grafting, [graft] of a node that lies at least
    two levels below its Root finds the node's parent, takes the node out of
    the parent's Tree and unroots it; what remains is to add it to the
    target. *)
Lemma graft_detaches st (s t r : ref) (segs : list string) (k : string)
    (tn : NodeObj) (m : pyval) :
  well_formed st → is_Root (nodes st) r →
  address (nodes st) r (segs ++ [k]) s → segs ≠ [] →
  Forall clean_segment (segs ++ [k]) →
  nodes st !! t = Some tn → is_some (_root tn) = true →
  ∃ sn u un d',
    nodes st !! s = Some sn ∧ _root sn = Some r
    ∧ address (nodes st) r segs u ∧ nodes st !! u = Some un ∧ u ≠ s
    ∧ dict_get (Some k) (_dict (_tree un)) = Some s
    ∧ dict_del (Some k) (_dict (_tree un)) = Some d'
    ∧ S (length d') = length (_dict (_tree un))
    ∧ name sn = Some k
    ∧ graft s (PNode t) m st
      = (add_to_tree t s >>
         assert (merge_metadata_valid m) "" >>
         (if py_is_bool m false then ret tt
          else if py_is_bool m true
               then merge_root_metadata false (Some r) (PNode t)
               else merge_root_metadata true (Some r) (PNode t)) >>
         getattr_root (PNode t)) (detached s u sn un d' st).
Proof.
  intros Hwf HR Ha Hne Hclean Ht Htr.
  destruct (address_snoc_inv _ _ _ _ _ Ha) as (u & un & Hau & Hu & Hk).
  assert (Hls : s < length (nodes st)) by (by eapply (wf_closed _ Hwf)).
  destruct (lookup_lt_is_Some_2 _ _ Hls) as [sn Hs].
  pose proof (wf_paths _ Hwf _ _ _ _ HR Ha Hs) as Hp.
  pose proof (wf_paths _ Hwf _ _ _ _ HR Hau Hu) as Hpu.
  assert (Hsr : _root sn = Some r).
  { eapply (wf_roots _ Hwf); [exact HR| |exact Hs].
    destruct segs as [|k0 segs]; [done|]. by eapply address_reachable. }
  assert (Hus : u ≠ s).
  { intros ->. assert (un = sn) as -> by congruence.
    rewrite Hp in Hpu. inversion Hpu as [Heq]. symmetry in Heq.
    by apply path_of_snoc_longer in Heq. }
  destruct (dict_del_Some _ _ _ Hk) as (d' & Hd' & _ & _ & Hlen).
  destruct HR as (rn & Hr & _).
  assert (Hcs : Forall clean_segment segs) by (by apply Forall_app in Hclean as [? _]).
  pose proof (get_from_tree_absolute st s r u sn rn segs Hs Hsr Hr Hcs Hne Hau) as Hget.
  exists sn, u, un, d'. do 8 (split; [done|]).
  split; [exact (wf_keys _ Hwf _ _ _ _ _ Hu Hk Hs)|].
  unfold graft, root, getattr_root, root.
  rewrite run_bind, run_bind, (get_node_Some _ _ _ Hs). cbn [ret].
  rewrite Hsr. cbn [is_some]. rewrite run_bind. cbn [assert ret].
  rewrite run_bind, run_bind, (get_node_Some _ _ _ Ht). cbn [ret].
  rewrite run_bind, Htr. cbn [assert ret].
  rewrite run_bind, run_bind, (get_node_Some _ _ _ Hs). cbn [ret].
  rewrite run_bind, (get_node_Some _ _ _ Hs), Hp.
  rewrite (split_path_of _ Hclean).
  change ("" :: segs ++ [k]) with (("" :: segs) ++ [k]).
  rewrite list_pop_snoc, join_leading_empty by done.
  rewrite run_bind, Hget.
  rewrite run_bind. unfold Tree.__delitem__ at 1.
  rewrite run_bind, (get_node_Some _ _ _ Hu), Hd'.
  unfold modify_node at 1. rewrite Hu.
  rewrite run_bind. unfold modify_node at 1. cbn [nodes set_nodes].
  rewrite list_lookup_insert_ne, Hs by done.
  by rewrite Hsr.
Qed.

Lemma lookup_detached_other st (s u q : ref) sn un d' :
  q ≠ s → nodes st !! u = Some un →
  nodes (detached s u sn un d' st) !! q
  = if decide (q = u) then Some (with_tree (mkTree d') un) else nodes st !! q.
Proof.
  intros Hqs Hu. unfold detached. cbn [nodes set_nodes].
  rewrite list_lookup_insert_ne by done.
  destruct (decide (q = u)) as [->|Hqu].
  - rewrite list_lookup_insert_eq; [done|by eapply lookup_lt_Some].
  - by rewrite list_lookup_insert_ne.
Qed.

Lemma lookup_detached_self st (s u : ref) sn un d' :
  nodes st !! s = Some sn →
  nodes (detached s u sn un d' st) !! s = Some (with_root None sn).
Proof.
  intros Hs. unfold detached. cbn [nodes set_nodes].
  rewrite list_lookup_insert_eq; [done|].
  rewrite length_insert. by eapply lookup_lt_Some.
Qed.

(** X13. In a store built without grafting, a node that lies at least two
    levels below its Root, under names that are not empty and hold no '/',
    can be grafted onto any other rooted node that has a path: with mode
    False the call returns the target's root, the node is then in the
    target's Tree, and no bundle is touched.  A rooted target without a path,
    as a failed [add_to_tree] leaves one, makes the call raise TypeError, the
    node being in the target's Tree all the same.  The target is not checked
    against the grafted branch: the node keeps its own children, so that a
    target among them ends up above and below the node at once. *)
Theorem graft_deep_node st (s t r : ref) (segs : list string) (k : string)
    (tn : NodeObj) :
  well_formed st → is_Root (nodes st) r →
  address (nodes st) r (segs ++ [k]) s → segs ≠ [] →
  Forall clean_segment (segs ++ [k]) →
  nodes st !! t = Some tn → is_some (_root tn) = true → t ≠ s →
  ∃ st',
    graft s (PNode t) (PBool false) st
    = (if is_some (_treepath tn) then Ok (_root tn) else Err TypeError, st')
    ∧ child_of (nodes st') t s
    ∧ (∀ c, child_of (nodes st) s c → child_of (nodes st') s c)
    ∧ metadatas st' = metadatas st.
Proof.
  intros Hwf HR Ha Hne Hclean Ht Htr Hts.
  destruct (graft_detaches st s t r segs k tn (PBool false) Hwf HR Ha Hne Hclean Ht Htr)
    as (sn & u & un & d' & Hs & Hsr & Hau & Hu & Hus & Hk & Hd' & _ & Hnm & Hrun).
  set (stb := detached s u sn un d' st) in *.
  set (tnb := if decide (t = u) then with_tree (mkTree d') un else tn).
  assert (Htb : nodes stb !! t = Some tnb).
  { unfold stb, tnb. rewrite (lookup_detached_other _ _ _ _ _ _ _ Hts Hu).
    by destruct (decide (t = u)). }
  assert (Hsb : nodes stb !! s = Some (with_root None sn))
    by (by apply lookup_detached_self).
  assert (Htnb : _root tnb = _root tn ∧ _treepath tnb = _treepath tn).
  { unfold tnb. destruct (decide (t = u)) as [->|]; [|done].
    assert (un = tn) as -> by congruence. done. }
  destruct Htnb as [Htbr Htbp].
  destruct (add_to_tree_run stb t s tnb (with_root None sn) Htb Hsb
              ltac:(by rewrite Htbr) eq_refl) as [_ Hadd].
  rewrite Htbp in Hadd. cbn [name with_root] in Hadd. rewrite Hnm in Hadd.
  set (path := match _treepath tn with
               | Some pp => Some (pp +:+ "/" +:+ k)
               | None => _treepath sn
               end).
  set (st' := set_nodes (attached t s tnb (with_root None sn) path) stb).
  assert (Hlook : ∀ q, nodes st' !! q
    = if decide (q = s)
      then Some (with_treepath path (with_root (_root tnb) (with_root None sn)))
      else if decide (q = t)
           then Some (with_tree (mkTree (dict_set (name sn) s (_dict (_tree tnb)))) tnb)
           else nodes stb !! q).
  { intros q. unfold st'. cbn [nodes set_nodes].
    by rewrite (lookup_attached _ _ _ _ _ _ _ Htb Hsb). }
  exists st'. split; [|split; [|split]].
  - rewrite Hrun, run_bind, Hadd. unfold st', path.
    destruct (_treepath tn) as [pp|]; [|reflexivity].
    change (merge_metadata_valid (PBool false)) with true.
    change (py_is_bool (PBool false) false) with true. cbv iota.
    rewrite run_bind. cbn [assert ret]. rewrite run_bind. cbn [ret].
    unfold getattr_root, root. rewrite run_bind.
    fold path. fold st'.
    rewrite (get_node_Some st' t _ ltac:(rewrite Hlook, decide_False, decide_True by done; done)).
    cbn [ret]. cbn. by rewrite Htbr.
  - eexists _, (name sn). split.
    + rewrite Hlook, decide_False, decide_True by done. done.
    + cbn. apply dict_get_set_eq.
  - intros c (n & kc & Hn & Hkc). assert (n = sn) as -> by congruence.
    eexists _, kc. split.
    + rewrite Hlook, decide_True by done. done.
    + done.
  - done.
Qed.

Lemma two_trees_well_formed : well_formed two_trees_state.
Proof.
  change two_trees_state with (run_builds two_trees_ops empty_state).
  apply well_formed_builds, well_formed_empty.
Qed.

Lemma graft_deep_node_witness :
  ∃ st', graft 2 (PNode 3) (PBool false) two_trees_state = (Ok (Some 0), st')
         ∧ child_of (nodes st') 3 2 ∧ child_of (nodes st') 2 3.
Proof.
  assert (Hclean : Forall clean_segment (["a"] ++ ["x"]))
    by (repeat constructor; discriminate).
  assert (Ha : address (nodes two_trees_state) 0 (["a"] ++ ["x"]) 2).
  { do 2 (eapply address_down; [reflexivity | reflexivity |]). apply address_here. }
  destruct (graft_deep_node two_trees_state 2 3 0 ["a"] "x" _
              two_trees_well_formed (ex_intro _ _ (conj eq_refl eq_refl)) Ha
              ltac:(discriminate) Hclean eq_refl eq_refl ltac:(discriminate))
    as (st' & Hrun & Hchild & Hkeep & _).
  exists st'. split; [exact Hrun|]. split; [exact Hchild|].
  apply Hkeep. eexists _, (Some "y"). split; reflexivity.
Defined.



(** ** Displaying a tree *)

Lemma only_output_refl st : only_output st st.
Proof. repeat split. exists []. by rewrite app_nil_r. Qed.

Lemma only_output_trans st1 st2 st3 :
  only_output st1 st2 → only_output st2 st3 → only_output st1 st3.
Proof.
  intros (Hn1 & Hm1 & Hg1 & out1 & Ho1) (Hn2 & Hm2 & Hg2 & out2 & Ho2).
  split; [congruence|]. split; [congruence|]. split; [congruence|].
  exists (out1 ++ out2). rewrite Ho2, Ho1. by rewrite app_assoc.
Qed.

Lemma prints_only_ret {A} (a : A) : prints_only (ret a).
Proof. intros st res st' H. inversion H; subst. apply only_output_refl. Qed.

Lemma prints_only_raise {A} e : prints_only (@raise A e).
Proof. intros st res st' H. inversion H; subst. apply only_output_refl. Qed.

Lemma prints_only_bind {A B} (m : M A) (k : A → M B) :
  prints_only m → (∀ a, prints_only (k a)) → prints_only (bind m k).
Proof.
  intros Hm Hk st res st'. rewrite run_bind.
  destruct (m st) as [[a|e] st1] eqn:Hrun; intros H.
  - eapply only_output_trans; [by eapply Hm | by eapply Hk].
  - inversion H; subst. by eapply Hm.
Qed.

Lemma prints_only_pure {A} (m : M A) :
  (∀ st res st', m st = (res, st') → st' = st) → prints_only m.
Proof. intros Hm st res st' ->%Hm. apply only_output_refl. Qed.

Lemma prints_only_for_each {A} (l : list A) (body : A → M unit) :
  (∀ x, prints_only (body x)) → prints_only (for_each l body).
Proof.
  intros Hbody. induction l as [|x l IH]; simpl.
  - apply prints_only_ret.
  - apply prints_only_bind; [apply Hbody | by intros _].
Qed.

Lemma prints_only_try {A} (m : M A) catches (handler : M A) :
  prints_only m → prints_only handler → prints_only (try_except m catches handler).
Proof.
  intros Hm Hh st res st'. unfold try_except.
  destruct (m st) as [[a|e] st1] eqn:Hrun.
  - intros H. inversion H; subst. by eapply Hm.
  - destruct (catches e); intros H.
    + eapply only_output_trans; [by eapply Hm | by eapply Hh].
    + inversion H; subst. by eapply Hm.
Qed.

Lemma prints_only_print line : prints_only (builtin_print line).
Proof.
  intros st res st' H. inversion H; subst. repeat split. by exists [line].
Qed.

Lemma prints_only_get_node r : prints_only (get_node r).
Proof.
  apply prints_only_pure. intros st res st'. unfold get_node.
  destruct (nodes st !! r); intros H; by inversion H.
Qed.

Lemma prints_only_assert c msg : prints_only (assert c msg).
Proof. destruct c; [apply prints_only_ret | apply prints_only_raise]. Qed.

Lemma prints_only_getitem t x : prints_only (Tree.__getitem__ t x).
Proof.
  apply prints_only_pure. intros st res st'. apply getitem_from_list_pure.
Qed.

Lemma only_output_linelevels f st : only_output st (set_linelevels f st).
Proof. repeat split. exists []. cbn. by rewrite app_nil_r. Qed.

Lemma prints_only_linelevels :
  prints_only Tree.get_linelevels
  ∧ (∀ n, prints_only (Tree.linelevels_remove n))
  ∧ (∀ n, prints_only (λ st, (Ok tt, set_linelevels (λ l, l ++ [n]) st))).
Proof.
  split; [|split].
  - apply prints_only_pure. intros st res st' H. by inversion H.
  - intros n st res st'. unfold Tree.linelevels_remove.
    destruct (Tree.nat_remove n (linelevels_default st));
      intros H; inversion H; subst;
      [apply only_output_linelevels | apply only_output_refl].
  - intros n st res st' H. inversion H; subst. apply only_output_linelevels.
Qed.

Lemma prints_only_print_tree fuel : ∀ tree tablevel,
  prints_only (Tree._print_tree_to_screen fuel tree tablevel).
Proof.
  destruct prints_only_linelevels as (Hget & Hrem & Happ).
  induction fuel as [|fuel IH]; intros tree tablevel; simpl.
  - apply prints_only_raise.
  - apply prints_only_bind; [exact Hget|]. intros ll.
    apply prints_only_bind.
    { destruct (Tree.nat_mem tablevel ll); [apply prints_only_ret | apply Happ]. }
    intros _. apply prints_only_for_each. intros [i k]. cbn [fst snd].
    apply prints_only_bind; [exact Hget|]. intros ll'.
    destruct k as [k|]; [|apply prints_only_raise].
    apply prints_only_bind; [apply prints_only_print|]. intros _.
    apply prints_only_bind.
    { destruct (Nat.eqb _ _); [apply Hrem | apply prints_only_ret]. }
    intros _. apply prints_only_try; [|apply prints_only_ret].
    apply prints_only_bind; [apply prints_only_getitem|]. intros r.
    apply prints_only_bind; [apply prints_only_get_node|]. intros n.
    apply IH.
Qed.

Lemma prints_only_Tree_print fuel t : prints_only (Tree.print fuel t).
Proof.
  unfold Tree.print. apply prints_only_bind; [apply prints_only_print|].
  intros _. apply prints_only_print_tree.
Qed.

(** X15. [show_tree] is a display: whatever it returns or raises, at any
    recursion limit, the nodes, the Metadata instances and the file groups
    are what they were, and the output has only grown.  Called with
    [root=True] on an unrooted node it raises its assertion and prints
    nothing; on a rooted node it shows what [root=False] shows on the root. *)
Theorem show_tree_displays fuel st (self : ref) (b : bool) :
  (∀ res st', show_tree fuel self b st = (res, st') → only_output st st')
  ∧ (∀ n, nodes st !! self = Some n → _root n = None →
       show_tree fuel self true st = (Err (AssertionError show_unrooted_msg), st))
  ∧ (∀ n r rn, nodes st !! self = Some n → _root n = Some r →
       nodes st !! r = Some rn →
       show_tree fuel self true st = show_tree fuel r false st).
Proof.
  split; [|split].
  - revert st. change (prints_only (show_tree fuel self b)).
    unfold show_tree. destruct (negb b).
    + apply prints_only_bind; [apply prints_only_get_node|]. intros n.
      apply prints_only_Tree_print.
    + apply prints_only_bind; [apply prints_only_get_node|]. intros n.
      apply prints_only_bind; [apply prints_only_assert|]. intros _.
      destruct (_root n); [|apply prints_only_raise].
      apply prints_only_bind; [apply prints_only_get_node|]. intros rn.
      apply prints_only_Tree_print.
  - intros n Hn Hroot. unfold show_tree. cbn [negb].
    rewrite run_bind, (get_node_Some _ _ _ Hn), Hroot. reflexivity.
  - intros n r rn Hn Hroot Hr. unfold show_tree. cbn [negb].
    rewrite run_bind, (get_node_Some _ _ _ Hn), Hroot.
    rewrite run_bind. cbn [is_some assert ret].
    by rewrite !run_bind, (get_node_Some _ _ _ Hr).
Qed.

Lemma getitem_from_list_same_nodes x : ∀ (t : TreeObj) st st1 res st',
  Tree._getitem_from_list t x st = (res, st') → nodes st1 = nodes st →
  Tree._getitem_from_list t x st1 = (res, st1).
Proof.
  induction x as [|k x IH]; intros t st st1 res st' H Hn; simpl in *.
  - by inversion H.
  - rewrite run_bind in *. destruct (dict_mem (Some k) (_dict t)); cbn [assert ret raise] in *;
      [|by inversion H].
    destruct (dict_get (Some k) (_dict t)) as [r|]; [|by inversion H].
    destruct x as [|k' x]; [by inversion H|].
    rewrite run_bind in *. unfold get_node in *. rewrite Hn.
    destruct (nodes st !! r) as [n|]; [|by inversion H].
    by eapply IH.
Qed.

Lemma nat_remove_mem n l :
  Tree.nat_mem n l = true → ∃ l', Tree.nat_remove n l = Some l'.
Proof.
  unfold Tree.nat_mem. induction l as [|y l IH]; simpl; [done|].
  rewrite (Nat.eqb_sym n y). destruct (Nat.eqb y n); simpl; [eauto|].
  intros (l' & ->)%IH. eauto.
Qed.

Lemma nat_mem_snoc n l : Tree.nat_mem n (l ++ [n]) = true.
Proof.
  unfold Tree.nat_mem. rewrite existsb_app. simpl.
  by rewrite Nat.eqb_refl, orb_true_r.
Qed.

(** X16. The display looks every child up again by its key, through the
    path lookup of the Tree.  A first key that this lookup cannot resolve,
    such as the empty string, ['/'], or a name with a '/' whose first segment
    is no key, therefore aborts the display: the header and the line of that
    key are printed, then the error of the lookup is raised. *)
Theorem print_unresolved_key fuel (t : TreeObj) (k : string) (c : ref)
    (rest : list (option string * ref)) st e :
  _dict t = (Some k, c) :: rest →
  Tree.__getitem__ t k st = (Err e, st) → e ≠ AttributeError →
  ∃ st', Tree.print (S fuel) t st = (Err e, st')
         ∧ stdout st' = stdout st ++ ["/"; "|--" +:+ k]
         ∧ nodes st' = nodes st.
Proof.
  intros Hd Hget He.
  unfold Tree.print. rewrite run_bind. unfold builtin_print at 1.
  set (st0 := set_stdout (λ out, out ++ ["/"]) st).
  simpl Tree._print_tree_to_screen.
  rewrite run_bind. unfold Tree.get_linelevels at 1.
  set (ll := linelevels_default st0).
  (* level 0 is marked, if it was not *)
  assert (Hmark : ∃ st1,
    (if Tree.nat_mem 0 ll then ret tt
     else λ st, (Ok tt, set_linelevels (λ l, l ++ [0]) st)) st0 = (Ok tt, st1)
    ∧ Tree.nat_mem 0 (linelevels_default st1) = true
    ∧ nodes st1 = nodes st ∧ stdout st1 = stdout st ++ ["/"]).
  { destruct (Tree.nat_mem 0 ll) eqn:Hll.
    - exists st0. by repeat split.
    - eexists. split; [done|]. split; [exact (nat_mem_snoc 0 _)|done]. }
  destruct Hmark as (st1 & Hrun1 & Hin & Hn1 & Ho1).
  rewrite run_bind, Hrun1.
  unfold Tree.keys, dict_keys. rewrite Hd.
  cbn [map fst enumerate imap for_each].
  rewrite run_bind, run_bind. unfold Tree.get_linelevels at 1.
  cbn [fst snd]. rewrite run_bind. unfold builtin_print at 1.
  set (st2 := set_stdout _ st1).
  destruct (nat_remove_mem 0 (linelevels_default st2) Hin) as (l' & Hl').
  assert (Hrem : ∃ st3,
    (if Nat.eqb 0 (length (Some k :: map fst rest) - 1)
     then Tree.linelevels_remove 0 else ret tt) st2 = (Ok tt, st3)
    ∧ nodes st3 = nodes st ∧ stdout st3 = stdout st2).
  { destruct (Nat.eqb 0 _).
    - unfold Tree.linelevels_remove. rewrite Hl'. by eexists.
    - by exists st2. }
  destruct Hrem as (st3 & Hrun3 & Hn3 & Ho3).
  rewrite run_bind, Hrun3.
  unfold try_except.
  rewrite run_bind.
  assert (Hget3 : Tree.__getitem__ t k st3 = (Err e, st3))
    by (by eapply getitem_from_list_same_nodes).
  rewrite Hget3.
  assert (Hcatch : match e with AttributeError => true | _ => false end = false)
    by (by destruct e).
  rewrite Hcatch.
  exists st3. split; [done|]. split; [|done].
  rewrite Ho3. unfold st2. cbn [stdout set_stdout]. rewrite Ho1.
  rewrite <- app_assoc. unfold Tree.line_prefix. cbn [seq fold_left].
  by rewrite Hin.
Qed.

Lemma print_unresolved_key_witness :
  ∃ st', Tree.print 5 (mkTree [(Some "a/b", 1)]) slash_name_state
         = (Err (AssertionError (Tree.not_found_msg "a")), st')
         ∧ stdout st' = ["/"; "|--a/b"].
Proof.
  destruct (print_unresolved_key 4 (mkTree [(Some "a/b", 1)]) "a/b" 1 [] slash_name_state
              (AssertionError (Tree.not_found_msg "a")) eq_refl eq_refl
              ltac:(discriminate))
    as (st' & Hrun & Hout & _).
  by exists st'.
Defined.

(** ** The operations of the entry point *)

(** X25. What [tree] does for the calls it is documented for, [kwargs] being
    a dictionary that a call can collect.  Without a positional argument and
    without a keyword it shows the tree from the node.  With one keyword
    whose value has the type of the operation it names (a bool for show, a
    node for add, a str for get, any value for cut, a node or a pair for
    graft) it performs that operation and no other.  Two or more keywords,
    and a keyword that is none of the five, are refused with an assertion
    before anything is done.  With a positional bool, node or str it
    performs show, add or get, whatever the keywords are. *)
Theorem tree_dispatch fuel st (self : ref) :
  (∀ kwargs, collected kwargs → (2 ≤ length kwargs)%nat →
      ∃ msg, tree fuel self PNone kwargs st = (Err (AssertionError msg), st))
  ∧ (∀ k v, collected [(k, v)] → k ∉ tree_keywords →
      ∃ msg, tree fuel self PNone [(k, v)] st = (Err (AssertionError msg), st))
  ∧ tree fuel self PNone [] st = (show_tree fuel self false >> ret PNone) st
  ∧ (∀ b, tree fuel self PNone [("show", PBool b)] st
          = (show_tree fuel self b >> ret PNone) st)
  ∧ (∀ n, tree fuel self PNone [("add", PNode n)] st
          = (add_to_tree self n >> ret PNone) st)
  ∧ (∀ s, tree fuel self PNone [("get", PStr s)] st
          = (let! r := get_from_tree self s in ret (PNode r)) st)
  ∧ (∀ v, tree fuel self PNone [("cut", v)] st
          = (let! r := cut_from_tree self v in ret (of_option_ref r)) st)
  ∧ (∀ n, tree fuel self PNone [("graft", PNode n)] st
          = (let! r := graft self (PNode n) (PBool true) in ret (of_option_ref r)) st)
  ∧ (∀ n m, tree fuel self PNone [("graft", PTuple [n; m])] st
          = (let! r := graft self n m in ret (of_option_ref r)) st)
  ∧ (∀ kwargs b, collected kwargs →
        tree fuel self (PBool b) kwargs st = (show_tree fuel self b >> ret PNone) st)
  ∧ (∀ kwargs n, collected kwargs →
        tree fuel self (PNode n) kwargs st = (add_to_tree self n >> ret PNone) st)
  ∧ (∀ kwargs s, collected kwargs →
        tree fuel self (PStr s) kwargs st
        = (let! r := get_from_tree self s in ret (PNode r)) st).
Proof.
  repeat split; try reflexivity.
  - intros kwargs _ Hlen. destruct kwargs as [|kv1 [|kv2 rest]]; simpl in Hlen; try lia.
    eexists. apply tree_two_keywords.
  - intros k v _ Hk. eexists. apply tree_unknown_keyword.
    by apply tree_keyword_not_in.
Qed.

Lemma tree_dispatch_witness :
  (∃ msg, tree 8 0 PNone [("prune", PBool true)] empty_state
          = (Err (AssertionError msg), empty_state))
  ∧ ∃ msg, tree 8 0 PNone [("show", PBool true); ("cut", PBool true)] empty_state
           = (Err (AssertionError msg), empty_state).
Proof.
  assert (Hcollected : ∀ kwargs : dict pyval,
            bool_decide (NoDup (dict_keys kwargs)) = true →
            bool_decide ("self" ∈ dict_keys kwargs) = false →
            bool_decide ("arg" ∈ dict_keys kwargs) = false → collected kwargs).
  { intros kwargs H1 H2 H3. apply bool_decide_eq_true in H1.
    apply bool_decide_eq_false in H2. apply bool_decide_eq_false in H3. done. }
  destruct (tree_dispatch 8 empty_state 0) as (Hmany & Hunknown & _).
  split.
  - apply (Hunknown "prune" (PBool true)); [by apply Hcollected|].
    intros Hin. apply list_elem_of_In in Hin. simpl in Hin.
    repeat (destruct Hin as [Hin | Hin]; [discriminate Hin|]). exact Hin.
  - apply Hmany; [by apply Hcollected | simpl; lia].
Defined.

(** ** Values the entry point refuses *)

Ltac wrong_value :=
  exfalso;
  match goal with
  | H : ?a ≠ ?a |- _ => by apply H
  | H : ∀ x, _ ≠ _ |- _ => by eapply H
  end.

(** X17. What [tree] does with a value of the wrong type.  A positional
    argument that is an int or a tuple fails the assertion on [arg] with
    the type in the message, whatever the keywords.  [show=] with a value
    that is no bool and [get=] with a value that is no str fail their
    assertions likewise.  [add=] with a value that is no node raises
    NameError instead of an assertion, the message of the assertion reading
    a name that is not bound.  [graft=] with a tuple that has not two items
    fails the shape assertion.  Nothing is changed in any of these cases. *)
Theorem tree_rejects_values fuel st (self : ref) (v : pyval) (ty : string) :
  type_repr v st = (Ok ty, st) →
  ((∀ b, v ≠ PBool b) → (∀ n, v ≠ PNode n) → (∀ s, v ≠ PStr s) → v ≠ PNone →
     ∀ kwargs, tree fuel self v kwargs st
               = (Err (AssertionError ("invalid `arg` type passed to .tree() " +:+ ty)), st))
  ∧ ((∀ b, v ≠ PBool b) →
       tree fuel self PNone [("show", v)] st
       = (Err (AssertionError
                 (".tree(show=value) requires type(value)==bool, not " +:+ ty)), st))
  ∧ ((∀ s, v ≠ PStr s) →
       tree fuel self PNone [("get", v)] st
       = (Err (AssertionError
                 (".tree(get=value) requires type(value)==str, not " +:+ ty)), st))
  ∧ ((∀ n, v ≠ PNode n) →
       tree fuel self PNone [("add", v)] st = (Err (NameError "value"), st))
  ∧ (∀ items, v = PTuple items → length items ≠ 2 →
       tree fuel self PNone [("graft", v)] st
       = (Err (AssertionError graft_shape_msg), st)).
Proof.
  intros Hty. split; [|split; [|split; [|split]]].
  - intros Hb Hn Hs Hnone kwargs.
    destruct v; try wrong_value;
      unfold tree; rewrite run_bind, Hty; reflexivity.
  - intros Hb. destruct v; try wrong_value;
      unfold tree; cbn -[type_repr]; rewrite ?run_bind, Hty; reflexivity.
  - intros Hs. destruct v; try wrong_value;
      unfold tree; cbn -[type_repr]; rewrite ?run_bind, Hty; reflexivity.
  - intros Hn. destruct v; try wrong_value; reflexivity.
  - intros items -> Hlen. unfold tree.
    change (Nat.eqb (length [("graft", PTuple items)]) 0) with false.
    change (Nat.eqb (length [("graft", PTuple items)]) 1) with true.
    cbn -[Nat.eqb]. unfold bind, ret.
    apply Nat.eqb_neq in Hlen. by rewrite Hlen.
Qed.

Lemma tree_rejects_values_witness :
  tree 8 0 PNone [("add", PInt 3)] two_trees_state
  = (Err (NameError "value"), two_trees_state)
  ∧ tree 8 0 (PInt 3) [("show", PBool true)] two_trees_state
    = (Err (AssertionError "invalid `arg` type passed to .tree() <class 'int'>"),
       two_trees_state).
Proof.
  destruct (tree_rejects_values 8 two_trees_state 0 (PInt 3) "<class 'int'>" eq_refl)
    as (Harg & _ & _ & Hadd & _).
  split.
  - apply Hadd. discriminate.
  - apply Harg; discriminate.
Defined.

(** ** Empty segments of a path *)

Lemma list_remove_empty_filter l :
  match list_remove "" l with
  | None => filter (λ s, s ≠ "") l = l
  | Some l' => filter (λ s, s ≠ "") l' = filter (λ s, s ≠ "") l
               ∧ S (length l') = length l
  end.
Proof.
  induction l as [|y l IH]; [done|]. simpl.
  destruct (String.eqb y "") eqn:E.
  - apply String.eqb_eq in E as ->. split; [|done].
    by rewrite (filter_cons_False (λ s, s ≠ "")) by (by intros ?).
  - apply String.eqb_neq in E.
    destruct (list_remove "" l) as [l'|].
    + destruct IH as [IH Hlen]. rewrite !filter_cons_True by done.
      split; [by rewrite IH | simpl; by rewrite Hlen].
    + rewrite filter_cons_True by done. by rewrite IH.
Qed.

Lemma filter_nonempty_all l :
  (length l ≤ length (filter (λ s : string, s ≠ "") l))%nat →
  filter (λ s, s ≠ "") l = l.
Proof.
  induction l as [|y l IH]; [done|]. intros Hlen.
  destruct (decide (y ≠ "")) as [Hy|Hy].
  - rewrite filter_cons_True in Hlen |- * by done. simpl in Hlen.
    rewrite IH; [done|lia].
  - rewrite filter_cons_False in Hlen by done.
    pose proof (length_filter (λ s : string, s ≠ "") l). simpl in Hlen. lia.
Qed.

Lemma filter_nonempty_some l :
  (length (filter (λ s : string, s ≠ "") l) < length l)%nat → "" ∈ l.
Proof.
  induction l as [|y l IH]; simpl; [lia|]. intros Hlen.
  destruct (decide (y ≠ "")) as [Hy|Hy].
  - rewrite filter_cons_True in Hlen by done. simpl in Hlen.
    apply elem_of_cons. right. apply IH. lia.
  - apply dec_stable in Hy as ->. apply elem_of_cons. by left.
Qed.

(** X18. [Tree.__getitem__] drops the first two empty segments of a path,
    wherever they stand, and no more.  A path with at most two of them, be
    it ['/a/b'], ['a/b/'], ['a//b'] or ['/a/b/'], is looked up by its
    other segments alone; of a path with more, exactly two are dropped, so
    that an empty segment is left to be looked up as a key. *)
Theorem getitem_drops_two_empty_segments (t : TreeObj) (x : string) st :
  Tree.__getitem__ t x st
  = Tree._getitem_from_list t (Tree.remove_two_empty (split "/" x)) st
  ∧ filter (λ s, s ≠ "") (Tree.remove_two_empty (split "/" x))
    = filter (λ s, s ≠ "") (split "/" x)
  ∧ ((length (split "/" x) ≤ length (filter (λ s, s ≠ "") (split "/" x)) + 2)%nat →
       Tree.remove_two_empty (split "/" x) = filter (λ s, s ≠ "") (split "/" x))
  ∧ ((length (filter (λ s, s ≠ "") (split "/" x)) + 2 < length (split "/" x))%nat →
       length (Tree.remove_two_empty (split "/" x)) + 2 = length (split "/" x)
       ∧ "" ∈ Tree.remove_two_empty (split "/" x)).
Proof.
  split; [done|].
  generalize (split "/" x). intros l.
  unfold Tree.remove_two_empty.
  pose proof (list_remove_empty_filter l) as H1.
  destruct (list_remove "" l) as [l1|].
  - destruct H1 as [H1 Hlen1].
    pose proof (list_remove_empty_filter l1) as H2.
    destruct (list_remove "" l1) as [l2|].
    + destruct H2 as [H2 Hlen2].
      split; [congruence|]. split.
      * intros Hcount. rewrite <- H1, <- H2 in Hcount |- *.
        symmetry. apply filter_nonempty_all. lia.
      * intros Hcount. split; [lia|].
        rewrite <- H1, <- H2 in Hcount.
        apply filter_nonempty_some. lia.
    + split; [congruence|]. split; [intros _; congruence|].
      intros Hcount. rewrite <- H1, H2 in Hcount. lia.
  - split; [done|]. split; [by intros _|].
    intros Hcount. rewrite H1 in Hcount. lia.
Qed.

Lemma getitem_drops_two_empty_segments_witness :
  Tree.__getitem__ (mkTree [(Some "a", 1)]) "a//x" two_trees_state
  = Tree._getitem_from_list (mkTree [(Some "a", 1)]) ["a"; "x"] two_trees_state
  ∧ Tree.__getitem__ (mkTree [(Some "a", 1)]) "/a/x/" two_trees_state
    = Tree._getitem_from_list (mkTree [(Some "a", 1)]) ["a"; "x"] two_trees_state.
Proof.
  split.
  - exact (proj1 (getitem_drops_two_empty_segments (mkTree [(Some "a", 1)]) "a//x"
                    two_trees_state)).
  - exact (proj1 (getitem_drops_two_empty_segments (mkTree [(Some "a", 1)]) "/a/x/"
                    two_trees_state)).
Defined.

(** ** Bundles of a node *)

Lemma dict_keys_set_new {K V} `{Key K} (k : K) (v : V) d :
  dict_get k d = None → dict_keys (dict_set k v d) = dict_keys d ++ [k].
Proof.
  induction d as [|[k' v'] d IH]; simpl; [done|].
  destruct (key_eqb k k'); [done|]. intros Hd. simpl. by rewrite (IH Hd).
Qed.

(** X19. The [metadata] setter files a bundle under the name the bundle has
    at that moment, and the getter then returns the dictionary with it.  A
    bundle already filed under that name is replaced in place, the keys and
    their order staying as they were; a new name goes last.  The other
    bundles of the node, every other node, the trees and the Metadata
    instances themselves are not touched. *)
Theorem metadata_setter_files st (n : ref) (x : mref) (nd : NodeObj) (o : MetadataObj) :
  nodes st !! n = Some nd → metadatas st !! x = Some o →
  ∃ st' nd',
    metadata_setter n x st = (Ok tt, st')
    ∧ nodes st' !! n = Some nd'
    ∧ metadata (Some n) st' = (Ok (_metadata nd'), st')
    ∧ dict_get (md_name o) (_metadata nd') = Some x
    ∧ (∀ k, k ≠ md_name o → dict_get k (_metadata nd') = dict_get k (_metadata nd))
    ∧ dict_keys (_metadata nd')
      = (if dict_mem (md_name o) (_metadata nd) then dict_keys (_metadata nd)
         else dict_keys (_metadata nd) ++ [md_name o])
    ∧ (∀ q, q ≠ n → nodes st' !! q = nodes st !! q)
    ∧ same_trees st st'
    ∧ metadatas st' = metadatas st.
Proof.
  intros Hn Hx.
  assert (Hrun : metadata_setter n x st
                 = (Ok tt, set_nodes (λ h : list NodeObj,
                      <[n := with_metadata (dict_set (md_name o) x (_metadata nd)) nd]> h) st)).
  { unfold metadata_setter, get_metadata, modify_node.
    rewrite run_bind, Hx. by rewrite Hn. }
  eexists _, _. split; [exact Hrun|].
  assert (Hn' : nodes (set_nodes (λ h : list NodeObj,
                  <[n := with_metadata (dict_set (md_name o) x (_metadata nd)) nd]> h) st)
                !! n = Some (with_metadata (dict_set (md_name o) x (_metadata nd)) nd)).
  { cbn [nodes set_nodes]. rewrite list_lookup_insert_eq; [done|by eapply lookup_lt_Some]. }
  split; [exact Hn'|]. split.
  { unfold metadata. by rewrite run_bind, (get_node_Some _ _ _ Hn'). }
  cbn [_metadata with_metadata].
  split; [apply dict_get_set_eq|].
  split; [intros k Hk; by apply dict_get_set_ne|].
  split.
  { unfold dict_mem. destruct (dict_get (md_name o) (_metadata nd)) eqn:Hget.
    - by eapply dict_keys_set_existing.
    - by apply dict_keys_set_new. }
  split.
  { intros q Hq. cbn [nodes set_nodes]. by rewrite list_lookup_insert_ne. }
  split; [by eapply metadata_setter_same_trees|done].
Qed.

Lemma metadata_setter_files_witness :
  ∃ st' nd', metadata_setter 4 1 bundles_state = (Ok tt, st')
             ∧ nodes st' !! 4 = Some nd'
             ∧ dict_get "md2" (_metadata nd') = Some 1.
Proof.
  destruct (metadata_setter_files bundles_state 4 1 _ _ eq_refl eq_refl)
    as (st' & nd' & Hrun & Hn' & _ & Hget & _).
  by exists st', nd'.
Defined.

(** ** Modes that are no mode *)

(** X20. The metadata mode is validated with [in], which compares with
    [==], and dispatched with [is]: the integers 0 and 1 equal False and
    True and pass the validation, but are neither of the two, so that both
    take the last branch.  [graft] and [cut_from_tree] with mode 0 or 1 do
    exactly what they do with mode 'copy', in every store and for every
    target. *)
Theorem integer_modes_copy st (s : ref) (t : pyval) :
  graft s t (PInt 0) st = graft s t (PStr "copy") st
  ∧ graft s t (PInt 1) st = graft s t (PStr "copy") st
  ∧ cut_from_tree s (PInt 0) st = cut_from_tree s (PStr "copy") st
  ∧ cut_from_tree s (PInt 1) st = cut_from_tree s (PStr "copy") st
  ∧ merge_metadata_valid (PInt 0) = true ∧ py_is_bool (PInt 0) false = false
  ∧ merge_metadata_valid (PInt 1) = true ∧ py_is_bool (PInt 1) true = false.
Proof.
  assert (Hg : ∀ z s0 t0 st0, z = 0%Z ∨ z = 1%Z →
            graft s0 t0 (PInt z) st0 = graft s0 t0 (PStr "copy") st0).
  { intros z s0 t0 st0 Hz. unfold graft.
    assert (Hv : merge_metadata_valid (PInt z) = merge_metadata_valid (PStr "copy"))
      by (by destruct Hz as [->| ->]).
    rewrite Hv. reflexivity. }
  split; [apply Hg; by left|]. split; [apply Hg; by right|].
  unfold cut_from_tree.
  split; [|split; [|done]].
  - rewrite !run_bind. destruct (get_node s st) as [[sn|e] st1]; [|done].
    rewrite !run_bind. destruct (Root__init__ (name sn) st1) as [[r|e] st2]; [|done].
    apply Hg. by left.
  - rewrite !run_bind. destruct (get_node s st) as [[sn|e] st1]; [|done].
    rewrite !run_bind. destruct (Root__init__ (name sn) st1) as [[r|e] st2]; [|done].
    apply Hg. by right.
Qed.

(** ** What serialization does to the bundles *)

Lemma for_each_invariant {A} (I : list A → State → Prop) (body : A → M unit) :
  (∀ x P st st', I P st → body x st = (Ok tt, st') → I (x :: P) st') →
  ∀ l P st st', I P st → for_each l body st = (Ok tt, st') → I (reverse l ++ P) st'.
Proof.
  intros Hbody l. induction l as [|x l IH]; intros P st st' HI Hrun; simpl in Hrun.
  - by inversion Hrun; subst.
  - apply bind_Ok_inv in Hrun as ([] & st1 & Hx & Hrun).
    rewrite reverse_cons, <- app_assoc. simpl. eauto.
Qed.

Lemma modify_group_objects g f st u st' :
  Group.modify_group g f st = (Ok u, st') →
  nodes st' = nodes st ∧ metadatas st' = metadatas st.
Proof.
  unfold Group.modify_group. destruct (groups st !! g); [|discriminate].
  intros H. by inversion H; subst.
Qed.

Lemma create_group_objects self nm st g st' :
  Group.create_group self nm st = (Ok g, st') →
  nodes st' = nodes st ∧ metadatas st' = metadatas st.
Proof.
  unfold Group.create_group.
  intros (o & ? & [-> Ho]%get_group_inv & H)%bind_Ok_inv.
  destruct (dict_mem nm (g_subgroups o)); [discriminate|].
  apply bind_Ok_inv in H as (g0 & st1 & Halloc & H).
  inversion Halloc; subst g0 st1. clear Halloc.
  apply bind_Ok_inv in H as (? & st2 & [Hn Hm]%modify_group_objects & H).
  inversion H; subst. by rewrite Hn, Hm.
Qed.

Lemma create_node_group_objects self (nm : option string) st g st' :
  match nm with
  | Some x => Group.create_group self x
  | None => Group.create_anonymous_group self
  end st = (Ok g, st') →
  nodes st' = nodes st ∧ metadatas st' = metadatas st.
Proof.
  destruct nm as [x|]; [apply create_group_objects|].
  unfold Group.create_anonymous_group.
  intros (o & ? & [-> Ho]%get_group_inv & Hnew)%bind_Ok_inv.
  by inversion Hnew; subst.
Qed.

Lemma Metadata_to_h5_objects md g st r st' :
  Metadata_to_h5 md g st = (Ok r, st') →
  nodes st' = nodes st ∧ metadatas st' = metadatas st.
Proof.
  unfold Metadata_to_h5.
  intros (o & ? & [-> _]%get_metadata_inv & H)%bind_Ok_inv.
  apply bind_Ok_inv in H as (g1 & st1 & [Hn1 Hm1]%create_group_objects & H).
  apply bind_Ok_inv in H as ([] & st2 & Hloop & H). inversion H; subst.
  rewrite <- Hn1, <- Hm1.
  eapply (for_each_kept (λ cur, nodes cur = nodes st1 ∧ metadatas cur = metadatas st1));
    [|exact Hloop|done].
  intros kv s1 s2 [Hn Hm]%modify_group_objects [? ?]. split; congruence.
Qed.

Lemma bundles_renamed_step (self : ref) n st0 (grp : gref) (kv : string * mref)
    processed cur cur' :
  nodes st0 !! self = Some n →
  bundles_renamed n st0 processed cur →
  (let! d := metadata (Some self) in
   match dict_get kv.1 d with
   | None => raise (KeyError kv.1)
   | Some md =>
       Metadata.set_name md kv.1 >>
       let! d := metadata (Some self) in
       match dict_get kv.1 d with
       | None => raise (KeyError kv.1)
       | Some md => Metadata_to_h5 md grp >> ret tt
       end
   end) cur = (Ok tt, cur') →
  bundles_renamed n st0 (kv.1 :: processed) cur'.
Proof.
  intros Hself (Hnodes & Hlen & Hex & Hobj) Hbody.
  apply bind_Ok_inv in Hbody as (d & ? & [-> (n1 & Hn1 & ->)]%metadata_inv & Hbody).
  rewrite Hnodes in Hn1. assert (n1 = n) as -> by congruence.
  destruct (dict_get kv.1 (_metadata n)) as [md|] eqn:Hmd; [|discriminate].
  apply bind_Ok_inv in Hbody as ([] & cur1 & Hset & Hbody).
  unfold Metadata.set_name in Hset.
  destruct (metadatas cur !! md) as [oc|] eqn:Hoc; [|discriminate].
  inversion Hset; subst cur1. clear Hset.
  apply bind_Ok_inv in Hbody as (d' & ? & [-> _]%metadata_inv & Hbody).
  destruct (dict_get kv.1 d'); [|discriminate].
  apply bind_Ok_inv in Hbody as (? & cur2 & [Hn2 Hm2]%Metadata_to_h5_objects & Hbody).
  inversion Hbody; subst cur'. clear Hbody.
  cbn [nodes metadatas set_metadatas] in Hn2, Hm2.
  split; [congruence|]. split; [by rewrite Hm2, length_insert|].
  split.
  { intros k m [->|Hk]%elem_of_cons Hget; [|by eapply Hex].
    assert (m = md) as -> by congruence.
    rewrite <- Hlen. by eapply lookup_lt_Some. }
  intros m o Hm. destruct (Hobj m o Hm) as (o' & Ho' & Hpar & Hsame & Hname).
  rewrite Hm2. destruct (decide (m = md)) as [->|Hne].
  - rewrite list_lookup_insert_eq by (by eapply lookup_lt_Some).
    assert (o' = oc) as -> by congruence.
    eexists. split; [done|]. split; [done|]. split.
    + intros Hnone. exfalso. eapply Hnone; [|exact Hmd]. apply elem_of_cons. by left.
    + intros k _ Hk Huniq. cbn. by apply Huniq.
  - rewrite list_lookup_insert_ne by done.
    exists o'. split; [done|]. split; [done|]. split.
    + intros Hnone. apply Hsame. intros k Hk. apply Hnone. apply elem_of_cons. by right.
    + intros k [->|Hk]%elem_of_cons Hget Huniq; [congruence|]. by apply Hname.
Qed.

(** X21. Serializing a node renames its bundles.  [to_h5] changes no node,
    but before it writes a bundle it sets the bundle's name to the key the
    bundle is filed under: when the call returns, every Metadata instance
    still has its contents, an instance that is no bundle of the node is
    as it was, and a bundle filed under one key only has that key for
    name, whatever its name was before. *)
Theorem to_h5_renames_bundles (types : list string) st (r : ref) (n : NodeObj)
    (g grp : gref) st' :
  nodes st !! r = Some n →
  to_h5 types r g st = (Ok grp, st') →
  nodes st' = nodes st
  ∧ length (metadatas st') = length (metadatas st)
  ∧ (∀ m o, metadatas st !! m = Some o →
       ∃ o', metadatas st' !! m = Some o' ∧ md_params o' = md_params o
             ∧ ((∀ k, dict_get k (_metadata n) ≠ Some m) → o' = o))
  ∧ (∀ k m, dict_get k (_metadata n) = Some m →
       (∀ k', dict_get k' (_metadata n) = Some m → k' = k) →
       ∃ o', metadatas st' !! m = Some o' ∧ md_name o' = k).
Proof.
  intros Hr. unfold to_h5.
  intros (n' & ? & [-> Hr']%get_node_inv & H)%bind_Ok_inv.
  assert (n' = n) as -> by congruence.
  destruct (class_getattr _ _) as [ty|]; [|discriminate].
  apply bind_Ok_inv in H as (? & ? & [_ ->]%assert_inv & H).
  apply bind_Ok_inv in H as (grp0 & st1 & [Hn1 Hm1]%create_node_group_objects & H).
  apply bind_Ok_inv in H as (? & st2 & [Hn2 Hm2]%modify_group_objects & H).
  apply bind_Ok_inv in H as (? & st3 & [Hn3 Hm3]%modify_group_objects & H).
  apply bind_Ok_inv in H as (n3 & ? & [-> Hr3]%get_node_inv & H).
  assert (n3 = n) as -> by congruence.
  apply bind_Ok_inv in H as ([] & st4 & Hmd & H). inversion H; subst grp0 st4. clear H.
  assert (Hstart : bundles_renamed n st [] st3).
  { split; [congruence|]. split; [congruence|].
    split; [by intros k m ?%elem_of_nil|].
    intros m o Hm. exists o. split; [congruence|]. split; [done|]. split; [done|].
    by intros k ?%elem_of_nil. }
  assert (Hend : ∃ P, bundles_renamed n st P st'
                      ∧ ∀ k, k ∈ dict_keys (_metadata n) → k ∈ P).
  { destruct (0 <? length (_metadata n))%nat eqn:Hlen.
    - apply bind_Ok_inv in Hmd as (gm & st5 & [Hn5 Hm5]%create_group_objects & Hmd).
      apply bind_Ok_inv in Hmd as (? & st6 & [Hn6 Hm6]%modify_group_objects & Hloop).
      assert (Hstart6 : bundles_renamed n st [] st6).
      { destruct Hstart as (? & ? & ? & Hobj). split; [congruence|].
        split; [congruence|]. split; [done|].
        intros m o Hm. destruct (Hobj m o Hm) as (o' & ? & ?). exists o'.
        split; [congruence|done]. }
      exists (map fst (reverse (_metadata n) ++ [])). split.
      + pose proof (for_each_invariant
                      (λ (P : list (string * mref)) cur,
                         bundles_renamed n st (map fst P) cur) _
                      (λ kv P cur cur' HI Hbody,
                         bundles_renamed_step r n st gm kv (map fst P) cur cur'
                           Hr HI Hbody)
                      (_metadata n) [] st6 st' Hstart6 Hloop) as H.
        exact H.
      + intros k Hk. rewrite app_nil_r.
        apply list_elem_of_In, in_map_iff in Hk as (kv & Hkv & Hin).
        apply list_elem_of_In, in_map_iff. exists kv. split; [done|].
        by apply list_elem_of_In, elem_of_reverse, list_elem_of_In.
    - inversion Hmd; subst st'. exists []. split; [done|].
      apply Nat.ltb_ge in Hlen. destruct (_metadata n); [|simpl in Hlen; lia].
      by intros k ?%elem_of_nil. }
  destruct Hend as (P & (Hnodes & Hlen & Hex & Hobj) & Hall).
  split; [done|]. split; [done|]. split.
  - intros m o Hm. destruct (Hobj m o Hm) as (o' & Ho' & Hpar & Hsame & _).
    exists o'. split; [done|]. split; [done|].
    intros Hnone. apply Hsame. intros k _. apply Hnone.
  - intros k m Hk Huniq.
    assert (HkP : k ∈ P) by (by eapply Hall, dict_key_of_get).
    assert (Hlt : m < length (metadatas st)) by (by eapply Hex).
    destruct (lookup_lt_is_Some_2 _ _ Hlt) as [o Hm].
    destruct (Hobj m o Hm) as (o' & Ho' & _ & _ & Hname).
    exists o'. split; [done|]. by apply Hname.
Qed.

Lemma to_h5_renames_bundles_witness :
  (∃ o, metadatas renamed_bundle_file !! 0 = Some o ∧ md_name o = "other")
  ∧ ∃ st' o',
      to_h5 ["node"; "root"; "metadatabundle"] 0 0 renamed_bundle_file = (Ok 1, st')
      ∧ metadatas st' !! 0 = Some o' ∧ md_name o' = "md1".
Proof.
  split; [by eexists|].
  destruct (to_h5 ["node"; "root"; "metadatabundle"] 0 0 renamed_bundle_file)
    as [res st'] eqn:Hrun.
  assert (Hres : res = Ok 1) by (vm_compute in Hrun; congruence). subst res.
  destruct (to_h5_renames_bundles _ renamed_bundle_file 0 _ 0 1 st' eq_refl Hrun)
    as (_ & _ & _ & Hname).
  destruct (Hname "md1" 0 eq_refl) as (o' & Ho' & Hn').
  { intros k' Hk'. cbn [_metadata dict_get] in Hk'. unfold key_eqb, str_key in Hk'.
    destruct (String.eqb k' "md1") eqn:E1; [by apply String.eqb_eq in E1|].
    destruct (String.eqb k' "md2"); discriminate. }
  by exists st', o'.
Defined.

(** ** Bundles after a graft *)

Lemma for_keys_runs (I : list string → State → Prop) (Q : string → Prop)
    size0 size body :
  (∀ k P st, Q k → I P st → ∃ st', body k st = (Ok tt, st') ∧ I (k :: P) st') →
  (∀ P st, I P st → size st = (Ok size0, st)) →
  ∀ ks P st,
    Forall Q ks → I P st →
    ∃ st', for_keys ks size0 size body st = (Ok tt, st') ∧ I (reverse ks ++ P) st'.
Proof.
  intros Hbody Hsize ks.
  induction ks as [|k ks IH]; intros P st HQ HI; simpl;
    rewrite run_bind, (Hsize _ _ HI), Nat.eqb_refl; cbn [negb].
  - by exists st.
  - apply Forall_cons in HQ as [HQk HQ].
    destruct (Hbody k P st HQk HI) as (st1 & Hk & HI1).
    rewrite run_bind, Hk.
    destruct (IH (k :: P) st1 HQ HI1) as (st' & Hrun & HI').
    exists st'. split; [done|]. by rewrite reverse_cons, <- app_assoc.
Qed.

(** One step of a metadata loop runs through when the old root holds the
    key, the bundle exists, and the target has a root in the store. *)
Lemma merge_one_runs copy (oldr t tr : ref) k cur on tn trn md o :
  nodes cur !! oldr = Some on → dict_get k (_metadata on) = Some md →
  metadatas cur !! md = Some o →
  nodes cur !! t = Some tn → _root tn = Some tr → nodes cur !! tr = Some trn →
  ∃ x cur',
    merge_one copy (Some oldr) (PNode t) k cur = (Ok tt, cur')
    ∧ nodes cur'
      = <[tr := with_metadata (dict_set (md_name o) x (_metadata trn)) trn]> (nodes cur).
Proof.
  intros Hon Hk Hmd Ht Htr Htrn. unfold merge_one, metadata.
  rewrite run_bind, run_bind, (get_node_Some _ _ _ Hon). cbn [ret]. rewrite Hk.
  destruct copy.
  - exists (length (metadatas cur)),
      (set_nodes (λ h : list NodeObj,
         <[tr := with_metadata
                   (dict_set (md_name o) (length (metadatas cur)) (_metadata trn)) trn]> h)
         (set_metadatas (λ h, h ++ [mkMetadata (md_name o) (md_params o)]) cur)).
    split; [|reflexivity].
    rewrite run_bind. unfold Metadata.copy.
    rewrite run_bind. unfold get_metadata at 1. rewrite Hmd.
    unfold alloc_metadata. unfold getattr_root, root.
    rewrite run_bind, run_bind, (get_node_Some _ t tn) by done. cbn [ret].
    rewrite Htr. unfold metadata_setter. rewrite run_bind.
    unfold get_metadata. cbn [metadatas set_metadatas].
    rewrite lookup_app_r by lia. rewrite Nat.sub_diag. cbn [lookup list_lookup].
    unfold modify_node. cbn [nodes set_metadatas]. rewrite Htrn. reflexivity.
  - exists md,
      (set_nodes (λ h : list NodeObj,
         <[tr := with_metadata (dict_set (md_name o) md (_metadata trn)) trn]> h) cur).
    split; [|reflexivity].
    rewrite run_bind. cbn [ret]. unfold getattr_root, root.
    rewrite run_bind, run_bind, (get_node_Some _ _ _ Ht). cbn [ret].
    rewrite Htr. unfold metadata_setter. rewrite run_bind.
    unfold get_metadata. rewrite Hmd.
    unfold modify_node. rewrite Htrn. reflexivity.
Qed.

(** The metadata loops of [graft] run through when the old root files its
    bundles under their own names: no assignment then changes the number of
    bundles of the old root, even if it is the root of the target too. *)
Lemma merge_root_metadata_runs (copy : bool) base (oldr t tr : ref) on tn trn :
  nodes base !! oldr = Some on →
  nodes base !! t = Some tn → _root tn = Some tr →
  nodes base !! tr = Some trn →
  metadata_named base on →
  ∃ st2,
    merge_root_metadata copy (Some oldr) (PNode t) base = (Ok tt, st2)
    ∧ merge_invariant copy base oldr t tr (_metadata on)
        (reverse (dict_keys (_metadata on)) ++ []) st2.
Proof.
  intros Hon Ht Htr Htrn Hnamed. unfold merge_root_metadata.
  rewrite run_bind. unfold metadata at 1.
  rewrite run_bind, (get_node_Some _ _ _ Hon). cbn [ret].
  set (d0 := _metadata on).
  destruct (for_keys_runs
              (λ P cur, merge_invariant copy base oldr t tr d0 P cur
                        ∧ ∃ on', nodes cur !! oldr = Some on'
                                 ∧ dict_keys (_metadata on') = dict_keys d0)
              (λ k, k ∈ dict_keys d0) (length d0)
              (let! d := metadata (Some oldr) in ret (length d))
              (merge_one copy (Some oldr) (PNode t)))
    with (ks := dict_keys d0) (P := @nil string) (st := base)
    as (st2 & Hrun & HI & _).
  - intros k P cur Hk [HI (on' & Hon' & Hkeys)].
    pose proof HI as [(tn' & Ht' & Htr') _ (on'' & Hon'' & Hold) (trn' & Htrn' & _)].
    assert (on'' = on') as -> by congruence.
    destruct (dict_get_of_key _ _ Hk) as (m & Hm).
    destruct (Hold _ _ Hm) as (md & Hmd & Hobj & _).
    destruct (Hnamed _ _ Hm) as (o & Ho & Hname).
    destruct (merge_one_runs copy oldr t tr k cur on' tn' trn' md o)
      as (x & cur' & Hstep & Hnodes); try done; [congruence|].
    exists cur'. split; [done|]. split.
    + eapply merge_one_step; eauto.
    + rewrite Hnodes. destruct (decide (oldr = tr)) as [->|Hne].
      * assert (trn' = on') as -> by congruence.
        rewrite list_lookup_insert_eq by (by eapply lookup_lt_Some).
        eexists. split; [done|]. cbn [_metadata with_metadata].
        rewrite Hname, <- Hkeys. by eapply dict_keys_set_existing.
      * rewrite list_lookup_insert_ne by done. eauto.
  - intros P cur [_ (on' & Hon' & Hkeys)]. unfold metadata.
    rewrite run_bind, run_bind, (get_node_Some _ _ _ Hon'). cbn [ret].
    apply (f_equal length) in Hkeys. unfold dict_keys in Hkeys.
    rewrite !length_map in Hkeys. by rewrite Hkeys.
  - by apply Forall_forall.
  - split; [|by exists on]. split.
    + eauto.
    + exists []. by rewrite app_nil_r.
    + exists on. split; [done|]. intros k m Hm. eauto.
    + exists trn. split; [done|]. by intros k m ?%elem_of_nil.
  - exists st2. by split.
Qed.

(** X26. What a graft that returns has done with the bundles, from a store
    in which the old root files each bundle under the bundle's own name, as
    the [metadata] setter does.  [t]'s root is returned and holds: with mode
    True, under each name of the old root's bundles, the very instance the
    old root held, and no instance was created; with mode 'copy', under
    each such name, an instance that did not exist before the call, is
    therefore not the old root's, and has that bundle's contents, the old
    instance being unchanged; with mode False, the bundles it held before
    the call and no other. *)
Theorem graft_merges_metadata st (s t : ref) (mode : pyval) r st'
    (sn tn on trn : NodeObj) (oldr tr : ref) :
  nodes st !! s = Some sn → _root sn = Some oldr →
  nodes st !! t = Some tn → _root tn = Some tr →
  nodes st !! oldr = Some on →
  nodes st !! tr = Some trn →
  metadata_named st on →
  graft s (PNode t) mode st = (Ok r, st') →
  r = Some tr
  ∧ ∃ trn',
      nodes st' !! tr = Some trn'
      ∧ (mode = PBool true →
           metadatas st' = metadatas st
           ∧ ∀ k m, dict_get k (_metadata on) = Some m →
                    dict_get k (_metadata trn') = Some m)
      ∧ (mode = PStr "copy" →
           ∀ k m, dict_get k (_metadata on) = Some m →
                  ∃ m', dict_get k (_metadata trn') = Some m'
                        ∧ m' ≠ m
                        ∧ metadatas st !! m' = None
                        ∧ metadatas st' !! m' = metadatas st !! m
                        ∧ metadatas st' !! m = metadatas st !! m)
      ∧ (mode = PBool false →
           metadatas st' = metadatas st
           ∧ _metadata trn' = _metadata trn).
Proof.
  intros Hs Hsr Ht Htr Hon Htrn Hnamed Hgraft.
  apply graft_inv in Hgraft
      as (sn' & st1 & st2 & Hs' & [Hmds Hframe] & Hne & Hvalid & Hmerge & Hret).
  assert (sn' = sn) as -> by congruence. rewrite Hsr in Hmerge.
  apply root_inv in Hret as [-> (tn2 & Ht2 & ->)].
  destruct (Hframe _ _ Hon) as (on1 & Hon1 & Hmd_on & _).
  destruct (Hframe _ _ Ht) as (tn1 & Ht1 & _ & Hroot_t).
  destruct (Hframe _ _ Htrn) as (trn1 & Htrn1 & Hmd_tr & _).
  rewrite Htr in Hroot_t. specialize (Hroot_t Hne).
  assert (Hnamed1 : metadata_named st1 on1).
  { intros k m Hm. rewrite Hmd_on in Hm. rewrite Hmds. eauto. }
  destruct (py_is_bool mode false) eqn:Efalse;
    [|destruct (py_is_bool mode true) eqn:Etrue].
  - inversion Hmerge; subst st2.
    assert (tn2 = tn1) as -> by congruence. split; [done|].
    exists trn1. split; [done|].
    split; [|split]; [intros ->; discriminate Efalse.. | done].
  - apply (merge_root_metadata_spec false st1 oldr t tr on1 tn1 trn1) in Hmerge
        as [(tn' & Ht' & Htr') (extra & Hstore & Hextra) _ (trn' & Htrn' & Hnew)];
      try done.
    assert (tn2 = tn') as -> by congruence. split; [done|].
    exists trn'. split; [done|].
    rewrite (Hextra eq_refl), app_nil_r, Hmds in Hstore.
    split; [|split]; [|intros ->; discriminate Etrue | intros ->; discriminate Efalse].
    intros _. split; [done|].
    intros k m Hm. rewrite <- Hmd_on in Hm.
    destruct (Hnew k m) as (m' & Hm' & _ & ->); [|done|done].
    rewrite app_nil_r. apply elem_of_reverse. by eapply dict_key_of_get.
  - apply (merge_root_metadata_spec true st1 oldr t tr on1 tn1 trn1) in Hmerge
        as [(tn' & Ht' & Htr') (extra & Hstore & _) _ (trn' & Htrn' & Hnew)];
      try done.
    assert (tn2 = tn') as -> by congruence. split; [done|].
    exists trn'. split; [done|].
    split; [|split]; [intros ->; discriminate Etrue | | intros ->; discriminate Efalse].
    intros _ k m Hm. destruct (Hnamed _ _ Hm) as (o & Ho & _).
    assert (Hlt : m < length (metadatas st)) by (by eapply lookup_lt_Some).
    rewrite <- Hmd_on in Hm.
    destruct (Hnew k m) as (m' & Hm' & Hobj & Hfresh); [|done|].
    { rewrite app_nil_r. apply elem_of_reverse. by eapply dict_key_of_get. }
    rewrite Hmds in Hobj, Hfresh, Hstore.
    exists m'. split; [done|]. split; [lia|]. split; [|split; [done|]].
    + by apply lookup_ge_None.
    + rewrite Hstore. by apply lookup_app_l.
Qed.

Lemma bundles_named :
  ∀ n, nodes bundles_state !! 0 = Some n → metadata_named bundles_state n.
Proof.
  intros n Hn k m Hm. inversion Hn; subst n.
  cbn [_metadata dict_get] in Hm.
  destruct (key_eqb k "md1") eqn:E1; [|destruct (key_eqb k "md2") eqn:E2].
  - apply key_eqb_eq in E1. inversion Hm; subst. by eexists.
  - apply key_eqb_eq in E2. inversion Hm; subst. by eexists.
  - discriminate.
Qed.

Lemma graft_merges_metadata_witness :
  (graft 2 (PNode 4) (PBool true) bundles_state = (Ok (Some 4), transferred_state)
   ∧ ∃ trn',
       nodes transferred_state !! 4 = Some trn'
       ∧ dict_get "md1" (_metadata trn') = Some 0
       ∧ dict_get "md2" (_metadata trn') = Some 1
       ∧ metadatas transferred_state = metadatas bundles_state)
  ∧ graft 2 (PNode 4) (PStr "copy") bundles_state = (Ok (Some 4), copied_state)
  ∧ ∃ trn' m',
      nodes copied_state !! 4 = Some trn'
      ∧ dict_get "md1" (_metadata trn') = Some m'
      ∧ m' ≠ 0
      ∧ metadatas copied_state !! m' = metadatas bundles_state !! 0.
Proof.
  assert (Hmove : graft 2 (PNode 4) (PBool true) bundles_state
                  = (Ok (Some 4), transferred_state)) by (vm_compute; reflexivity).
  assert (Hrun : graft 2 (PNode 4) (PStr "copy") bundles_state
                 = (Ok (Some 4), copied_state)) by (vm_compute; reflexivity).
  split; [split; [exact Hmove|] | split; [exact Hrun|]].
  - destruct (graft_merges_metadata bundles_state 2 4 (PBool true) (Some 4)
                transferred_state _ _ _ _ 0 4
                eq_refl eq_refl eq_refl eq_refl eq_refl eq_refl
                (bundles_named _ eq_refl) Hmove)
      as (_ & trn' & Htrn' & Hsame & _).
    destruct (Hsame eq_refl) as [Hstore Hheld].
    exists trn'. split; [done|].
    split; [by apply Hheld|]. split; [by apply Hheld|done].
  - destruct (graft_merges_metadata bundles_state 2 4 (PStr "copy") (Some 4)
                copied_state _ _ _ _ 0 4
                eq_refl eq_refl eq_refl eq_refl eq_refl eq_refl
                (bundles_named _ eq_refl) Hrun)
      as (_ & trn' & Htrn' & _ & Hcopy & _).
    destruct (Hcopy eq_refl "md1" 0 eq_refl) as (m' & Hm' & Hne & _ & Hsame & _).
    by exists trn', m'.
Defined.

Lemma detached_frame st (s u : ref) sn un d' :
  nodes st !! s = Some sn → nodes st !! u = Some un → u ≠ s →
  graft_frame s st (detached s u sn un d' st).
Proof.
  intros Hs Hu Hus.
  eapply graft_frame_trans.
  - eapply (modify_node_frame s u (with_tree (mkTree d')));
      [unfold modify_node; by rewrite Hu | done | by right].
  - eapply (modify_node_frame s s (with_root None)); [|done|by left].
    unfold modify_node. cbn [nodes set_nodes].
    rewrite list_lookup_insert_ne by done. by rewrite Hs.
Qed.

(** X27. A graft that transfers or copies bundles does return.  In a store
    built without grafting, take a node at least two levels below a Root
    that files its bundles under their own names, the names on the way
    being not empty and without a '/', and any other rooted node that has a
    path, in whichever tree.  Grafting the one onto the other with mode
    True returns the target's root, which then holds every bundle of the
    old root as the very same instance, no instance having been made; with
    mode 'copy' it returns the target's root, which then holds under the
    name of every bundle of the old root an instance that did not exist
    before, with the contents of that bundle, the original being as it
    was. *)
Theorem graft_deep_node_merges st (s t r tr : ref) (segs : list string) (k : string)
    (rn tn trn : NodeObj) (mode : pyval) :
  well_formed st →
  nodes st !! r = Some rn → __class__ rn = Root_class →
  address (nodes st) r (segs ++ [k]) s → segs ≠ [] →
  Forall clean_segment (segs ++ [k]) →
  nodes st !! t = Some tn → _root tn = Some tr →
  is_some (_treepath tn) = true → t ≠ s →
  nodes st !! tr = Some trn →
  metadata_named st rn →
  mode = PBool true ∨ mode = PStr "copy" →
  ∃ st' trn',
    graft s (PNode t) mode st = (Ok (Some tr), st')
    ∧ nodes st' !! tr = Some trn'
    ∧ (mode = PBool true →
         metadatas st' = metadatas st
         ∧ ∀ b m, dict_get b (_metadata rn) = Some m →
                  dict_get b (_metadata trn') = Some m)
    ∧ (mode = PStr "copy" →
         ∀ b m, dict_get b (_metadata rn) = Some m →
                ∃ m', dict_get b (_metadata trn') = Some m'
                      ∧ m' ≠ m
                      ∧ metadatas st !! m' = None
                      ∧ metadatas st' !! m' = metadatas st !! m
                      ∧ metadatas st' !! m = metadatas st !! m).
Proof.
  intros Hwf Hr Hcls Ha Hne Hclean Ht Htr Htp Hts Htrn Hnamed Hmode.
  assert (HR : is_Root (nodes st) r) by (by exists rn).
  destruct (graft_detaches st s t r segs k tn mode Hwf HR Ha Hne Hclean Ht
              ltac:(by rewrite Htr))
    as (sn & u & un & d' & Hs & Hsr & Hau & Hu & Hus & Hk & Hd' & _ & Hnm & Hrun).
  pose proof (detached_frame st s u sn un d' Hs Hu Hus) as Hframe_b.
  set (stb := detached s u sn un d' st) in *.
  destruct (proj2 Hframe_b _ _ Ht) as (tnb & Htb & _ & Htbr).
  specialize (Htbr Hts). rewrite Htr in Htbr.
  assert (Hsb : nodes stb !! s = Some (with_root None sn))
    by (by apply lookup_detached_self).
  assert (Htbp : _treepath tnb = _treepath tn).
  { unfold stb in Htb. rewrite (lookup_detached_other _ _ _ _ _ _ _ Hts Hu) in Htb.
    destruct (decide (t = u)) as [->|].
    - assert (un = tn) as -> by congruence. by inversion Htb.
    - congruence. }
  destruct (_treepath tn) as [pp|] eqn:Hpp; [clear Htp|done].
  destruct (add_to_tree_run stb t s tnb (with_root None sn) Htb Hsb
              ltac:(by rewrite Htbr) eq_refl) as [_ Hadd].
  rewrite Htbp in Hadd. cbn [name with_root] in Hadd. rewrite Hnm in Hadd.
  set (stc := set_nodes (attached t s tnb (with_root None sn) (Some (pp +:+ "/" +:+ k)))
                stb) in *.
  destruct (add_to_tree_frame _ _ _ _ _ Hadd) as [Hframe_c _].
  pose proof (graft_frame_trans _ _ _ _ Hframe_b Hframe_c) as [Hmds Hframe].
  destruct (Hframe _ _ Hr) as (on1 & Hon1 & Hmd_on & _).
  destruct (Hframe _ _ Ht) as (tn1 & Ht1 & _ & Hroot_t).
  destruct (Hframe _ _ Htrn) as (trn1 & Htrn1 & Hmd_tr & _).
  rewrite Htr in Hroot_t. specialize (Hroot_t Hts).
  assert (Hnamed1 : metadata_named stc on1).
  { intros b m Hm. rewrite Hmd_on in Hm. rewrite Hmds. eauto. }
  assert (Hend : ∀ copy, ∃ st2,
            merge_root_metadata copy (Some r) (PNode t) stc = (Ok tt, st2)
            ∧ getattr_root (PNode t) st2 = (Ok (Some tr), st2)
            ∧ merge_invariant copy stc r t tr (_metadata on1)
                (reverse (dict_keys (_metadata on1)) ++ []) st2).
  { intros copy.
    destruct (merge_root_metadata_runs copy stc r t tr on1 tn1 trn1)
      as (st2 & Hmerge & Hinv); try done.
    exists st2. split; [done|]. split; [|done].
    destruct Hinv as [(tn' & Ht' & Htr') _ _ _].
    unfold getattr_root, root. rewrite run_bind, (get_node_Some _ _ _ Ht').
    cbn [ret]. by rewrite Htr'. }
  assert (Hin : ∀ b m, dict_get b (_metadata on1) = Some m →
                       b ∈ reverse (dict_keys (_metadata on1)) ++ []).
  { intros b m Hm. rewrite app_nil_r. apply elem_of_reverse. by eapply dict_key_of_get. }
  destruct Hmode as [-> | ->].
  - destruct (Hend false)
      as (st2 & Hmerge & Hroot
          & [_ (extra & Hstore & Hextra) _ (trn' & Htrn' & Hnew)]).
    exists st2, trn'. split; [|split; [done|split; [|discriminate]]].
    + rewrite Hrun, run_bind, Hadd.
      change (merge_metadata_valid (PBool true)) with true.
      change (py_is_bool (PBool true) false) with false.
      change (py_is_bool (PBool true) true) with true. cbv iota.
      rewrite run_bind. cbn [assert ret]. by rewrite run_bind, Hmerge.
    + intros _. rewrite (Hextra eq_refl), app_nil_r, Hmds in Hstore.
      split; [done|]. intros b m Hm. rewrite <- Hmd_on in Hm.
      destruct (Hnew b m) as (m' & Hm' & _ & ->); eauto.
  - destruct (Hend true)
      as (st2 & Hmerge & Hroot
          & [_ (extra & Hstore & _) _ (trn' & Htrn' & Hnew)]).
    exists st2, trn'. split; [|split; [done|split; [discriminate|]]].
    + rewrite Hrun, run_bind, Hadd.
      change (merge_metadata_valid (PStr "copy")) with true.
      change (py_is_bool (PStr "copy") false) with false.
      change (py_is_bool (PStr "copy") true) with false. cbv iota.
      rewrite run_bind. cbn [assert ret]. by rewrite run_bind, Hmerge.
    + intros _ b m Hm. destruct (Hnamed _ _ Hm) as (o & Ho & _).
      assert (Hlt : m < length (metadatas st)) by (by eapply lookup_lt_Some).
      rewrite <- Hmd_on in Hm.
      destruct (Hnew b m) as (m' & Hm' & Hobj & Hfresh); eauto.
      rewrite Hmds in Hobj, Hfresh, Hstore.
      exists m'. split; [done|]. split; [lia|]. split; [|split; [done|]].
      * by apply lookup_ge_None.
      * rewrite Hstore. by apply lookup_app_l.
Qed.

Lemma well_formed_same_trees st st' :
  same_trees st st' → well_formed st → well_formed st'.
Proof.
  intros [Hlen Hsame] [Hself Hroots Hpaths Hleafs Hclosed Hkeys].
  assert (Hback : ∀ q n', nodes st' !! q = Some n' →
            ∃ n, nodes st !! q = Some n
                 ∧ __class__ n' = __class__ n ∧ name n' = name n
                 ∧ _tree n' = _tree n ∧ _treepath n' = _treepath n
                 ∧ _root n' = _root n).
  { intros q n' Hq.
    assert (Hlt : q < length (nodes st)) by (rewrite <- Hlen; by eapply lookup_lt_Some).
    destruct (lookup_lt_is_Some_2 _ _ Hlt) as [n Hn].
    destruct (Hsame _ _ Hn) as (n'' & Hq'' & ?). exists n. split; [done|].
    assert (n'' = n') as <- by congruence. done. }
  assert (Hchild : ∀ q c, child_of (nodes st') q c → child_of (nodes st) q c).
  { intros q c (n' & b & Hq & Hb).
    destruct (Hback _ _ Hq) as (n & Hn & _ & _ & Htree & _).
    exists n, b. split; [done|]. by rewrite <- Htree. }
  assert (Hreach : ∀ q c, reachable (nodes st') q c → reachable (nodes st) q c).
  { induction 1 as [c Hc | m c _ IH Hc].
    - apply reachable_child. by apply Hchild.
    - eapply reachable_below; [exact IH | by apply Hchild]. }
  assert (Haddr : ∀ q segs c, address (nodes st') q segs c → address (nodes st) q segs c).
  { induction 1 as [q | q nq b m segs c Hq Hb _ IH]; [apply address_here|].
    destruct (Hback _ _ Hq) as (n & Hn & _ & _ & Htree & _).
    eapply address_down; [exact Hn | by rewrite <- Htree | exact IH]. }
  assert (HRoot : ∀ q, is_Root (nodes st') q → is_Root (nodes st) q).
  { intros q (n' & Hq & Hcls).
    destruct (Hback _ _ Hq) as (n & Hn & Hc & _). exists n. split; [done|congruence]. }
  split.
  - intros q n' Hq Hcls. destruct (Hback _ _ Hq) as (n & Hn & Hc & _ & _ & _ & Hr).
    rewrite Hr. apply (Hself q n); [done|congruence].
  - intros q c cn' Hq Hqc Hc.
    destruct (Hback _ _ Hc) as (cn & Hcn & _ & _ & _ & _ & Hr).
    rewrite Hr. apply (Hroots q c cn); auto.
  - intros q segs c cn' Hq Hqc Hc.
    destruct (Hback _ _ Hc) as (cn & Hcn & _ & _ & _ & Hp & _).
    rewrite Hp. apply (Hpaths q segs c cn); auto.
  - intros q n' Hq Hr.
    destruct (Hback _ _ Hq) as (n & Hn & _ & _ & Htree & _ & Hr').
    rewrite Htree. apply (Hleafs q n); [done|congruence].
  - intros q n' b c Hq Hb.
    destruct (Hback _ _ Hq) as (n & Hn & _ & _ & Htree & _).
    rewrite Hlen. apply (Hclosed q n b c); [done|by rewrite <- Htree].
  - intros q n' b c cn' Hq Hb Hc.
    destruct (Hback _ _ Hq) as (n & Hn & _ & _ & Htree & _).
    destruct (Hback _ _ Hc) as (cn & Hcn & _ & Hname & _).
    rewrite Hname. apply (Hkeys q n b c cn); [done|by rewrite <- Htree|done].
Qed.

Lemma bundles_state_well_formed : well_formed bundles_state.
Proof.
  apply (well_formed_same_trees two_trees_state); [|exact two_trees_well_formed].
  split; [reflexivity|]. intros q n Hq.
  do 5 (destruct q as [|q];
        [inversion Hq; subst; eexists; split; [reflexivity|]; by repeat split|]).
  discriminate Hq.
Qed.

Lemma graft_deep_node_merges_witness :
  (∃ st' trn',
     graft 2 (PNode 4) (PBool true) bundles_state = (Ok (Some 4), st')
     ∧ nodes st' !! 4 = Some trn'
     ∧ dict_get "md1" (_metadata trn') = Some 0)
  ∧ ∃ st' trn' m',
      graft 3 (PNode 1) (PStr "copy") bundles_state = (Ok (Some 0), st')
      ∧ nodes st' !! 0 = Some trn'
      ∧ dict_get "md1" (_metadata trn') = Some m' ∧ m' ≠ 0
      ∧ metadatas st' !! m' = metadatas bundles_state !! 0.
Proof.
  pose proof bundles_state_well_formed as Hwf.
  assert (Hx : address (nodes bundles_state) 0 (["a"] ++ ["x"]) 2).
  { do 2 (eapply address_down; [reflexivity | reflexivity |]). apply address_here. }
  assert (Hy : address (nodes bundles_state) 0 (["a"; "x"] ++ ["y"]) 3).
  { do 3 (eapply address_down; [reflexivity | reflexivity |]). apply address_here. }
  split.
  - destruct (graft_deep_node_merges bundles_state 2 4 0 4 ["a"] "x" _ _ _ (PBool true)
                Hwf eq_refl eq_refl Hx ltac:(discriminate)
                ltac:(repeat constructor; discriminate)
                eq_refl eq_refl eq_refl ltac:(discriminate) eq_refl
                (bundles_named _ eq_refl) (or_introl eq_refl))
      as (st' & trn' & Hrun & Htrn' & Hsame & _).
    exists st', trn'. split; [done|]. split; [done|].
    by apply (proj2 (Hsame eq_refl)).
  - destruct (graft_deep_node_merges bundles_state 3 1 0 0 ["a"; "x"] "y" _ _ _ (PStr "copy")
                Hwf eq_refl eq_refl Hy ltac:(discriminate)
                ltac:(repeat constructor; discriminate)
                eq_refl eq_refl eq_refl ltac:(discriminate) eq_refl
                (bundles_named _ eq_refl) (or_intror eq_refl))
      as (st' & trn' & Hrun & Htrn' & _ & Hcopy).
    destruct (Hcopy eq_refl "md1" 0 eq_refl) as (m' & Hm' & Hne & _ & Hsame & _).
    by exists st', trn', m'.
Defined.

(** ** amorph: nearest-neighbour correlation *)

Lemma collect_map_Ok {A B} (f : A → Res B) (g : A → B) (l : list A) :
  (∀ x, x ∈ l → f x = Ok (g x)) →
  amorph.collect (map f l) = Ok (map g l).
Proof.
  induction l as [|x l IH]; intros Hf; [done|]. simpl.
  rewrite (Hf x) by (apply elem_of_cons; by left).
  rewrite IH; [done|]. intros y Hy. apply Hf, elem_of_cons. by right.
Qed.

Lemma getitem_in_bounds {Pattern} (dc : amorph.Datacube (Pattern := Pattern)) i j :
  (i < amorph.shape0 dc)%nat → (j < amorph.shape1 dc)%nat →
  amorph.getitem dc i j = Ok (amorph.data dc i j).
Proof.
  intros Hi%Nat.ltb_lt Hj%Nat.ltb_lt. unfold amorph.getitem. by rewrite Hi, Hj.
Qed.

Lemma partners_near (i j : nat) (p : nat * nat) :
  p ∈ amorph.partners i j → (p.1 ≤ i + 2)%nat ∧ (p.2 ≤ j + 2)%nat.
Proof.
  unfold amorph.partners. rewrite !elem_of_cons, elem_of_nil.
  intros [->|[->|[->|[->|[->|[->|[->|[->|[]]]]]]]]]; simpl; lia.
Qed.

Lemma cell_in_bounds {Pattern Value} (corr2d : Pattern → Pattern → Value) mean
    (dc : amorph.Datacube) i j :
  (i + 2 < amorph.shape0 dc)%nat → (j + 2 < amorph.shape1 dc)%nat →
  amorph.cell corr2d mean dc i j
  = Ok (mean (map (λ p, corr2d (amorph.data dc (i + 1) (j + 1))
                                (amorph.data dc p.1 p.2))
                  (amorph.partners i j))).
Proof.
  intros Hi Hj. unfold amorph.cell.
  rewrite (collect_map_Ok _ (λ p, corr2d (amorph.data dc (i + 1) (j + 1))
                                      (amorph.data dc p.1 p.2))); [done|].
  intros p [Hp1 Hp2]%partners_near. unfold amorph.corr_at. cbn [fst snd].
  by rewrite !getitem_in_bounds by lia.
Qed.

(** X22. [compute_nn_corr] reads no position outside the datacube: for
    every scan shape it returns an array with two rows and two columns
    fewer than the scan (none, for a scan of fewer than three), and its
    entry [(i, j)] is the mean of the eight correlations of the pattern at
    [(i + 1, j + 1)] with the patterns at the positions the code lists. *)
Theorem compute_nn_corr_shape {Pattern Value} (corr2d : Pattern → Pattern → Value)
    (mean : list Value → Value) (dc : amorph.Datacube) :
  ∃ rows,
    amorph.compute_nn_corr corr2d mean dc = Ok rows
    ∧ length rows = amorph.shape0 dc - 2
    ∧ (∀ i row, rows !! i = Some row → length row = amorph.shape1 dc - 2)
    ∧ (∀ i j row v, rows !! i = Some row → row !! j = Some v →
         amorph.cell corr2d mean dc i j = Ok v
         ∧ Forall (λ p : nat * nat,
                     (p.1 < amorph.shape0 dc)%nat ∧ (p.2 < amorph.shape1 dc)%nat)
             ((i + 1, j + 1) :: amorph.partners i j)).
Proof.
  set (val i j := mean (map (λ p, corr2d (amorph.data dc (i + 1) (j + 1))
                                         (amorph.data dc p.1 p.2))
                            (amorph.partners i j))).
  exists ((λ i, val i <$> seq 0 (amorph.shape1 dc - 2)) <$> seq 0 (amorph.shape0 dc - 2)).
  split; [|split; [|split]].
  - unfold amorph.compute_nn_corr.
    apply (collect_map_Ok _ (λ i, val i <$> seq 0 (amorph.shape1 dc - 2))).
    intros i [_ Hi]%elem_of_seq.
    apply (collect_map_Ok _ (val i)).
    intros j [_ Hj]%elem_of_seq. apply cell_in_bounds; lia.
  - by rewrite length_fmap, length_seq.
  - intros i row Hrow. apply list_lookup_fmap_Some in Hrow as (i' & -> & _).
    by rewrite length_fmap, length_seq.
  - intros i j row v Hrow Hv.
    apply list_lookup_fmap_Some in Hrow as (i' & -> & [-> Hi]%lookup_seq).
    apply list_lookup_fmap_Some in Hv as (j' & -> & [-> Hj]%lookup_seq).
    simpl. split; [apply cell_in_bounds; lia|].
    apply Forall_cons. split; [simpl; lia|].
    apply Forall_forall. intros p [Hp1 Hp2]%partners_near. lia.
Qed.

(** X23. The eight positions are not the eight neighbours: the position
    [(i + 1, j + 2)] next to the centre is not among them, and the corner
    [(i + 2, j + 2)] is there twice.  Entry [(i, j)] of the result
    therefore does not depend on the pattern at [(i + 1, j + 2)]: two
    datacubes of one shape that differ there alone give the same entry. *)
Theorem compute_nn_corr_skips_neighbour {Pattern Value}
    (corr2d : Pattern → Pattern → Value) (mean : list Value → Value)
    (dc dc' : amorph.Datacube) (i j : nat) :
  amorph.shape0 dc' = amorph.shape0 dc → amorph.shape1 dc' = amorph.shape1 dc →
  (∀ a b, (a, b) ≠ (i + 1, j + 2) → amorph.data dc' a b = amorph.data dc a b) →
  amorph.cell corr2d mean dc' i j = amorph.cell corr2d mean dc i j
  ∧ ((i + 1, j + 2) ∉ amorph.partners i j)
  ∧ length (filter (λ p, p = (i + 2, j + 2)) (amorph.partners i j)) = 2
  ∧ length (amorph.partners i j) = 8.
Proof.
  intros H0 H1 Hdata.
  assert (Hnot : (i + 1, j + 2) ∉ amorph.partners i j).
  { unfold amorph.partners. rewrite !elem_of_cons, elem_of_nil. intros Hin.
    repeat (destruct Hin as [Heq|Hin]; [inversion Heq; lia|]). done. }
  split; [|split; [done|split; [|done]]].
  - unfold amorph.cell. f_equal.
    assert (Hget : ∀ a b, (a, b) ≠ (i + 1, j + 2) →
              amorph.getitem dc' a b = amorph.getitem dc a b).
    { intros a b Hab. unfold amorph.getitem. by rewrite H0, H1, Hdata. }
    assert (Hmap : map (amorph.corr_at corr2d dc' (i + 1, j + 1)) (amorph.partners i j)
                   = map (amorph.corr_at corr2d dc (i + 1, j + 1)) (amorph.partners i j)).
    { apply map_ext_in. intros [a b] Hin%list_elem_of_In.
      unfold amorph.corr_at. cbn [fst snd].
      rewrite (Hget (i + 1) (j + 1)) by (intros Heq; inversion Heq; lia).
      rewrite (Hget a b); [done|]. intros Heq. rewrite Heq in Hin. by apply Hnot. }
    by rewrite Hmap.
  - unfold amorph.partners.
    repeat first [ rewrite filter_cons_True by done
                 | rewrite filter_cons_False by (intros Heq; inversion Heq; lia) ].
    done.
Qed.

Lemma compute_nn_corr_skips_neighbour_witness :
  amorph.cell Nat.mul (foldr Nat.add 0)
    (amorph.mkDatacube 3 3 (λ a b, if decide ((a, b) = (1, 2)) then 7 else a + b)) 0 0
  = amorph.cell Nat.mul (foldr Nat.add 0) (amorph.mkDatacube 3 3 Nat.add) 0 0.
Proof.
  apply (compute_nn_corr_skips_neighbour Nat.mul (foldr Nat.add 0)
           (amorph.mkDatacube 3 3 Nat.add)
           (amorph.mkDatacube 3 3 (λ a b, if decide ((a, b) = (1, 2)) then 7 else a + b))
           0 0 eq_refl eq_refl).
  intros a b Hab. cbn [amorph.data]. by rewrite decide_False.
Defined.

(** ** amorph: fitting a stack *)

Lemma collect_first_error {A B} (f : A → Res B) x l e :
  f x = Err e → amorph.collect (map f (x :: l)) = Err e.
Proof. intros H. simpl. by rewrite H. Qed.

(** X24. [fit_stack] cannot be called with its default mask.  The loop body
    starts by reading [mask.shape]: with [mask=None] the first scan position
    raises AttributeError, before any pattern is read.  With a mask that has
    neither two nor four dimensions [mask_current] is never bound, and the
    first position raises at its use, once the pattern has been read.  Only
    a scan without positions gets through, with the array of zeros. *)
Theorem fit_stack_needs_mask {Pattern Coefs Mask2 : Type}
    (fit : Pattern → Coefs → Mask2 → Coefs) (zeros : Coefs)
    (datacube : amorph.DataCube (Pattern := Pattern)) (init_coefs : Coefs) :
  ((0 < amorph.R_Nx datacube)%nat → (0 < amorph.R_Ny datacube)%nat →
     amorph.fit_stack fit zeros datacube init_coefs None = Err AttributeError)
  ∧ ((0 < amorph.R_Nx datacube)%nat → (0 < amorph.R_Ny datacube)%nat →
     ∀ m : amorph.MaskArray (Mask2 := Mask2),
       amorph.ndim m ≠ 2 → amorph.ndim m ≠ 4 →
       amorph.fit_stack fit zeros datacube init_coefs (Some m)
       = if (0 <? amorph.shape0 (amorph.cube datacube))%nat
            && (0 <? amorph.shape1 (amorph.cube datacube))%nat
         then Err (NameError "mask_current") else Err IndexError)
  ∧ (amorph.R_Nx datacube = 0 ∨ amorph.R_Ny datacube = 0 →
     ∀ mask,
       amorph.fit_stack fit zeros datacube init_coefs mask
       = Ok (map (λ _, map (λ _, zeros) (seq 0 (amorph.shape1 (amorph.cube datacube))))
                 (seq 0 (amorph.shape0 (amorph.cube datacube))))).
Proof.
  assert (Hfirst : ∀ mask e,
    (0 < amorph.R_Nx datacube)%nat → (0 < amorph.R_Ny datacube)%nat →
    amorph.fit_at fit datacube init_coefs mask 0 0 = Err e →
    amorph.fit_stack fit zeros datacube init_coefs mask = Err e).
  { intros mask e Hx Hy Hmask. unfold amorph.fit_stack.
    destruct (amorph.R_Nx datacube) as [|nx]; [lia|].
    destruct (amorph.R_Ny datacube) as [|ny]; [lia|].
    cbn [seq]. erewrite collect_first_error; [done|].
    by apply collect_first_error. }
  split; [|split].
  - intros Hx Hy. by apply Hfirst.
  - intros Hx Hy m H2 H4.
    assert (Hat : amorph.fit_at fit datacube init_coefs (Some m) 0 0
                  = if (0 <? amorph.shape0 (amorph.cube datacube))%nat
                       && (0 <? amorph.shape1 (amorph.cube datacube))%nat
                    then Err (NameError "mask_current") else Err IndexError).
    { unfold amorph.fit_at, amorph.mask_current, amorph.getitem.
      apply Nat.eqb_neq in H2, H4. rewrite H2, H4. by destruct (_ && _). }
    destruct (_ && _); by apply Hfirst.
  - intros Hempty mask. unfold amorph.fit_stack.
    assert (Hfits : ∃ fits,
      amorph.collect
        (map (λ i, amorph.collect (map (amorph.fit_at fit datacube init_coefs mask i)
                                       (seq 0 (amorph.R_Ny datacube))))
             (seq 0 (amorph.R_Nx datacube))) = Ok fits
      ∧ ∀ i j, fits !! i ≫= (.!! j) = None).
    { destruct Hempty as [-> | ->].
      - exists []. by split.
      - exists ((λ _, []) <$> seq 0 (amorph.R_Nx datacube)). split.
        + by apply (collect_map_Ok _ (λ _, [])).
        + intros i j. rewrite list_lookup_fmap.
          by destruct (seq 0 (amorph.R_Nx datacube) !! i). }
    destruct Hfits as (fits & -> & Hnone). f_equal.
    apply map_ext. intros i. apply map_ext. intros j. by rewrite Hnone.
Qed.
